(** * File-activity monitor: a shallow embedding and its checked properties

    The development follows [src/monitoring/file_monitor.py] (the
    [FileMonitor] class and its [FileEventHandler]), [src/utils.py] (the
    logging helpers) and [process_queue] of [src/gui/dashboard.py].

    Text is modelled over the code points 0..255 (type [ascii]); on that
    range Python's [str.lower], [str.strip] and the [re.IGNORECASE]
    comparison are the functions written out in [Module Py].  A file's
    [Content] is its text after UTF-8 decoding, before newline
    translation.

    Methods are functions from a world (file system, logger, [self]) to
    an outcome (a value returned or an exception raised) and the world
    left behind.  A call runs alone: the removable-media simulation
    thread, its timing and its random draws are not part of the model;
    its effect, the flag [usb_detected], is a field of [self] that a
    call reads as it finds it.

    Layout: the embedding of the code ([Py], [Re], [Utils], [Monitor],
    [Dashboard]), the notions the properties are stated with ([Spec]),
    sample worlds ([Examples]), then the lemmas and the properties
    C1-C10. *)

From Stdlib Require Import String Ascii List Bool Arith ZArith Lia DecimalString.
From Stdlib Require Import Sorted.
Import ListNotations.
Open Scope string_scope.

(* ===================================================================== *)
(** * Python runtime functions used by the monitor                        *)
(* ===================================================================== *)

Module Py.

(** [str.lower] on one code point below 256: the letters A-Z and the
    Latin-1 capitals 0xC0-0xDE (0xD7, the multiplication sign, excepted)
    move up by 32; everything else is unchanged. *)
Definition chr_lower (c : ascii) : ascii :=
  let n := nat_of_ascii c in
  if ((65 <=? n) && (n <=? 90)
      || (192 <=? n) && (n <=? 222) && negb (n =? 215))%nat
  then ascii_of_nat (n + 32) else c.

(** [s.lower()] *)
Fixpoint lower (s : string) : string :=
  match s with
  | EmptyString => EmptyString
  | String c s' => String (chr_lower c) (lower s')
  end.

(** [str.isspace] on one code point below 256. *)
Definition isspace (c : ascii) : bool :=
  let n := nat_of_ascii c in
  ((9 <=? n) && (n <=? 13) || (28 <=? n) && (n <=? 32)
   || (n =? 133) || (n =? 160))%nat.

Fixpoint lstrip (s : string) : string :=
  match s with
  | EmptyString => EmptyString
  | String c s' => if isspace c then lstrip s' else s
  end.

Fixpoint rstrip (s : string) : string :=
  match s with
  | EmptyString => EmptyString
  | String c s' =>
      match rstrip s' with
      | EmptyString => if isspace c then EmptyString else String c EmptyString
      | r => String c r
      end
  end.

(** [s.strip()] *)
Definition strip (s : string) : string := rstrip (lstrip s).

(** [needle in hay] on strings. *)
Fixpoint str_in (needle hay : string) : bool :=
  String.prefix needle hay
  || match hay with
     | EmptyString => false
     | String _ hay' => str_in needle hay'
     end.

(** [x in xs] on a list of strings. *)
Definition in_list (x : string) (xs : list string) : bool :=
  existsb (String.eqb x) xs.

(** [str(n)] for a non-negative integer. *)
Definition str_of_nat (n : nat) : string :=
  NilEmpty.string_of_uint (Nat.to_uint n).

(** ** [os.path.splitext]

    [genericpath._splitext(p, sep, altsep, extsep)] with [extsep = '.'];
    [posixpath] calls it with [sep = '/'] and no [altsep], [ntpath] with
    [sep = '\\'] and [altsep = '/']. *)
Inductive PathFlavour := posixpath | ntpath.

Definition sep (fl : PathFlavour) : ascii :=
  match fl with posixpath => "/" | ntpath => "\" end.
Definition altsep (fl : PathFlavour) : option ascii :=
  match fl with posixpath => None | ntpath => Some "/"%char end.

Definition extsep : ascii := ".".

(** [p.rfind(c)] counted from index [i] of the first character of [p]:
    the greatest index holding [c], or [-1]. *)
Fixpoint rfind_from (c : ascii) (p : string) (i : Z) : Z :=
  match p with
  | EmptyString => (-1)%Z
  | String a p' =>
      let r := rfind_from c p' (i + 1)%Z in
      if (0 <=? r)%Z then r
      else if Ascii.eqb a c then i else (-1)%Z
  end.

Definition rfind (c : ascii) (p : string) : Z := rfind_from c p 0%Z.

(** [p[i:j]] for [0 <= i]. *)
Definition slice (p : string) (i j : Z) : string :=
  String.substring (Z.to_nat i) (Z.to_nat (j - i)) p.

(** The [while filenameIndex < dotIndex] loop of [_splitext]: [true] when
    it meets a character other than [extsep] (and returns the split),
    [false] when it runs to [dotIndex]; [n] counts the remaining turns. *)
Fixpoint nondot_before (p : string) (filenameIndex : Z) (n : nat) : bool :=
  match n with
  | O => false
  | S n' =>
      if negb (String.eqb (slice p filenameIndex (filenameIndex + 1))
                          (String extsep EmptyString))
      then true
      else nondot_before p (filenameIndex + 1)%Z n'
  end.

Definition splitext (fl : PathFlavour) (p : string) : string * string :=
  let sepIndex :=
    match altsep fl with
    | Some a => Z.max (rfind (sep fl) p) (rfind a p)
    | None => rfind (sep fl) p
    end in
  let dotIndex := rfind extsep p in
  if (sepIndex <? dotIndex)%Z
     && nondot_before p (sepIndex + 1)%Z (Z.to_nat (dotIndex - (sepIndex + 1)))
  then (slice p 0 dotIndex, slice p dotIndex (Z.of_nat (String.length p)))
  else (p, EmptyString).

(** ** Reading a text file line by line

    [open(path, 'r')] uses universal newlines: "\r\n" and a lone "\r"
    are read as "\n". Iterating the file yields the lines, each with its
    terminating "\n" (the last one may lack it). *)
Definition LF : ascii := "010".
Definition CR : ascii := "013".

Fixpoint universal_newlines (s : string) : string :=
  match s with
  | EmptyString => EmptyString
  | String c s' =>
      if Ascii.eqb c CR then
        match s' with
        | String d s'' =>
            if Ascii.eqb d LF then String LF (universal_newlines s'')
            else String LF (universal_newlines s')
        | EmptyString => String LF EmptyString
        end
      else String c (universal_newlines s')
  end.

Fixpoint split_lines (s : string) : list string :=
  match s with
  | EmptyString => []
  | String c s' =>
      if Ascii.eqb c LF then String c EmptyString :: split_lines s'
      else match split_lines s' with
           | [] => [String c EmptyString]
           | l :: ls => String c l :: ls
           end
  end.

Definition readlines (content : string) : list string :=
  split_lines (universal_newlines content).

(** [enumerate(xs, start)] *)
Fixpoint enumerate {A : Type} (xs : list A) (start : nat) : list (nat * A) :=
  match xs with
  | [] => []
  | x :: xs' => (start, x) :: enumerate xs' (S start)
  end.

End Py.

(* ===================================================================== *)
(** * The compiled keyword pattern ([re])                                 *)
(* ===================================================================== *)

(** [FileMonitor.__init__] compiles
    ['(' + '|'.join(re.escape(kw) for kw in sensitive_keywords) + ')']
    with [re.IGNORECASE]: an alternation of literals, tried in the order
    of the list. *)
Module Re.
Import Py.

(** One escaped literal against the text at the current position. With
    [re.IGNORECASE] a text character matches a pattern character when
    both have the same lower-case form. The result is the matched text,
    in the casing of the text. *)
Fixpoint match_literal (kw s : string) : option string :=
  match kw with
  | EmptyString => Some EmptyString
  | String a kw' =>
      match s with
      | EmptyString => None
      | String c s' =>
          if Ascii.eqb (chr_lower c) (chr_lower a)
          then option_map (String c) (match_literal kw' s')
          else None
      end
  end.

Definition is_empty (s : string) : bool :=
  match s with EmptyString => true | _ => false end.

(** One match attempt of the whole pattern at the current position: the
    first alternative that matches wins. [must_advance] is the engine's
    flag that refuses an empty match (set after an empty match at the
    same position), so that the next alternative is tried. *)
Fixpoint match_here (kws : list string) (s : string) (must_advance : bool)
  : option string :=
  match kws with
  | [] => None
  | kw :: kws' =>
      match match_literal kw s with
      | Some m =>
          if must_advance && is_empty m then match_here kws' s must_advance
          else Some m
      | None => match_here kws' s must_advance
      end
  end.

(** [pattern.finditer(s)]: the leftmost matches, left to right, none
    overlapping another. [s] is the text from index [pos] on; [skip]
    counts the characters of [s] still covered by the last match. At a
    free position the pattern is tried; a non-empty match is reported
    and the search resumes at its end; an empty match is reported and
    the same position is tried once more with [must_advance] set. *)
Fixpoint finditer_from (kws : list string) (s : string) (pos skip : nat)
  : list (nat * string) :=
  match skip with
  | S skip' =>
      match s with
      | EmptyString => []
      | String _ s' => finditer_from kws s' (S pos) skip'
      end
  | O =>
      let resume (covered : nat) :=
        match s with
        | EmptyString => []
        | String _ s' => finditer_from kws s' (S pos) covered
        end in
      match match_here kws s false with
      | None => resume O
      | Some m =>
          if is_empty m then
            (pos, m) ::
            match match_here kws s true with
            | None => resume O
            | Some m' => (pos, m') :: resume (String.length m' - 1)
            end
          else (pos, m) :: resume (String.length m - 1)
      end
  end.

(** [(start, group(0))] of every match object of [finditer(s)]. *)
Definition finditer (kws : list string) (s : string) : list (nat * string) :=
  finditer_from kws s 0 0.

End Re.

(* ===================================================================== *)
(** * [src/utils.py]                                                      *)
(* ===================================================================== *)

Module Utils.
Import Py.

Inductive Level := INFO | WARNING | ERROR.

(** What a logger method hands to its handlers. *)
Record LogRecord := { levelname : Level; message : string }.

(** A logger, as the sequence of records it has handled, oldest first. *)
Definition Logger := list LogRecord.

Definition info (logger : Logger) (msg : string) : Logger :=
  (logger ++ [ {| levelname := INFO; message := msg |} ])%list.
Definition warning (logger : Logger) (msg : string) : Logger :=
  (logger ++ [ {| levelname := WARNING; message := msg |} ])%list.
Definition error (logger : Logger) (msg : string) : Logger :=
  (logger ++ [ {| levelname := ERROR; message := msg |} ])%list.

Definition log_activity (logger : Logger) (activity_type details : string)
  : Logger :=
  info logger ("ACTIVITY: " ++ activity_type ++ " - " ++ details).

Definition log_alert (logger : Logger) (alert_level message : string)
  : Logger :=
  if String.eqb (lower alert_level) "low" then
    warning logger ("ALERT (LOW): " ++ message)
  else if String.eqb (lower alert_level) "medium" then
    warning logger ("ALERT (MEDIUM): " ++ message)
  else if String.eqb (lower alert_level) "high" then
    error logger ("ALERT (HIGH): " ++ message)
  else
    warning logger ("ALERT: " ++ message).

End Utils.

(* ===================================================================== *)
(** * [src/monitoring/file_monitor.py]                                    *)
(* ===================================================================== *)

Module Monitor.
Import Py Re Utils.

(** ** The world a [FileMonitor] runs in *)

(** What the monitor can find at a path: nothing ([os.path.exists] is
    false); an entry that exists but whose [open] or read raises
    (permission denied, locked, a directory, gone by the time of
    [open]); or a file with its decoded text. *)
Inductive File :=
| Missing
| Unreadable (why : string)   (* the text of the error raised *)
| Content (text : string).

(** The [watchdog] observer, a thread: the watches scheduled on it, and
    whether it was started and asked to stop. *)
Record Observer := { watches : list string; started : bool; stopped : bool }.

(** [self] *)
Record FileMonitor := {
  paths_to_monitor : list string;
  sensitive_keywords : list string;
  keywords_pattern : list string;   (* the alternatives of the compiled pattern *)
  observer : Observer;
  is_running : bool;
  usb_thread : bool;                (* [None], or the started simulation thread *)
  usb_detected : bool
}.

Record World := {
  flavour : PathFlavour;            (* which [os.path] the platform provides *)
  fs : string -> File;
  watch_error : option string;      (* why the OS watch subsystem cannot start, if so *)
  logger : Logger;                  (* the "file_monitor" logger *)
  self : FileMonitor
}.

(** The exceptions met, each with its [str(e)]. *)
Inductive Exception := OSError (msg : string) | RuntimeError (msg : string).

Definition str_of_exception (e : Exception) : string :=
  match e with OSError msg => msg | RuntimeError msg => msg end.

Inductive Outcome (A : Type) :=
| Returns (a : A)
| Raises (e : Exception).
Arguments Returns {A} a.
Arguments Raises {A} e.

(** A method body: it runs in a world, returns or raises, and leaves a
    world behind (what was logged or assigned before a [raise] stays). *)
Definition Method (A : Type) : Type := World -> Outcome A * World.

Definition ret {A} (a : A) : Method A := fun w => (Returns a, w).
Definition raise {A} (e : Exception) : Method A := fun w => (Raises e, w).
Definition bind {A B} (m : Method A) (k : A -> Method B) : Method B :=
  fun w => match m w with
           | (Returns a, w') => k a w'
           | (Raises e, w') => (Raises e, w')
           end.
(** [try: body  except Exception as e: handler(e)] *)
Definition try_except {A} (body : Method A) (handler : Exception -> Method A)
  : Method A :=
  fun w => match body w with
           | (Returns a, w') => (Returns a, w')
           | (Raises e, w') => handler e w'
           end.

Declare Scope py_scope.
Delimit Scope py_scope with py.
Notation "x <- m ;; k" := (bind m (fun x => k))
  (at level 61, m at next level, right associativity) : py_scope.
Notation "m ;; k" := (bind m (fun _ => k))
  (at level 61, right associativity) : py_scope.
Open Scope py_scope.

Definition get_self : Method FileMonitor := fun w => (Returns (self w), w).
Definition set_self (f : FileMonitor -> FileMonitor) : Method unit :=
  fun w => (Returns tt,
            {| flavour := flavour w; fs := fs w;
               watch_error := watch_error w; logger := logger w;
               self := f (self w) |}).
Definition with_logger (f : Logger -> Logger) : Method unit :=
  fun w => (Returns tt,
            {| flavour := flavour w; fs := fs w;
               watch_error := watch_error w; logger := f (logger w);
               self := self w |}).

Definition logger_info (msg : string) : Method unit :=
  with_logger (fun l => info l msg).
Definition logger_warning (msg : string) : Method unit :=
  with_logger (fun l => warning l msg).
Definition logger_error (msg : string) : Method unit :=
  with_logger (fun l => error l msg).

(** [os.path.exists(path)] *)
Definition path_exists (path : string) : Method bool :=
  fun w => (Returns (match fs w path with Missing => false | _ => true end), w).

(** [open(path, 'r', encoding='utf-8', errors='ignore')] and the
    iteration over the file: the lines, or [OSError]. *)
Definition read_lines (path : string) : Method (list string) :=
  fun w => match fs w path with
           | Content text => (Returns (readlines text), w)
           | Unreadable why => (Raises (OSError why), w)
           | Missing => (Raises (OSError "No such file or directory"), w)
           end.

(** [for x in xs: body(x)] *)
Fixpoint for_each {A} (xs : list A) (body : A -> Method unit) : Method unit :=
  match xs with
  | [] => ret tt
  | x :: xs' => body x ;; for_each xs' body
  end.

(** ** [watchdog.observers.Observer] *)

Definition set_observer (o : Observer) (m : FileMonitor) : FileMonitor :=
  {| paths_to_monitor := paths_to_monitor m;
     sensitive_keywords := sensitive_keywords m;
     keywords_pattern := keywords_pattern m;
     observer := o;
     is_running := is_running m;
     usb_thread := usb_thread m;
     usb_detected := usb_detected m |}.

Definition set_is_running (b : bool) (m : FileMonitor) : FileMonitor :=
  {| paths_to_monitor := paths_to_monitor m;
     sensitive_keywords := sensitive_keywords m;
     keywords_pattern := keywords_pattern m;
     observer := observer m;
     is_running := b;
     usb_thread := usb_thread m;
     usb_detected := usb_detected m |}.

Definition set_usb_thread (b : bool) (m : FileMonitor) : FileMonitor :=
  {| paths_to_monitor := paths_to_monitor m;
     sensitive_keywords := sensitive_keywords m;
     keywords_pattern := keywords_pattern m;
     observer := observer m;
     is_running := is_running m;
     usb_thread := b;
     usb_detected := usb_detected m |}.

(** The simulation thread's assignments to [self.usb_detected]. *)
Definition set_usb_detected (b : bool) (m : FileMonitor) : FileMonitor :=
  {| paths_to_monitor := paths_to_monitor m;
     sensitive_keywords := sensitive_keywords m;
     keywords_pattern := keywords_pattern m;
     observer := observer m;
     is_running := is_running m;
     usb_thread := usb_thread m;
     usb_detected := b |}.

(** [self.observer.schedule(self.event_handler, path, recursive=True)] *)
Definition observer_schedule (path : string) : Method unit :=
  set_self (fun m =>
    set_observer {| watches := (watches (observer m) ++ [path])%list;
                    started := started (observer m);
                    stopped := stopped (observer m) |} m).

(** [self.observer.start()]: a thread starts once only, and starting
    fails when the OS watch subsystem cannot be initialised. *)
Definition observer_start : Method unit :=
  fun w =>
    if started (observer (self w)) then
      (Raises (RuntimeError "threads can only be started once"), w)
    else
      match watch_error w with
      | Some why => (Raises (OSError why), w)
      | None =>
        set_self (fun m =>
           set_observer {| watches := watches (observer m);
                           started := true;
                           stopped := stopped (observer m) |} m) w
      end.

(** [self.observer.stop()] *)
Definition observer_stop : Method unit :=
  set_self (fun m =>
    set_observer {| watches := watches (observer m);
                    started := started (observer m);
                    stopped := true |} m).

(** [self.observer.join()]: joining a thread that was never started
    raises. *)
Definition observer_join : Method unit :=
  fun w =>
    if started (observer (self w)) then (Returns tt, w)
    else (Raises (RuntimeError "cannot join thread before it is started"), w).

(** ** [FileMonitor] *)

Definition default_keywords : list string :=
  [ "password"; "confidential"; "secret"; "private"; "bank"; "credit card";
    "ssn"; "social security"; "account"; "classified"; "restricted" ].

(** [x or default] on an optional list: [None] and [[]] are falsy. *)
Definition or_default {A} (x : option (list A)) (d : list A) : list A :=
  match x with
  | Some (a :: l) => a :: l
  | _ => d
  end.

(** [FileMonitor.__init__]: the attributes of the new [self]. (Its three
    [logger.info] lines print Python list representations and are left
    out; nothing below reads them.) *)
Definition init (cwd : string)
  (paths_to_monitor sensitive_keywords : option (list string))
  : FileMonitor :=
  let kws := or_default sensitive_keywords default_keywords in
  {| paths_to_monitor := or_default paths_to_monitor [cwd];
     sensitive_keywords := kws;
     keywords_pattern := kws;
     observer := {| watches := []; started := false; stopped := false |};
     is_running := false;
     usb_thread := false;
     usb_detected := false |}.

(** The three lines that make the simulation thread and start it:
    [threading.Thread.start] raises [RuntimeError] when the system
    cannot start a new thread; [thread_error] tells why, if so. *)
Definition usb_thread_start (thread_error : option string) : Method unit :=
  match thread_error with
  | Some why => raise (RuntimeError why)
  | None => set_self (set_usb_thread true)
  end.

(** [start_monitoring()], where [thread_error] tells why the simulation
    thread cannot be started, if so. *)
Definition start_monitoring_when (thread_error : option string)
  : Method unit :=
  m <- get_self ;;
  if is_running m then
    logger_warning "File monitoring already running"
  else
    logger_info "Starting file monitoring" ;;
    try_except
      (for_each (paths_to_monitor m) (fun path =>
         e <- path_exists path ;;
         if e then
           observer_schedule path ;;
           logger_info ("Monitoring path: " ++ path)
         else
           logger_warning ("Path does not exist: " ++ path)) ;;
       observer_start ;;
       set_self (set_is_running true) ;;
       usb_thread_start thread_error ;;
       logger_info "File monitoring started successfully")
      (fun e =>
         logger_error ("Error starting file monitoring: " ++ str_of_exception e) ;;
         raise e).

(** [start_monitoring()] where the simulation thread can be started. *)
Definition start_monitoring : Method unit := start_monitoring_when None.

Definition stop_monitoring : Method unit :=
  m <- get_self ;;
  if negb (is_running m) then
    logger_warning "File monitoring not running"
  else
    logger_info "Stopping file monitoring" ;;
    try_except
      (observer_stop ;;
       observer_join ;;
       set_self (set_is_running false) ;;
       logger_info "File monitoring stopped successfully")
      (fun e =>
         logger_error ("Error stopping file monitoring: " ++ str_of_exception e) ;;
         raise e).

Definition text_extensions : list string :=
  [ ".txt"; ".py"; ".js"; ".html"; ".csv"; ".json"; ".xml"; ".md"; ".log";
    ".ini"; ".cfg"; ".conf" ].

Definition _is_text_file (fl : PathFlavour) (file_path : string) : bool :=
  let '(_, ext) := splitext fl file_path in
  in_list (lower ext) text_extensions.

(** The dictionaries appended to [matches]. *)
Record KeywordMatch := { keyword : string; line : nat; context : string }.

(** The two nested [for] loops of [check_file_for_sensitive_data] over
    the lines read. *)
Definition line_matches (pattern : list string) (numbered : nat * string)
  : list KeywordMatch :=
  let '(line_num, line) := numbered in
  map (fun m => {| keyword := snd m; line := line_num; context := strip line |})
      (finditer pattern line).

Definition scan_lines (pattern : list string) (lines : list string)
  : list KeywordMatch :=
  flat_map (line_matches pattern) (enumerate lines 1).

Definition check_file_for_sensitive_data (file_path : string)
  : Method (bool * list KeywordMatch) :=
  e <- path_exists file_path ;;
  if negb e then
    logger_warning ("File does not exist: " ++ file_path) ;;
    ret (false, [])
  else
    fl <- (fun w => (Returns (flavour w), w)) ;;
    if negb (_is_text_file fl file_path) then
      ret (false, [])
    else
      try_except
        (m <- get_self ;;
         lines <- read_lines file_path ;;
         let matches := scan_lines (keywords_pattern m) lines in
         match matches with
         | _ :: _ =>
             logger_warning ("Sensitive data found in file: " ++ file_path) ;;
             for_each matches (fun mt =>
               logger_warning ("  Keyword: " ++ keyword mt ++ " at line "
                               ++ str_of_nat (line mt))) ;;
             ret (true, matches)
         | [] => ret (false, [])
         end)
        (fun e =>
           logger_error ("Error checking file for sensitive data: "
                         ++ str_of_exception e) ;;
           ret (false, [])).

(** The dictionary [handle_file_access] returns. *)
Record Decision := { action : string; reason : string; alert_level : string }.

Definition block_exfiltration : Decision :=
  {| action := "block";
     reason := "Potential data exfiltration detected";
     alert_level := "high" |}.

Definition block_email : Decision :=
  {| action := "block";
     reason := "Potential email data leak detected";
     alert_level := "high" |}.

Definition allow : Decision :=
  {| action := "allow"; reason := "No threat detected"; alert_level := "low" |}.

Definition log_alert_ (level msg : string) : Method unit :=
  with_logger (fun l => log_alert l level msg).
Definition log_activity_ (ty details : string) : Method unit :=
  with_logger (fun l => log_activity l ty details).

(** The first [if] of [handle_file_access]; [Some d] stands for its
    [return d], [None] for falling through to the e-mail test.
    [self.usb_detected] is read twice, for the alert level and for the
    block, as in the source. *)
Definition exfiltration_check (file_path access_type : string)
  : Method (option Decision) :=
  if in_list access_type ["created"; "modified"] then
    r <- check_file_for_sensitive_data file_path ;;
    if fst r then
      m <- get_self ;;
      let level := if usb_detected m then "high" else "medium" in
      let alert_msg := "Sensitive data found in file: " ++ file_path in
      log_alert_ level alert_msg ;;
      m' <- get_self ;;
      if usb_detected m' then
        logger_error "ALERT: Potential data exfiltration detected! File with sensitive data accessed while USB connected." ;;
        ret (Some block_exfiltration)
      else ret None
    else ret None
  else ret None.

Definition handle_file_access (file_path access_type : string) : Method Decision :=
  logger_info ("File " ++ access_type ++ ": " ++ file_path) ;;
  log_activity_ access_type file_path ;;
  early <- exfiltration_check file_path access_type ;;
  match early with
  | Some d => ret d
  | None =>
      if str_in ".eml" (lower file_path) || str_in "email" (lower file_path)
      then
        r <- check_file_for_sensitive_data file_path ;;
        if fst r then
          let alert_msg := "Potential email data leak detected: " ++ file_path in
          log_alert_ "high" alert_msg ;;
          logger_error ("ALERT: " ++ alert_msg) ;;
          ret block_email
        else ret allow
      else ret allow
  end.

(** ** [FileEventHandler] *)

(** A [watchdog] event: [dest_path] is meaningful for moves. *)
Record FileSystemEvent := {
  is_directory : bool;
  src_path : string;
  dest_path : string
}.

Definition on_created (event : FileSystemEvent) : Method unit :=
  if negb (is_directory event) then
    handle_file_access (src_path event) "created" ;; ret tt
  else ret tt.

Definition on_modified (event : FileSystemEvent) : Method unit :=
  if negb (is_directory event) then
    handle_file_access (src_path event) "modified" ;; ret tt
  else ret tt.

Definition on_moved (event : FileSystemEvent) : Method unit :=
  if negb (is_directory event) then
    handle_file_access (src_path event) "moved from" ;;
    handle_file_access (dest_path event) "moved to" ;;
    ret tt
  else ret tt.

Definition on_deleted (event : FileSystemEvent) : Method unit :=
  if negb (is_directory event) then
    handle_file_access (src_path event) "deleted" ;; ret tt
  else ret tt.

End Monitor.

(* ===================================================================== *)
(** * [process_queue] of [src/gui/dashboard.py]                           *)
(* ===================================================================== *)

Module Dashboard.
Import Py Utils.

(** A queued log: a dictionary with string keys and values. *)
Definition Log := list (string * string).

(** [log[key]]: the value, or [KeyError]. *)
Fixpoint dict_get (log : Log) (key : string) : option string :=
  match log with
  | [] => None
  | (k, v) :: log' => if String.eqb k key then Some v else dict_get log' key
  end.

(** The entries of [st.session_state] that [process_queue] touches, and
    the "dashboard" logger. *)
Record SessionState := {
  log_queue : list Log;    (* the queue, next item first *)
  file_logs : list Log;
  alerts : list Log;
  logger : Logger
}.

(** [xs.append(x)] followed by [if len(xs) > 100: xs.pop(0)]. *)
Definition append_bounded (xs : list Log) (x : Log) : list Log :=
  let xs' := (xs ++ [x])%list in
  if (100 <? List.length xs')%nat then tl xs' else xs'.

(** The [while not log_queue.empty()] loop inside the [try]; a log
    without a ['type'] key raises [KeyError], which the [except] clause
    logs, the loop being left with the rest of the queue in place. *)
Fixpoint process_queue_loop (queue : list Log) (file_logs alerts : list Log)
  (logger : Logger) : SessionState :=
  match queue with
  | [] => {| log_queue := []; file_logs := file_logs; alerts := alerts;
             logger := logger |}
  | log :: queue' =>
      match dict_get log "type" with
      | None =>
          {| log_queue := queue'; file_logs := file_logs; alerts := alerts;
             logger := error logger "Error processing log queue: 'type'" |}
      | Some ty =>
          if String.eqb ty "file_access" then
            process_queue_loop queue' (append_bounded file_logs log) alerts
                               logger
          else if String.eqb ty "alert" then
            process_queue_loop queue' file_logs (append_bounded alerts log)
                               logger
          else
            process_queue_loop queue' file_logs alerts logger
      end
  end.

Definition process_queue (st : SessionState) : SessionState :=
  process_queue_loop (log_queue st) (file_logs st) (alerts st) (logger st).

(** The session state at start-up. *)
Definition initial_state : SessionState :=
  {| log_queue := []; file_logs := []; alerts := []; logger := [] |}.

(** [log_queue.put(log)], called by the capture thread. *)
Definition put (log : Log) (st : SessionState) : SessionState :=
  {| log_queue := (log_queue st ++ [log])%list; file_logs := file_logs st;
     alerts := alerts st; logger := logger st |}.

(** The session states the dashboard can be in: it starts empty, the
    capture thread queues logs, and every rerun drains the queue. *)
Inductive Reachable : SessionState -> Prop :=
| reach_initial : Reachable initial_state
| reach_put (log : Log) (st : SessionState) :
    Reachable st -> Reachable (put log st)
| reach_process_queue (st : SessionState) :
    Reachable st -> Reachable (process_queue st).

End Dashboard.

(* ===================================================================== *)
(** * Notions the properties are stated with                              *)
(* ===================================================================== *)

Module Spec.
Import Py Re Utils Monitor.

(** ** Occurrences of keywords, in the words of the specification *)

(** Keyword [k] occurs in [s] at index [p], case-insensitively. *)
Definition occurs_at (k s : string) (p : nat) : bool :=
  (p + String.length k <=? String.length s)%nat
  && String.eqb (lower (String.substring p (String.length k) s)) (lower k).

(** Every occurrence of every keyword of [K] in [s]: the index and the
    text found there, by index, then in the order of [K]. *)
Definition occurrences (K : list string) (s : string) : list (nat * string) :=
  flat_map
    (fun p =>
       flat_map
         (fun k =>
            if occurs_at k s p
            then [(p, String.substring p (String.length k) s)] else [])
         K)
    (seq 0 (S (String.length s))).

(** One match per occurrence of each keyword, line by line: what the
    keyword scan returns according to the specification. *)
Definition one_match_per_occurrence (K : list string) (content : string)
  : list KeywordMatch :=
  flat_map
    (fun numbered : nat * string =>
       map (fun o => {| keyword := snd o; line := fst numbered;
                        context := strip (snd numbered) |})
           (occurrences K (snd numbered)))
    (enumerate (readlines content) 1).

(** The keyword scan of the code on a file's content. *)
Definition scan (K : list string) (content : string) : list KeywordMatch :=
  scan_lines K (readlines content).

(** No two of the occurrences listed share a character or an index:
    each ends before the next begins. *)
Fixpoint no_overlap (l : list (nat * string)) : bool :=
  match l with
  | [] => true
  | o :: l' =>
      forallb (fun q => (fst o + String.length (snd o) <=? fst q)%nat) l'
      && no_overlap l'
  end.

(** The occurrences a left-to-right scan keeps: an occurrence is kept
    when it starts at or after [free], the end of the last one kept;
    the others, which overlap a kept one or share its index, are
    dropped. *)
Fixpoint select (free : nat) (l : list (nat * string)) : list (nat * string) :=
  match l with
  | [] => []
  | o :: l' =>
      if (free <=? fst o)%nat
      then o :: select (fst o + String.length (snd o)) l'
      else select free l'
  end.

(** One match per occurrence kept, line by line. *)
Definition one_match_per_kept_occurrence (K : list string) (content : string)
  : list KeywordMatch :=
  flat_map
    (fun numbered : nat * string =>
       map (fun o => {| keyword := snd o; line := fst numbered;
                        context := strip (snd numbered) |})
           (select 0 (occurrences K (snd numbered))))
    (enumerate (readlines content) 1).

(** Some line of the content holds an occurrence of a keyword. *)
Definition content_has_keyword (K : list string) (content : string) : bool :=
  existsb (fun l => negb (Nat.eqb (List.length (occurrences K l)) 0))
          (readlines content).

(** The same occurrences computed along the text: those of the
    alternatives of [K] at the head of [s], which stands at index [pos],
    then those further on. *)
Definition occurrences_here (K : list string) (s : string) (pos : nat)
  : list (nat * string) :=
  flat_map (fun k => match match_literal k s with
                     | Some m => [(pos, m)]
                     | None => []
                     end) K.

Fixpoint occurrences_from (K : list string) (s : string) (pos : nat)
  : list (nat * string) :=
  (occurrences_here K s pos ++
   match s with
   | EmptyString => []
   | String _ s' => occurrences_from K s' (S pos)
   end)%list.

(** An occurrence moved [n] indices to the right. *)
Definition shift (n : nat) (o : nat * string) : nat * string :=
  (n + fst o, snd o).

(** Keyword [k] occurs somewhere in [s], case-insensitively. *)
Definition occurs_in (k s : string) : bool :=
  existsb (occurs_at k s) (seq 0 (S (String.length s))).

Definition is_linebreak (c : ascii) : bool := Ascii.eqb c CR || Ascii.eqb c LF.

(** ** Paths *)

Definition is_chr (c : ascii) : ascii -> bool := fun x => Ascii.eqb x c.

(** [sepIndex] of [_splitext]. *)
Definition sep_index (fl : PathFlavour) (p : string) : Z :=
  match altsep fl with
  | Some a => Z.max (rfind (sep fl) p) (rfind a p)
  | None => rfind (sep fl) p
  end.

(** The e-mail test of [handle_file_access]. *)
Definition email_name (file_path : string) : bool :=
  str_in ".eml" (lower file_path) || str_in "email" (lower file_path).

(** The allow-list of the specification, without the dots. *)
Definition scannable_extensions : list string :=
  [ "txt"; "py"; "js"; "html"; "csv"; "json"; "xml"; "md"; "log"; "ini";
    "cfg"; "conf" ].

(** [c] occurs in [s], for the characters [f] holds of. *)
Fixpoint has_chr (f : ascii -> bool) (s : string) : bool :=
  match s with
  | EmptyString => false
  | String a s' => f a || has_chr f s'
  end.

Definition is_sep (fl : PathFlavour) (c : ascii) : bool :=
  Ascii.eqb c (sep fl)
  || match altsep fl with Some a => Ascii.eqb c a | None => false end.

(** [p] is [stem ++ "." ++ e] where [e] is free of dots and separators
    and the last component of [stem] holds a character other than a
    dot: [e] is the extension of [p]. *)
Definition has_extension (fl : PathFlavour) (p e : string) : Prop :=
  exists a c b,
    p = a ++ String c b ++ String extsep e
    /\ c <> extsep
    /\ has_chr (is_sep fl) (String c b) = false
    /\ has_chr (fun x => Ascii.eqb x extsep || is_sep fl x) e = false.

(** ** Log records *)

(** The world after its logger handled the records [rs]. *)
Definition add_logs (rs : list LogRecord) (w : World) : World :=
  {| flavour := flavour w; fs := fs w; watch_error := watch_error w;
     logger := (logger w ++ rs)%list; self := self w |}.

(** The record [log_alert] emits for a level and a message. *)
Definition alert_record (alert_level msg : string) : LogRecord :=
  match log_alert [] alert_level msg with
  | r :: _ => r
  | [] => {| levelname := WARNING; message := msg |}
  end.

(** The record [log_activity] emits. *)
Definition activity_record (activity_type details : string) : LogRecord :=
  {| levelname := INFO;
     message := "ACTIVITY: " ++ activity_type ++ " - " ++ details |}.

(** A record is an alert, or an activity entry, by its first word. *)
Definition is_alert (r : LogRecord) : bool := String.prefix "ALERT" (message r).
Definition is_activity (r : LogRecord) : bool :=
  String.prefix "ACTIVITY: " (message r).

(** The warning logged for each match found. *)
Definition keyword_warning (mt : KeywordMatch) : LogRecord :=
  {| levelname := WARNING;
     message := "  Keyword: " ++ keyword mt ++ " at line "
                ++ str_of_nat (line mt) |}.

(** What [check_file_for_sensitive_data] logs when it finds [matches]. *)
Definition found_logs (file_path : string) (matches : list KeywordMatch)
  : list LogRecord :=
  {| levelname := WARNING;
     message := "Sensitive data found in file: " ++ file_path |}
  :: map keyword_warning matches.

(** ** What a call returns and logs, as functions of the world *)

Definition created_or_modified (access_type : string) : bool :=
  in_list access_type ["created"; "modified"].

(** The pair [check_file_for_sensitive_data] returns. *)
Definition check_result (w : World) (file_path : string)
  : bool * list KeywordMatch :=
  match fs w file_path with
  | Content text =>
      if _is_text_file (flavour w) file_path then
        match scan (keywords_pattern (self w)) text with
        | [] => (false, [])
        | matches => (true, matches)
        end
      else (false, [])
  | _ => (false, [])
  end.

(** The records it logs. *)
Definition check_logs (w : World) (file_path : string) : list LogRecord :=
  match fs w file_path with
  | Missing =>
      [ {| levelname := WARNING;
           message := "File does not exist: " ++ file_path |} ]
  | Unreadable why =>
      if _is_text_file (flavour w) file_path then
        [ {| levelname := ERROR;
             message := "Error checking file for sensitive data: " ++ why |} ]
      else []
  | Content text =>
      if _is_text_file (flavour w) file_path then
        match scan (keywords_pattern (self w)) text with
        | [] => []
        | matches => found_logs file_path matches
        end
      else []
  end.

Definition exfiltration_message : string :=
  "ALERT: Potential data exfiltration detected! File with sensitive data accessed while USB connected.".

(** The decision [handle_file_access] returns. *)
Definition decision_of (w : World) (file_path access_type : string)
  : Decision :=
  let sensitive := fst (check_result w file_path) in
  if created_or_modified access_type && sensitive && usb_detected (self w)
  then block_exfiltration
  else if email_name file_path && sensitive then block_email
  else allow.

(** The records logged by its first [if] ... *)
Definition exfiltration_logs (w : World) (file_path access_type : string)
  : list LogRecord :=
  if created_or_modified access_type then
    (check_logs w file_path ++
     if fst (check_result w file_path) then
       alert_record (if usb_detected (self w) then "high" else "medium")
                    ("Sensitive data found in file: " ++ file_path)
       :: (if usb_detected (self w)
           then [ {| levelname := ERROR; message := exfiltration_message |} ]
           else [])
     else [])%list
  else [].

(** ... and by its e-mail test, when that is reached. *)
Definition email_logs (w : World) (file_path access_type : string)
  : list LogRecord :=
  if created_or_modified access_type
     && fst (check_result w file_path) && usb_detected (self w)
  then []
  else if email_name file_path then
    (check_logs w file_path ++
     if fst (check_result w file_path) then
       [ alert_record "high"
           ("Potential email data leak detected: " ++ file_path);
         {| levelname := ERROR;
            message := "ALERT: Potential email data leak detected: "
                       ++ file_path |} ]
     else [])%list
  else [].

(** All the records [handle_file_access] logs. *)
Definition logs_of (w : World) (file_path access_type : string)
  : list LogRecord :=
  ({| levelname := INFO;
      message := "File " ++ access_type ++ ": " ++ file_path |}
   :: activity_record access_type file_path
   :: exfiltration_logs w file_path access_type
   ++ email_logs w file_path access_type)%list.

End Spec.

(* ===================================================================== *)
(** * Sample worlds                                                       *)
(* ===================================================================== *)

Module Examples.
Import Py Re Utils Monitor Spec.

(** A monitor with the default configuration, running, with the
    removable-media flag as given. *)
Definition monitor (usb : bool) : FileMonitor :=
  set_usb_detected usb (set_is_running true (init "/home/user" None None)).

Definition files (p : string) : File :=
  if String.eqb p "notes.txt" then Content "this is confidential"
  else if String.eqb p "leak.eml" then Content "my password"
  else if String.eqb p "email_draft.txt" then
    Content ("Dear all," ++ String LF "Bank account: 1234567890")
  else if String.eqb p "locked.txt" then
    Unreadable "[Errno 13] Permission denied: 'locked.txt'"
  else Missing.

Definition world (usb : bool) : World :=
  {| flavour := posixpath; fs := files; watch_error := None; logger := [];
     self := monitor usb |}.

(** The same world before [start_monitoring]. *)
Definition idle_world : World :=
  {| flavour := posixpath; fs := files; watch_error := None; logger := [];
     self := init "/home/user" None None |}.

Definition sample_alert (n : nat) : Dashboard.Log :=
  [ ("timestamp", str_of_nat n); ("type", "alert"); ("level", "high");
    ("message", "Sensitive data accessed") ].

Definition sample_access (n : nat) : Dashboard.Log :=
  [ ("timestamp", str_of_nat n); ("type", "file_access");
    ("action", "created"); ("path", "/documents/report.txt") ].

(** A session whose two sequences are full, with one alert queued. *)
Definition full_session : Dashboard.SessionState :=
  {| Dashboard.log_queue := [sample_alert 100];
     Dashboard.file_logs := map sample_access (seq 0 100);
     Dashboard.alerts := map sample_alert (seq 0 100);
     Dashboard.logger := [] |}.

End Examples.

(* ===================================================================== *)
(** * The life of a monitor                                               *)
(* ===================================================================== *)

Module Lifecycle.
Import Py Re Utils Monitor Spec.

(** [os.path.exists(path)] in a world. *)
Definition exists_in (w : World) (path : string) : bool :=
  match fs w path with Missing => false | _ => true end.

(** What the loop of [start_monitoring] logs for one configured path. *)
Definition schedule_log (w : World) (path : string) : LogRecord :=
  if exists_in w path
  then {| levelname := INFO; message := "Monitoring path: " ++ path |}
  else {| levelname := WARNING; message := "Path does not exist: " ++ path |}.

(** The world after that loop ran over [paths]: the paths that exist are
    scheduled on the observer, in order, and every path is logged. *)
Definition after_schedule (w : World) (paths : list string) : World :=
  {| flavour := flavour w; fs := fs w; watch_error := watch_error w;
     logger := (logger w ++ map (schedule_log w) paths)%list;
     self :=
       set_observer
         {| watches := (watches (observer (self w))
                        ++ filter (exists_in w) paths)%list;
            started := started (observer (self w));
            stopped := stopped (observer (self w)) |}
         (self w) |}.

(** The world with its monitor replaced. *)
Definition with_self (m : FileMonitor) (w : World) : World :=
  {| flavour := flavour w; fs := fs w; watch_error := watch_error w;
     logger := logger w; self := m |}.

(** The world after the environment changed the files or the state of
    the watch subsystem. *)
Definition with_environment (files : string -> File)
  (error : option string) (w : World) : World :=
  {| flavour := flavour w; fs := files; watch_error := error;
     logger := logger w; self := self w |}.

(** The worlds a monitor lives through: it is constructed by
    [__init__]; then [start_monitoring], [stop_monitoring] and
    [handle_file_access] are called in any order, whatever they return
    or raise and whether or not the simulation thread can be started,
    while the simulation thread assigns [usb_detected] and the files
    change. *)
Inductive Reachable : World -> Prop :=
| reach_init (w : World) (cwd : string)
    (paths keywords : option (list string)) :
    self w = init cwd paths keywords -> Reachable w
| reach_start (thread_error : option string) (w : World) :
    Reachable w -> Reachable (snd (start_monitoring_when thread_error w))
| reach_stop (w : World) :
    Reachable w -> Reachable (snd (stop_monitoring w))
| reach_handle (w : World) (file_path access_type : string) :
    Reachable w -> Reachable (snd (handle_file_access file_path access_type w))
| reach_usb (w : World) (b : bool) :
    Reachable w -> Reachable (with_self (set_usb_detected b (self w)) w)
| reach_environment (w : World) (files : string -> File)
    (error : option string) :
    Reachable w -> Reachable (with_environment files error w).

(** [s.endswith(suffix)] *)
Definition endswith (s suffix : string) : bool :=
  let n := String.length s in
  let m := String.length suffix in
  (m <=? n)%nat && String.eqb (String.substring (n - m) m s) suffix.

(** The records of the "file_monitor" logger are also appended, by the
    file handler of the logger, to [logs/file_monitor.log]. That file is
    not among [fs], which logging leaves as it is: what is said of a
    path holds of the paths that do not name it. A path can name it
    only when it ends, in some casing, with the name of that file. *)
Definition names_log_file (file_path : string) : bool :=
  endswith (lower file_path) "file_monitor.log".

(** The file at [file_path] is one the scan reports: it can be read, its
    extension is scannable and a line of it holds a keyword. *)
Definition sensitive (w : World) (file_path : string) : bool :=
  match fs w file_path with
  | Content text =>
      _is_text_file (flavour w) file_path
      && content_has_keyword (keywords_pattern (self w)) text
  | _ => false
  end.

End Lifecycle.

(* ===================================================================== *)
(** * The queue of the dashboard, in general                              *)
(* ===================================================================== *)

Module Queue.
Import Py Utils Dashboard.

(** The log carries the key ['type'] ... *)
Definition typed (log : Log) : bool :=
  match dict_get log "type" with Some _ => true | None => false end.

(** ... with the value [ty]. *)
Definition has_type (ty : string) (log : Log) : bool :=
  match dict_get log "type" with
  | Some t => String.eqb t ty
  | None => false
  end.

(** The last [n] entries of a sequence, in order. *)
Definition lastn {A : Type} (n : nat) (l : list A) : list A :=
  skipn (List.length l - n) l.

(** What happens to a session: the capture thread queues a log, or the
    script reruns and calls [process_queue]. *)
Inductive Action :=
| Put (log : Log)
| Rerun.

Definition act (st : SessionState) (a : Action) : SessionState :=
  match a with
  | Put log => put log st
  | Rerun => process_queue st
  end.

(** The session after a history of actions, from start-up. *)
Definition run (history : list Action) : SessionState :=
  fold_left act history initial_state.

(** The logs a history queued, in order. *)
Definition queued (history : list Action) : list Log :=
  flat_map (fun a => match a with Put log => [log] | Rerun => [] end) history.

End Queue.

(* ===================================================================== *)
(** * [timestamp] of [src/utils.py]                                       *)
(* ===================================================================== *)

Module Clock.
Import Py.

(** What [datetime.now()] returns, without the microseconds that
    [timestamp] does not print. *)
Record DateTime := {
  year : nat; month : nat; day : nat;
  hour : nat; minute : nat; second : nat
}.

(** The fields [datetime] accepts; the last year is 9999. *)
Definition valid (d : DateTime) : Prop :=
  1 <= year d < 100 * 100 /\ 1 <= month d <= 12 /\ 1 <= day d <= 31
  /\ hour d <= 23 /\ minute d <= 59 /\ second d <= 59.

(** A number printed on two digits at least, as [%m], [%d], [%H], [%M]
    and [%S] print it. *)
Definition pad2 (n : nat) : string :=
  if (n <? 10)%nat then "0" ++ str_of_nat n else str_of_nat n.

(** [d.strftime("%Y-%m-%d %H:%M:%S")]; [%Y] prints the year as it is,
    without padding (the C library of Linux). *)
Definition strftime (d : DateTime) : string :=
  str_of_nat (year d) ++ "-" ++ pad2 (month d) ++ "-" ++ pad2 (day d)
  ++ " " ++ pad2 (hour d) ++ ":" ++ pad2 (minute d) ++ ":" ++ pad2 (second d).

(** [timestamp()], called when the clock shows [now]. *)
Definition timestamp (now : DateTime) : string := strftime now.

(** Which of two lists of numbers comes first, entry by entry. *)
Fixpoint compare_fields (a b : list nat) : comparison :=
  match a, b with
  | [], [] => Eq
  | [], _ :: _ => Lt
  | _ :: _, [] => Gt
  | x :: a', y :: b' =>
      match Nat.compare x y with
      | Eq => compare_fields a' b'
      | c => c
      end
  end.

(** Which of two dates comes first. *)
Definition chronological (a b : DateTime) : comparison :=
  compare_fields
    [year a; month a; day a; hour a; minute a; second a]
    [year b; month b; day b; hour b; minute b; second b].

Definition comparison_eqb (a b : comparison) : bool :=
  match a, b with
  | Eq, Eq | Lt, Lt | Gt, Gt => true
  | _, _ => false
  end.

(** The two characters of a number below 100. *)
Definition tens_chr (n : nat) : ascii := ascii_of_nat (48 + n / 10).
Definition units_chr (n : nat) : ascii := ascii_of_nat (48 + n mod 10).

End Clock.

(* ===================================================================== *)
(** * [log_capture_worker] of [src/gui/dashboard.py]                      *)
(* ===================================================================== *)

Module Worker.
Import Py Utils Dashboard Clock Queue.

(** ** The [random] module

    [random.random()] returns [k / 2^53] for an integer [0 <= k < 2^53];
    a draw is given by its [k]. The literals the code compares a draw
    with are the doubles 0.05 = 3602879701896397 / 2^56,
    0.1 = 3602879701896397 / 2^55, 0.15 = 5404319552844595 / 2^55 and
    0.3 = 5404319552844595 / 2^54. *)
Definition below_0_05 (k : N) : bool := (8 * k <? 3602879701896397)%N.
Definition below_0_1 (k : N) : bool := (4 * k <? 3602879701896397)%N.
Definition below_0_15 (k : N) : bool := (4 * k <? 5404319552844595)%N.
Definition below_0_3 (k : N) : bool := (2 * k <? 5404319552844595)%N.

(** [random.choice(seq)]: the entry at the index drawn. The draw is any
    number, brought into the range of the indices. *)
Definition choice (seq : list string) (draw : nat) : string :=
  nth (draw mod List.length seq) seq "".

(** [random.randint(a, b)], both ends included, from a draw likewise. *)
Definition randint (a b : nat) (draw : nat) : nat :=
  a + draw mod (b - a + 1).

Definition file_types : list string :=
  [ ".docx"; ".xlsx"; ".pdf"; ".txt"; ".jpg"; ".py" ].
Definition file_paths : list string :=
  [ "/documents/report"; "/downloads/data"; "/desktop/project";
    "/pictures/image"; "/confidential/secret" ].
Definition action_types : list string :=
  [ "created"; "accessed"; "modified"; "deleted" ].
Definition alert_levels : list string := [ "low"; "medium"; "high" ].
Definition alert_messages : list string :=
  [ "Suspicious file access detected"; "Multiple login attempts";
    "Sensitive data accessed"; "USB device connected";
    "Large file transfer detected"; "Email with sensitive content detected" ].

(** What one turn of the worker's loop draws, and the clock at the two
    calls of [timestamp]. *)
Record Draws := {
  file_draw : N; path_draw : nat; type_draw : nat; action_draw : nat;
  file_clock : DateTime;
  alert_draw : N; level_draw : nat; message_draw : nat;
  alert_clock : DateTime
}.

(** One turn of [while True] in [log_capture_worker], after its
    [time.sleep(1)]. *)
Definition worker_turn (d : Draws) (st : SessionState) : SessionState :=
  let st1 :=
    if below_0_1 (file_draw d) then
      let file_path :=
        choice file_paths (path_draw d) ++ choice file_types (type_draw d) in
      let action := choice action_types (action_draw d) in
      put [ ("timestamp", timestamp (file_clock d)); ("type", "file_access");
            ("action", action); ("path", file_path) ] st
    else st in
  if below_0_05 (alert_draw d) then
    let level := choice alert_levels (level_draw d) in
    let message := choice alert_messages (message_draw d) in
    put [ ("timestamp", timestamp (alert_clock d)); ("type", "alert");
          ("level", level); ("message", message) ] st1
  else st1.

(** The session states of a dashboard fed by the worker. *)
Inductive Fed : SessionState -> Prop :=
| fed_initial : Fed initial_state
| fed_worker_turn (d : Draws) (st : SessionState) :
    Fed st -> Fed (worker_turn d st)
| fed_process_queue (st : SessionState) :
    Fed st -> Fed (process_queue st).

(** A log has what the activity table reads: a timestamp, one of the
    four actions and a path. *)
Definition is_file_log (log : Log) : bool :=
  has_type "file_access" log
  && match dict_get log "timestamp", dict_get log "action",
           dict_get log "path" with
     | Some _, Some a, Some _ => in_list a action_types
     | _, _, _ => false
     end.

(** A log has what the alert table and its bar chart read: a timestamp,
    a message and one of the three levels that have a colour. *)
Definition is_alert_log (log : Log) : bool :=
  has_type "alert" log
  && match dict_get log "timestamp", dict_get log "level",
           dict_get log "message" with
     | Some _, Some l, Some _ => in_list l alert_levels
     | _, _, _ => false
     end.

(** A log of one of the two kinds. *)
Definition well_formed (log : Log) : bool :=
  is_file_log log || is_alert_log log.

End Worker.

(* ===================================================================== *)
(** * [setup_logger] of [src/utils.py]                                    *)
(* ===================================================================== *)

Module Logging.
Import Py Re Monitor.

(** ** [posixpath.dirname] *)

(** [c * n] *)
Fixpoint replicate (c : ascii) (n : nat) : string :=
  match n with
  | O => EmptyString
  | S n' => String c (replicate c n')
  end.

(** [s.rstrip(c)] for one character [c]. *)
Fixpoint rstrip_chr (c : ascii) (s : string) : string :=
  match s with
  | EmptyString => EmptyString
  | String a s' =>
      match rstrip_chr c s' with
      | EmptyString => if Ascii.eqb a c then EmptyString else String a EmptyString
      | r => String a r
      end
  end.

Definition dirname (p : string) : string :=
  let i := (rfind "/" p + 1)%Z in
  let head := slice p 0 i in
  if negb (is_empty head)
     && negb (String.eqb head (replicate "/" (String.length head)))
  then rstrip_chr "/" head
  else head.

(** ** The [logging] module *)

Inductive Handler :=
| FileHandler (filename : string) (level : nat) (formatter : string)
| StreamHandler (level : nat) (formatter : string).

(** A logger object: its level and its handlers. *)
Record PyLogger := { level : nat; handlers : list Handler }.

(** What [setup_logger] works on: the loggers [logging.getLogger] knows
    by name (a name not yet asked for has level 0 and no handler), the
    directories made, and what the file system refuses: why
    [os.makedirs] fails on a directory and why a log file cannot be
    opened, if so. *)
Record Env := {
  loggers : string -> PyLogger;
  made_dirs : list string;
  makedirs_error : string -> option string;
  open_error : string -> option string
}.

(** [logging.INFO], the default level. *)
Definition INFO_level : nat := 20.

Definition format : string :=
  "%(asctime)s - %(name)s - %(levelname)s - %(message)s".

Definition set_logger (name : string) (l : PyLogger) (env : Env) : Env :=
  {| loggers := fun n => if String.eqb n name then l else loggers env n;
     made_dirs := made_dirs env;
     makedirs_error := makedirs_error env;
     open_error := open_error env |}.

(** [os.makedirs(d, exist_ok=True)]: the empty path always fails. *)
Definition makedirs (d : string) (env : Env) : Outcome unit * Env :=
  match (if is_empty d
         then Some "[Errno 2] No such file or directory: ''"
         else makedirs_error env d) with
  | Some why => (Raises (OSError why), env)
  | None =>
      (Returns tt,
       {| loggers := loggers env;
          made_dirs := (made_dirs env ++ [d])%list;
          makedirs_error := makedirs_error env;
          open_error := open_error env |})
  end.

(** [setup_logger(name, log_file, level)]; the logger returned is the
    one [env] then holds under [name]. *)
Definition setup_logger (name log_file : string) (lvl : nat) (env : Env)
  : Outcome string * Env :=
  match makedirs (dirname log_file) env with
  | (Raises e, env') => (Raises e, env')
  | (Returns _, env1) =>
      let logger := loggers env1 name in
      let env2 :=
        set_logger name {| level := lvl; handlers := handlers logger |} env1 in
      match handlers logger with
      | [] =>
          match open_error env2 log_file with
          | Some why => (Raises (OSError why), env2)
          | None =>
              (Returns name,
               set_logger name
                 {| level := lvl;
                    handlers := [ FileHandler log_file lvl format;
                                  StreamHandler lvl format ] |}
                 env2)
          end
      | _ :: _ => (Returns name, env2)
      end
  end.

End Logging.

(* ===================================================================== *)
(** * [_simulate_usb_detection], the simulation thread                    *)
(* ===================================================================== *)

Module Simulation.
Import Py Re Utils Monitor Spec Lifecycle Worker.

(** Where the thread stands. It runs from one [time.sleep] to the next
    without giving way; the other threads run while it sleeps. *)
Inductive Place :=
| LoopTest                       (* about to test [self.is_running] *)
| Waiting                        (* in [time.sleep(30)] *)
| Connected (usb_name : string)  (* in [time.sleep(10)] *)
| Exited.                        (* [self.is_running] was found false *)

(** What one turn draws: [random.random()] and [random.randint(1, 10)]. *)
Record Draw := { detection_draw : N; name_draw : nat }.

(** One step of the thread, to its next sleep or to its end. *)
Definition thread_step (d : Draw) (place : Place) (w : World)
  : Place * World :=
  match place with
  | LoopTest =>
      if is_running (self w) then (Waiting, w) else (Exited, w)
  | Waiting =>
      if below_0_05 (detection_draw d) then
        let usb_name := "USB" ++ str_of_nat (randint 1 10 (name_draw d)) in
        let w1 := with_self (set_usb_detected true (self w)) w in
        (Connected usb_name,
         snd ((logger_warning ("USB device detected: " ++ usb_name) ;;
               log_alert_ "medium" ("USB device detected: " ++ usb_name)) w1))
      else (LoopTest, w)
  | Connected usb_name =>
      let w1 := snd (logger_info ("USB device removed: " ++ usb_name) w) in
      (LoopTest, with_self (set_usb_detected false (self w1)) w1)
  | Exited => (Exited, w)
  end.

(** The monitor and its simulation thread together: the thread is
    started by the first [start_monitoring] that succeeds, on a monitor
    just constructed; then the thread steps, and the methods of the
    monitor are called, in any order, while the files change. *)
Inductive Runs : Place -> World -> Prop :=
| runs_started (w : World) (cwd : string)
    (paths keywords : option (list string)) :
    self w = init cwd paths keywords ->
    watch_error w = None ->
    Runs LoopTest (snd (start_monitoring w))
| runs_thread (d : Draw) (place : Place) (w : World) :
    Runs place w ->
    Runs (fst (thread_step d place w)) (snd (thread_step d place w))
| runs_start (thread_error : option string) (place : Place) (w : World) :
    Runs place w -> Runs place (snd (start_monitoring_when thread_error w))
| runs_stop (place : Place) (w : World) :
    Runs place w -> Runs place (snd (stop_monitoring w))
| runs_handle (place : Place) (w : World) (file_path access_type : string) :
    Runs place w ->
    Runs place (snd (handle_file_access file_path access_type w))
| runs_environment (place : Place) (w : World) (files : string -> File)
    (error : option string) :
    Runs place w -> Runs place (with_environment files error w).

Definition is_connected (place : Place) : bool :=
  match place with Connected _ => true | _ => false end.

End Simulation.

(* ===================================================================== *)
(** * [src/main.py]: starting the monitor and shutting down               *)
(* ===================================================================== *)

Module Main.
Import Py Re Utils Monitor Spec Lifecycle.

(** ** [repr] of strings and of lists of strings *)

Definition hex_digit (n : nat) : ascii :=
  nth n [ "0"; "1"; "2"; "3"; "4"; "5"; "6"; "7"; "8"; "9";
          "a"; "b"; "c"; "d"; "e"; "f" ]%char "0"%char.

(** [str.isprintable] on one code point below 256. *)
Definition isprintable (c : ascii) : bool :=
  let n := nat_of_ascii c in
  ((32 <=? n) && (n <=? 126)
   || (161 <=? n) && negb (n =? 173))%nat.

(** One character inside the quotes of [repr]. *)
Definition repr_chr (quote c : ascii) : string :=
  let n := nat_of_ascii c in
  if Ascii.eqb c quote || Ascii.eqb c "\" then String "\" (String c "")
  else if (n =? 9)%nat then "\t"
  else if (n =? 10)%nat then "\n"
  else if (n =? 13)%nat then "\r"
  else if isprintable c then String c ""
  else String "\" (String "x" (String (hex_digit (n / 16))
                                (String (hex_digit (n mod 16)) ""))).

Fixpoint repr_body (quote : ascii) (s : string) : string :=
  match s with
  | EmptyString => EmptyString
  | String c s' => repr_chr quote c ++ repr_body quote s'
  end.

(** [repr(s)]: single quotes, unless [s] holds a single quote and no
    double quote. *)
Definition repr_str (s : string) : string :=
  let double_quote : ascii := ascii_of_nat 34 in
  let quote : ascii :=
    if has_chr (is_chr "'") s && negb (has_chr (is_chr double_quote) s)
    then double_quote else "'"%char in
  String quote (repr_body quote s) ++ String quote "".


(** ** [FileMonitor(...)], with what it logs *)


(** ** The application *)

(** The dashboard process ([subprocess.Popen]). *)
Record Popen := { terminated : bool; waited : bool }.

(** What the functions of [main.py] work on: the world of the monitor,
    the "main" logger, the dashboard process if it was launched, and
    the working directory. *)
Record App := {
  world : World;
  main_logger : Logger;
  dashboard_process : option Popen;
  cwd : string
}.

Definition with_world (w : World) (app : App) : App :=
  {| world := w; main_logger := main_logger app;
     dashboard_process := dashboard_process app; cwd := cwd app |}.

Definition main_log (r : LogRecord) (app : App) : App :=
  {| world := world app; main_logger := (main_logger app ++ [r])%list;
     dashboard_process := dashboard_process app; cwd := cwd app |}.

Definition main_info (msg : string) : App -> App :=
  main_log {| levelname := INFO; message := msg |}.
Definition main_error (msg : string) : App -> App :=
  main_log {| levelname := ERROR; message := msg |}.


(** [dashboard_process.terminate()] then [dashboard_process.wait()]. *)
Definition terminate_and_wait (app : App) : App :=
  {| world := world app; main_logger := main_logger app;
     dashboard_process :=
       match dashboard_process app with
       | Some _ => Some {| terminated := true; waited := true |}
       | None => None
       end;
     cwd := cwd app |}.

(** [handle_shutdown(monitor, dashboard_process)]; [monitor] tells
    whether a monitor, that of the world, is passed, or [None]. *)
Definition handle_shutdown (monitor : bool) (app : App)
  : Outcome unit * App :=
  let app1 := main_info "Shutting down application..." app in
  let tried : Outcome unit * App :=
    let stopped : Outcome unit * App :=
      if monitor && is_running (self (world app1)) then
        match stop_monitoring (world app1) with
        | (Returns _, w') =>
            (Returns tt, main_info "File monitoring stopped" (with_world w' app1))
        | (Raises e, w') => (Raises e, with_world w' app1)
        end
      else (Returns tt, app1) in
    match stopped with
    | (Raises e, app2) => (Raises e, app2)
    | (Returns _, app2) =>
        let app3 :=
          match dashboard_process app2 with
          | Some _ => main_info "Dashboard stopped" (terminate_and_wait app2)
          | None => app2
          end in
        (Returns tt, main_info "Application shutdown complete" app3)
    end in
  match tried with
  | (Raises e, app') =>
      (Returns tt,
       main_error ("Error during shutdown: " ++ str_of_exception e) app')
  | (Returns _, app') => (Returns tt, app')
  end.

End Main.

(* ===================================================================== *)
(** * The persona model and its use by the dashboard                      *)
(* ===================================================================== *)

Module Persona.
Import Py Re Utils Worker.

(** The exceptions met: the two the code raises itself, and what pandas,
    scikit-learn, joblib or the operating system raise; each with its
    [str(e)]. *)
Inductive Error :=
| RuntimeError (msg : string)
| ValueError (msg : string)
| OtherError (msg : string).

Definition str_of_error (e : Error) : string :=
  match e with RuntimeError msg | ValueError msg | OtherError msg => msg end.

Inductive Result (A : Type) :=
| Ok (a : A)
| Err (e : Error).
Arguments Ok {A} a.
Arguments Err {A} e.

(** A behaviour: a dict from column names to numbers, in the order of
    its keys (no key twice). *)
Definition Behavior := list (string * Z).

(** [key in behavior] *)
Definition has_column (b : Behavior) (key : string) : bool :=
  existsb (String.eqb key) (map fst b).

(** [behavior[key]] *)
Fixpoint column (b : Behavior) (key : string) : option Z :=
  match b with
  | [] => None
  | (k, v) :: b' => if String.eqb k key then Some v else column b' key
  end.

(** [lo <= behavior[key] <= hi] *)
Definition within (b : Behavior) (key : string) (lo hi : Z) : bool :=
  match column b key with
  | Some v => ((lo <=? v) && (v <=? hi))%Z
  | None => false
  end.

(** [self.features] *)
Definition features : list string :=
  [ "login_hour"; "session_duration_mins"; "files_accessed";
    "unique_directories_accessed"; "usb_connected"; "websites_visited";
    "email_sent_count"; "after_hours"; "keyboard_intensity" ].

(** The first feature that is no column, as the loop of [predict] finds
    it. *)
Definition missing_feature (b : Behavior) : option string :=
  find (fun feature => negb (has_column b feature)) features.

(** [user_behavior[self.features]]: the one row, in the order of the
    features (asked only when no feature is missing). *)
Definition feature_row (b : Behavior) : list Z :=
  map (fun feature =>
         match column b feature with Some v => v | None => 0%Z end)
      features.

Section Sklearn.

(** The arrays a scaler hands to an estimator. *)
Variable Scaled : Type.

Inductive ObjectClass :=
| RandomForestClassifier
| LogisticRegression
| StandardScaler
| OtherClass.

(** An object of scikit-learn, or whatever a file holds, seen through
    the methods the code calls on it; each may raise (an object without
    the method raises [AttributeError], a scaler that was not fitted
    [NotFittedError]). [predict_first] is [predict(X)[0]] and
    [max_proba] is [max(predict_proba(X)[0])] printed with [:.4f]. *)
Record Object := {
  class_of : ObjectClass;
  transform : list Z -> Result Scaled;
  predict_first : Scaled -> Result string;
  max_proba : Scaled -> Result string
}.

Record PersonaModel := {
  model_type : string;
  model : option Object;
  scaler : Object
}.

(** What [joblib.load] finds at a path. *)
Inductive FileContent :=
| Absent
| Holds (obj : Object)
| Unreadable (why : string).

(** The files [joblib] reads and writes, the directories made, and what
    the file system refuses: why [os.makedirs] fails on a directory and
    why [joblib.dump] fails on a path, if so. *)
Record Disk := {
  files : string -> FileContent;
  made_dirs : list string;
  makedirs_error : string -> option string;
  dump_error : string -> option string
}.

(** What the methods of a [PersonaModel] work on: the object, the
    "persona_model" logger and the disk. *)
Record State := {
  this : PersonaModel;
  model_logger : Logger;
  disk : Disk
}.

Definition Method (A : Type) : Type := State -> Result A * State.

Definition ret {A} (a : A) : Method A := fun s => (Ok a, s).
Definition raise {A} (e : Error) : Method A := fun s => (Err e, s).
Definition bind {A B} (m : Method A) (k : A -> Method B) : Method B :=
  fun s =>
    match m s with
    | (Ok a, s') => k a s'
    | (Err e, s') => (Err e, s')
    end.

Local Notation "x <- m ;; k" := (bind m (fun x => k))
  (at level 61, m at next level, right associativity).
Local Notation "m ;; k" := (bind m (fun _ => k))
  (at level 61, right associativity).

(** A call into a library: its result, or its exception. *)
Definition call {A} (r : Result A) : Method A := fun s => (r, s).

Definition set_this (f : PersonaModel -> PersonaModel) : Method unit :=
  fun s => (Ok tt, {| this := f (this s); model_logger := model_logger s;
                      disk := disk s |}).
Definition set_disk (f : Disk -> Disk) : Method unit :=
  fun s => (Ok tt, {| this := this s; model_logger := model_logger s;
                      disk := f (disk s) |}).
Definition logger_info (msg : string) : Method unit :=
  fun s => (Ok tt, {| this := this s;
                      model_logger := info (model_logger s) msg;
                      disk := disk s |}).
Definition logger_error (msg : string) : Method unit :=
  fun s => (Ok tt, {| this := this s;
                      model_logger := error (model_logger s) msg;
                      disk := disk s |}).

Definition set_model (m : option Object) (p : PersonaModel) : PersonaModel :=
  {| model_type := model_type p; model := m; scaler := scaler p |}.
Definition set_model_type (t : string) (p : PersonaModel) : PersonaModel :=
  {| model_type := t; model := model p; scaler := scaler p |}.
Definition set_scaler (o : Object) (p : PersonaModel) : PersonaModel :=
  {| model_type := model_type p; model := model p; scaler := o |}.

(** [predict(user_behavior)] on a dict. *)
Definition predict (user_behavior : Behavior) : Method string :=
  fun s =>
    match model (this s) with
    | None =>
        (logger_error "Model not trained. Call train() first." ;;
         raise (RuntimeError "Model not trained. Call train() first.")) s
    | Some estimator =>
        match missing_feature user_behavior with
        | Some feature =>
            (logger_error ("Missing feature: " ++ feature) ;;
             raise (ValueError ("Missing feature: " ++ feature))) s
        | None =>
            (let X := feature_row user_behavior in
             X_scaled <- call (transform (scaler (this s)) X) ;;
             persona <- call (predict_first estimator X_scaled) ;;
             max_proba <- call (max_proba estimator X_scaled) ;;
             logger_info ("Predicted persona: " ++ persona
                          ++ " with probability: " ++ max_proba) ;;
             ret persona) s
        end
    end.

(** [os.makedirs(d, exist_ok=True)]: the empty path always fails. *)
Definition makedirs (d : string) : Method unit :=
  fun s =>
    match (if is_empty d
           then Some "[Errno 2] No such file or directory: ''"
           else makedirs_error (disk s) d) with
    | Some why => (Err (OtherError why), s)
    | None =>
        set_disk (fun k =>
          {| files := files k; made_dirs := (made_dirs k ++ [d])%list;
             makedirs_error := makedirs_error k;
             dump_error := dump_error k |}) s
    end.

(** [joblib.dump(obj, path)]; a dump that fails is taken to leave the
    files as they were. *)
Definition joblib_dump (obj : Object) (path : string) : Method unit :=
  fun s =>
    match dump_error (disk s) path with
    | Some why => (Err (OtherError why), s)
    | None =>
        set_disk (fun k =>
          {| files := fun p => if String.eqb p path then Holds obj
                               else files k p;
             made_dirs := made_dirs k;
             makedirs_error := makedirs_error k;
             dump_error := dump_error k |}) s
    end.

(** [joblib.load(path)] *)
Definition joblib_load (path : string) : Method Object :=
  fun s =>
    match files (disk s) path with
    | Holds obj => (Ok obj, s)
    | Absent =>
        (Err (OtherError ("[Errno 2] No such file or directory: "
                          ++ Main.repr_str path)), s)
    | Unreadable why => (Err (OtherError why), s)
    end.

(** The truth value of an optional path: [None] and the empty string
    are false. *)
Definition given (path : option string) : option string :=
  match path with
  | Some p => if is_empty p then None else Some p
  | None => None
  end.

(** [save_model(model_path, scaler_path)] *)
Definition save_model (model_path : string) (scaler_path : option string)
  : Method unit :=
  fun s =>
    match model (this s) with
    | None =>
        (logger_error "Model not trained. Call train() first." ;;
         raise (RuntimeError "Model not trained. Call train() first.")) s
    | Some estimator =>
        (makedirs (Logging.dirname model_path) ;;
         joblib_dump estimator model_path ;;
         logger_info ("Model saved to " ++ model_path) ;;
         match given scaler_path with
         | Some path =>
             joblib_dump (scaler (this s)) path ;;
             logger_info ("Scaler saved to " ++ path)
         | None => ret tt
         end) s
    end.

(** [load_model(model_path, scaler_path)] *)
Definition load_model (model_path : string) (scaler_path : option string)
  : State -> bool * State :=
  fun s =>
    let body : Method unit :=
      loaded <- joblib_load model_path ;;
      set_this (set_model (Some loaded)) ;;
      logger_info ("Model loaded from " ++ model_path) ;;
      match class_of loaded with
      | RandomForestClassifier => set_this (set_model_type "RandomForest")
      | LogisticRegression => set_this (set_model_type "LogisticRegression")
      | _ => ret tt
      end ;;
      match given scaler_path with
      | Some path =>
          loaded_scaler <- joblib_load path ;;
          set_this (set_scaler loaded_scaler) ;;
          logger_info ("Scaler loaded from " ++ path)
      | None => ret tt
      end in
    match body s with
    | (Ok _, s') => (true, s')
    | (Err e, s') =>
        (false,
         {| this := this s';
            model_logger :=
              error (model_logger s')
                    ("Error loading model: " ++ str_of_error e);
            disk := disk s' |})
    end.

(** ** [predict_persona] of the dashboard *)

(** What one call of [predict_persona] draws: one draw for each call of
    [random.randint] and of [random.random]. *)
Record BehaviorDraws := {
  session_draw : nat;
  files_draw : nat;
  dirs_draw : nat;
  usb_draw : N;
  websites_draw : nat;
  emails_draw : nat;
  keyboard_draw : nat;
  anomaly_draw : N;
  factor_draw : nat;
  anomaly_keyboard_draw : nat
}.

(** The behaviour [predict_persona] makes up at [current_hour]. *)
Definition simulate_behavior (current_hour : nat) (d : BehaviorDraws)
  : Behavior :=
  let work_hours := ((9 <=? current_hour) && (current_hour <=? 17))%nat in
  let login_hour := current_hour in
  let session_duration :=
    if work_hours then randint 30 480 (session_draw d)
    else randint 5 120 (session_draw d) in
  let files_accessed :=
    if work_hours then randint 5 50 (files_draw d)
    else randint 1 100 (files_draw d) in
  let unique_dirs :=
    if work_hours then randint 1 10 (dirs_draw d)
    else randint 1 20 (dirs_draw d) in
  let usb_connected :=
    if work_hours then (if below_0_1 (usb_draw d) then 1 else 0)
    else (if below_0_3 (usb_draw d) then 1 else 0) in
  let websites :=
    if work_hours then randint 5 50 (websites_draw d)
    else randint 1 30 (websites_draw d) in
  let emails :=
    if work_hours then randint 0 20 (emails_draw d)
    else randint 0 10 (emails_draw d) in
  let after_hours := if work_hours then 0 else 1 in
  let keyboard :=
    if work_hours then randint 30 100 (keyboard_draw d)
    else randint 10 60 (keyboard_draw d) in
  let anomaly := below_0_15 (anomaly_draw d) in
  let anomaly_factor := randint 2 5 (factor_draw d) in
  let files_accessed :=
    if anomaly then files_accessed * anomaly_factor else files_accessed in
  let unique_dirs :=
    if anomaly then unique_dirs * anomaly_factor else unique_dirs in
  let websites :=
    if anomaly then websites * anomaly_factor else websites in
  let emails :=
    if anomaly then emails * anomaly_factor else emails in
  let keyboard :=
    if anomaly then randint 5 200 (anomaly_keyboard_draw d) else keyboard in
  [ ("login_hour", Z.of_nat login_hour);
    ("session_duration_mins", Z.of_nat session_duration);
    ("files_accessed", Z.of_nat files_accessed);
    ("unique_directories_accessed", Z.of_nat unique_dirs);
    ("usb_connected", Z.of_nat usb_connected);
    ("websites_visited", Z.of_nat websites);
    ("email_sent_count", Z.of_nat emails);
    ("after_hours", Z.of_nat after_hours);
    ("keyboard_intensity", Z.of_nat keyboard) ].

(** The entries of [st.session_state] that [predict_persona] touches,
    and the "dashboard" logger. *)
Record Session := {
  session_model : State;
  user_behavior : option Behavior;
  persona : option string;
  dashboard_logger : Logger
}.

(** [predict_persona()], at the hour [datetime.now().hour]. *)
Definition predict_persona (current_hour : nat) (d : BehaviorDraws)
  (st : Session) : string * Session :=
  let behavior := simulate_behavior current_hour d in
  match predict behavior (session_model st) with
  | (Ok p, m) =>
      (p, {| session_model := m;
             user_behavior := Some behavior;
             persona := Some p;
             dashboard_logger :=
               info (dashboard_logger st) ("Predicted persona: " ++ p) |})
  | (Err e, m) =>
      ("Unknown",
       {| session_model := m;
          user_behavior := Some behavior;
          persona := persona st;
          dashboard_logger :=
            error (dashboard_logger st)
                  ("Error predicting persona: " ++ str_of_error e) |})
  end.

End Sklearn.

Arguments ret {Scaled A}.
Arguments raise {Scaled A}.
Arguments bind {Scaled A B}.
Arguments call {Scaled A}.
Arguments set_this {Scaled}.
Arguments set_disk {Scaled}.
Arguments logger_info {Scaled}.
Arguments logger_error {Scaled}.
Arguments class_of {Scaled}.
Arguments transform {Scaled}.
Arguments predict_first {Scaled}.
Arguments max_proba {Scaled}.
Arguments model_type {Scaled}.
Arguments model {Scaled}.
Arguments scaler {Scaled}.
Arguments Absent {Scaled}.
Arguments Holds {Scaled}.
Arguments Unreadable {Scaled}.
Arguments files {Scaled}.
Arguments made_dirs {Scaled}.
Arguments makedirs_error {Scaled}.
Arguments dump_error {Scaled}.
Arguments this {Scaled}.
Arguments model_logger {Scaled}.
Arguments disk {Scaled}.
Arguments set_model {Scaled}.
Arguments set_model_type {Scaled}.
Arguments set_scaler {Scaled}.
Arguments predict {Scaled}.
Arguments makedirs {Scaled}.
Arguments joblib_dump {Scaled}.
Arguments joblib_load {Scaled}.
Arguments save_model {Scaled}.
Arguments load_model {Scaled}.
Arguments session_model {Scaled}.
Arguments user_behavior {Scaled}.
Arguments persona {Scaled}.
Arguments dashboard_logger {Scaled}.
Arguments predict_persona {Scaled}.

End Persona.

(* ===================================================================== *)
(** * Sample models and behaviours                                        *)
(* ===================================================================== *)

Module PersonaExamples.
Import Py Utils Worker Persona.

(** A fitted scaler that leaves a row as it is. *)
Definition identity_scaler : Object (list Z) :=
  {| class_of := StandardScaler;
     transform := fun X => Ok X;
     predict_first := fun _ =>
       Err (OtherError "'StandardScaler' object has no attribute 'predict'");
     max_proba := fun _ =>
       Err (OtherError
              "'StandardScaler' object has no attribute 'predict_proba'") |}.

(** An estimator that looks at the USB column only. *)
Definition usb_rule : Object (list Z) :=
  {| class_of := RandomForestClassifier;
     transform := fun _ =>
       Err (OtherError
              "'RandomForestClassifier' object has no attribute 'transform'");
     predict_first := fun X =>
       Ok (if (nth 4 X 0 =? 1)%Z then "Suspicious" else "Normal");
     max_proba := fun _ => Ok "1.0000" |}.

Definition empty_disk : Disk (list Z) :=
  {| files := fun _ => Absent; made_dirs := [];
     makedirs_error := fun _ => None; dump_error := fun _ => None |}.

Definition trained : State (list Z) :=
  {| this := {| model_type := "RandomForest"; model := Some usb_rule;
                scaler := identity_scaler |};
     model_logger := []; disk := empty_disk |}.

(** [PersonaModel()] before [train] or [load_model]; its scaler is not
    fitted. *)
Definition untrained : State (list Z) :=
  {| this :=
       {| model_type := "RandomForest"; model := None;
          scaler :=
            {| class_of := StandardScaler;
               transform := fun _ =>
                 Err (OtherError
                        "This StandardScaler instance is not fitted yet.");
               predict_first := predict_first identity_scaler;
               max_proba := max_proba identity_scaler |} |};
     model_logger := []; disk := empty_disk |}.

(** The sample of [persona_model.py]. *)
Definition sample : Behavior :=
  [ ("login_hour", 3); ("session_duration_mins", 600);
    ("files_accessed", 250); ("unique_directories_accessed", 50);
    ("usb_connected", 1); ("websites_visited", 300);
    ("email_sent_count", 45); ("after_hours", 1);
    ("keyboard_intensity", 20) ]%Z.

Definition draws : BehaviorDraws :=
  {| session_draw := 100; files_draw := 7; dirs_draw := 3; usb_draw := 0;
     websites_draw := 12; emails_draw := 4; keyboard_draw := 55;
     anomaly_draw := 0; factor_draw := 2; anomaly_keyboard_draw := 150 |}.

Definition session (s : State (list Z)) : Session (list Z) :=
  {| session_model := s; user_behavior := None;
     persona := Some "Normal"; dashboard_logger := [] |}.

End PersonaExamples.

(* ===================================================================== *)
(** * Properties of the text functions                                    *)
(* ===================================================================== *)

Import Py Re Utils Monitor Spec.

(** ** The embedding on small inputs *)

Section Samples.

Example finditer_first_alternative :
  finditer ["bank"; "bank account"] "My Bank Account, bAnK"
  = [(3, "Bank"); (17, "bAnK")].
Proof. reflexivity. Qed.

Example finditer_no_overlap :
  finditer ["aa"] "aaaaa" = [(0, "aa"); (2, "aa")].
Proof. reflexivity. Qed.

Example finditer_empty_alternative :
  finditer [""; "a"] "ba" = [(0, ""); (1, ""); (1, "a"); (2, "")].
Proof. reflexivity. Qed.

Example splitext_samples :
  map (splitext posixpath)
      ["a/b.tar.GZ"; ".bashrc"; "dir.txt/file"; "a/..txt"; "a.b\c"]
  = [("a/b.tar", ".GZ"); (".bashrc", ""); ("dir.txt/file", "");
     ("a/..txt", ""); ("a", ".b\c")]
  /\ splitext ntpath "a.b\c" = ("a.b\c", "").
Proof. split; reflexivity. Qed.

Example readlines_universal_newlines :
  readlines ("ab" ++ String CR (String LF ("cd" ++ String CR "e")))
  = ["ab" ++ String LF ""; "cd" ++ String LF ""; "e"].
Proof. reflexivity. Qed.

Example scan_sample :
  scan default_keywords
       ("line one" ++ String LF "  This is Confidential, my PASSWORD ")
  = [ {| keyword := "Confidential"; line := 2;
         context := "This is Confidential, my PASSWORD" |};
      {| keyword := "PASSWORD"; line := 2;
         context := "This is Confidential, my PASSWORD" |} ].
Proof. reflexivity. Qed.

Example unreadable_file_is_logged :
  let (r, w) := handle_file_access "locked.txt" "modified" (Examples.world true)
  in (r, logger w)
  = (Returns allow,
     [ {| levelname := INFO; message := "File modified: locked.txt" |};
       {| levelname := INFO; message := "ACTIVITY: modified - locked.txt" |};
       {| levelname := ERROR;
          message := "Error checking file for sensitive data: [Errno 13] Permission denied: 'locked.txt'" |} ]).
Proof. reflexivity. Qed.

End Samples.

Section Strings.

Lemma length_append (a b : string) :
  String.length (a ++ b) = String.length a + String.length b.
Proof. induction a as [|c a IH]; simpl; [reflexivity | now rewrite IH]. Qed.

Lemma append_assoc (a b c : string) : (a ++ b) ++ c = a ++ (b ++ c).
Proof. induction a as [|x a IH]; simpl; [reflexivity | now rewrite IH]. Qed.

Lemma append_empty_r (a : string) : a ++ "" = a.
Proof. induction a as [|x a IH]; simpl; [reflexivity | now rewrite IH]. Qed.

Lemma substring_0_0 (s : string) : String.substring 0 0 s = "".
Proof. destruct s; reflexivity. Qed.

Lemma substring_append_skip (a b : string) (m : nat) :
  String.substring (String.length a) m (a ++ b) = String.substring 0 m b.
Proof. induction a as [|x a IH]; simpl; [reflexivity | exact IH]. Qed.

Lemma substring_whole (s : string) :
  String.substring 0 (String.length s) s = s.
Proof.
  induction s as [|c s IH]; simpl; [reflexivity | now rewrite IH].
Qed.

Lemma substring_prefix (a b : string) :
  String.substring 0 (String.length a) (a ++ b) = a.
Proof.
  induction a as [|x a IH]; simpl; [apply substring_0_0 | now rewrite IH].
Qed.

Lemma lower_append (a b : string) : lower (a ++ b) = lower a ++ lower b.
Proof. induction a as [|x a IH]; simpl; [reflexivity | now rewrite IH]. Qed.

Lemma lower_length (s : string) : String.length (lower s) = String.length s.
Proof. induction s as [|c s IH]; simpl; [reflexivity | now rewrite IH]. Qed.

Lemma chr_lower_idem (c : ascii) : chr_lower (chr_lower c) = chr_lower c.
Proof.
  destruct c as [[] [] [] [] [] [] [] []]; vm_compute; reflexivity.
Qed.

Lemma lower_idem (s : string) : lower (lower s) = lower s.
Proof.
  induction s as [|c s IH]; simpl; [reflexivity|].
  now rewrite chr_lower_idem, IH.
Qed.

End Strings.

(** ** The pattern: one literal, one attempt, all matches *)

Section Pattern.

Lemma match_literal_sound (k s m : string) :
  match_literal k s = Some m ->
  m = String.substring 0 (String.length k) s
  /\ String.length k <= String.length s
  /\ lower m = lower k.
Proof.
  revert s m. induction k as [|a k IH]; intros s m H; simpl in H.
  - inversion H; subst. rewrite substring_0_0. repeat split. simpl; lia.
  - destruct s as [|c s]; [discriminate|].
    destruct (Ascii.eqb (chr_lower c) (chr_lower a)) eqn:E; [|discriminate].
    destruct (match_literal k s) as [m'|] eqn:M; [|discriminate].
    inversion H; subst. apply Ascii.eqb_eq in E.
    destruct (IH _ _ M) as (-> & L & Lw). simpl.
    repeat split; [lia|]. now rewrite E, Lw.
Qed.

Lemma match_literal_complete (k s : string) :
  String.length k <= String.length s ->
  lower (String.substring 0 (String.length k) s) = lower k ->
  match_literal k s = Some (String.substring 0 (String.length k) s).
Proof.
  revert s. induction k as [|a k IH]; intros s L H; simpl.
  - now rewrite substring_0_0.
  - destruct s as [|c s]; simpl in *; [lia|].
    inversion H as [[E H']]. rewrite E, Ascii.eqb_refl.
    rewrite IH; [reflexivity | lia | assumption].
Qed.

Lemma match_literal_occurs_at (k s : string) :
  match match_literal k s with
  | Some m => [(0, m)]
  | None => []
  end
  = if occurs_at k s 0
    then [(0, String.substring 0 (String.length k) s)] else [].
Proof.
  unfold occurs_at. simpl.
  destruct (match_literal k s) as [m|] eqn:M.
  - apply match_literal_sound in M as (-> & L & Lw).
    apply Nat.leb_le in L. rewrite L. apply String.eqb_eq in Lw.
    now rewrite Lw.
  - destruct (String.length k <=? String.length s)%nat eqn:L; [|reflexivity].
    destruct (String.eqb _ _) eqn:E; [|reflexivity].
    apply Nat.leb_le in L. apply String.eqb_eq in E.
    now rewrite (match_literal_complete k s L E) in M.
Qed.

Lemma match_literal_length (k s m : string) :
  match_literal k s = Some m -> String.length m = String.length k.
Proof.
  intros H. apply match_literal_sound in H as (_ & _ & H).
  now rewrite <- (lower_length m), H, lower_length.
Qed.

End Pattern.

(** ** Occurrences along the text *)

Section Occurrences.

Variable K : list string.

Lemma occurs_at_shift (k s : string) (c : ascii) (p : nat) :
  occurs_at k (String c s) (S p) = occurs_at k s p.
Proof. reflexivity. Qed.

Lemma occurrences_here_shift (s : string) (pos : nat) :
  occurrences_here K s pos = map (shift pos) (occurrences_here K s 0).
Proof.
  unfold occurrences_here. induction K as [|k K' IH]; simpl; [reflexivity|].
  rewrite map_app, <- IH. f_equal.
  destruct (match_literal k s); simpl; [|reflexivity].
  unfold shift; simpl. now rewrite Nat.add_0_r.
Qed.

Lemma occurrences_cons (c : ascii) (s : string) :
  occurrences K (String c s)
  = (occurrences_here K (String c s) 0 ++ map (shift 1) (occurrences K s))%list.
Proof.
  unfold occurrences. cbn [String.length].
  change (seq 0 (S (S (String.length s))))
    with (0 :: seq 1 (S (String.length s))).
  cbn [flat_map]. f_equal.
  - unfold occurrences_here. apply flat_map_ext. intros k.
    symmetry. apply match_literal_occurs_at.
  - rewrite <- seq_shift.
    generalize (seq 0 (S (String.length s))) as ps.
    induction ps as [|p ps IH]; simpl; [reflexivity|].
    rewrite map_app, <- IH. f_equal. clear IH.
    induction K as [|k K' IHK]; simpl; [reflexivity|].
    rewrite map_app, <- IHK. f_equal.
    rewrite occurs_at_shift. destruct (occurs_at k s p); reflexivity.
Qed.

Lemma occurrences_empty :
  occurrences K "" = occurrences_here K "" 0.
Proof.
  unfold occurrences, occurrences_here. simpl. rewrite app_nil_r.
  apply flat_map_ext. intros k. symmetry. apply match_literal_occurs_at.
Qed.

Lemma occurrences_from_spec (s : string) (pos : nat) :
  occurrences_from K s pos = map (shift pos) (occurrences K s).
Proof.
  revert pos. induction s as [|c s IH]; intros pos; simpl.
  - rewrite app_nil_r, occurrences_empty. apply occurrences_here_shift.
  - rewrite occurrences_cons, map_app, IH, map_map.
    f_equal; [apply occurrences_here_shift|].
    apply map_ext. intros [q m]. unfold shift; simpl. f_equal. lia.
Qed.

Lemma occurrences_from_0 (s : string) :
  occurrences_from K s 0 = occurrences K s.
Proof.
  rewrite occurrences_from_spec. rewrite <- (map_id (occurrences K s)) at 2.
  apply map_ext. now intros [q m].
Qed.

Lemma occurrences_here_pos (s : string) (pos : nat) (o : nat * string) :
  In o (occurrences_here K s pos) -> fst o = pos.
Proof.
  unfold occurrences_here. rewrite in_flat_map. intros (k & _ & H).
  destruct (match_literal k s); simpl in H; [|contradiction].
  destruct H as [<-|[]]. reflexivity.
Qed.

Lemma occurrences_here_keyword (s : string) (pos : nat) (o : nat * string) :
  In o (occurrences_here K s pos) ->
  exists k, In k K /\ match_literal k s = Some (snd o).
Proof.
  unfold occurrences_here. rewrite in_flat_map. intros (k & Hk & H).
  destruct (match_literal k s) eqn:M; simpl in H; [|contradiction].
  destruct H as [<-|[]]. now exists k.
Qed.

Lemma occurrences_from_pos (s : string) (pos : nat) (o : nat * string) :
  In o (occurrences_from K s pos) -> pos <= fst o.
Proof.
  revert pos. induction s as [|c s IH]; intros pos; simpl;
    rewrite in_app_iff; intros [H|H].
  - apply occurrences_here_pos in H. lia.
  - contradiction.
  - apply occurrences_here_pos in H. lia.
  - apply IH in H. lia.
Qed.

Lemma match_here_first (s : string) (pos : nat) :
  match match_here K s false with
  | Some m => exists rest, occurrences_here K s pos = (pos, m) :: rest
  | None => occurrences_here K s pos = []
  end.
Proof.
  unfold occurrences_here. induction K as [|k K' IH]; simpl; [reflexivity|].
  destruct (match_literal k s) as [m|]; simpl; [eauto|exact IH].
Qed.

Lemma match_here_in (s : string) (pos : nat) (adv : bool) (m : string) :
  match_here K s adv = Some m -> In (pos, m) (occurrences_here K s pos).
Proof.
  unfold occurrences_here. induction K as [|k K' IH]; simpl; [discriminate|].
  intros H. apply in_or_app.
  destruct (match_literal k s) as [m'|]; simpl.
  - destruct (adv && is_empty m'); [right; auto|].
    inversion H; subst. left; now left.
  - right; auto.
Qed.

End Occurrences.

(** ** [finditer] against the occurrences *)

Section Finditer.

Variable K : list string.

Lemma finditer_from_sound (s : string) :
  forall pos skip o,
    In o (finditer_from K s pos skip) -> In o (occurrences_from K s pos).
Proof.
  induction s as [|c s IH]; intros pos skip o H.
  - destruct skip; simpl in H; [|contradiction].
    simpl. rewrite app_nil_r.
    destruct (match_here K "" false) as [m|] eqn:M1; [|contradiction].
    destruct (is_empty m).
    + destruct H as [<-|H]; [eapply match_here_in; eauto|].
      destruct (match_here K "" true) as [m'|] eqn:M2; [|contradiction].
      destruct H as [<-|[]]. eapply match_here_in; eauto.
    + destruct H as [<-|[]]. eapply match_here_in; eauto.
  - destruct skip; simpl in H; simpl; apply in_or_app.
    + destruct (match_here K (String c s) false) as [m|] eqn:M1.
      * destruct (is_empty m).
        -- destruct H as [<-|H]; [left; eapply match_here_in; eauto|].
           destruct (match_here K (String c s) true) as [m'|] eqn:M2.
           ++ destruct H as [<-|H]; [left; eapply match_here_in; eauto|].
              right; eapply IH; eauto.
           ++ right; eapply IH; eauto.
        -- destruct H as [<-|H]; [left; eapply match_here_in; eauto|].
           right; eapply IH; eauto.
      * right; eapply IH; eauto.
    + right; eapply IH; eauto.
Qed.

Lemma finditer_from_nil (s : string) :
  forall pos, finditer_from K s pos 0 = [] -> occurrences_from K s pos = [].
Proof.
  induction s as [|c s IH]; intros pos H; simpl in *.
  - pose proof (match_here_first K "" pos) as F.
    destruct (match_here K "" false) as [m|].
    + destruct (is_empty m); discriminate.
    + now rewrite F.
  - pose proof (match_here_first K (String c s) pos) as F.
    destruct (match_here K (String c s) false) as [m|].
    + destruct (is_empty m); discriminate.
    + rewrite F. simpl. now apply IH.
Qed.

(** The scan of a line finds nothing exactly when no keyword occurs in it. *)
Lemma finditer_nil_iff (s : string) :
  finditer K s = [] <-> occurrences K s = [].
Proof.
  unfold finditer. rewrite <- occurrences_from_0. split.
  - apply finditer_from_nil.
  - intros H. destruct (finditer_from K s 0 0) as [|o l] eqn:E; [reflexivity|].
    assert (In o (occurrences_from K s 0)) as I
      by (eapply finditer_from_sound; rewrite E; now left).
    rewrite H in I. contradiction.
Qed.

Lemma no_overlap_app_r (a b : list (nat * string)) :
  no_overlap (a ++ b) = true -> no_overlap b = true.
Proof.
  induction a as [|o a IH]; simpl; [auto|].
  intros H. apply andb_prop in H as [_ H]. auto.
Qed.

Hypothesis K_nonempty : forallb (fun k => negb (is_empty k)) K = true.

Lemma occurrences_here_nonempty (s : string) (pos : nat) (o : nat * string) :
  In o (occurrences_here K s pos) -> 1 <= String.length (snd o).
Proof.
  intros H. apply occurrences_here_keyword in H as (k & Hk & M).
  apply match_literal_length in M. rewrite M.
  rewrite forallb_forall in K_nonempty. specialize (K_nonempty k Hk).
  destruct k; simpl in *; [discriminate | lia].
Qed.

Lemma match_here_nonempty (s m : string) :
  match_here K s false = Some m -> is_empty m = false.
Proof.
  intros H. apply (match_here_in K s 0) in H.
  apply occurrences_here_nonempty in H. destruct m; simpl in *; [lia|reflexivity].
Qed.

Lemma occurrences_from_empty (pos : nat) : occurrences_from K "" pos = [].
Proof.
  simpl. rewrite app_nil_r.
  destruct (occurrences_here K "" pos) as [|o l] eqn:E; [reflexivity|].
  assert (In o (occurrences_here K "" pos)) as I by (rewrite E; now left).
  pose proof (occurrences_here_nonempty _ _ _ I) as L.
  apply occurrences_here_keyword in I as (k & _ & M).
  apply match_literal_sound in M as (M & _). rewrite M in L.
  destruct (String.length k); simpl in L; lia.
Qed.

Lemma select_drop (free : nat) (a b : list (nat * string)) :
  (forall o, In o a -> fst o < free) ->
  select free (a ++ b) = select free b.
Proof.
  induction a as [|o a IH]; intros H; simpl; [reflexivity|].
  assert (fst o < free) as L by (apply H; now left).
  apply Nat.leb_gt in L. rewrite L. apply IH. intros q I. apply H. now right.
Qed.

Lemma select_start (free free' : nat) (l : list (nat * string)) :
  (forall o, In o l -> free <= fst o /\ free' <= fst o) ->
  select free l = select free' l.
Proof.
  destruct l as [|o l]; intros H; simpl; [reflexivity|].
  destruct (H o (or_introl eq_refl)) as [L L'].
  apply Nat.leb_le in L, L'. now rewrite L, L'.
Qed.

(** The matches found are the occurrences kept by the left-to-right
    selection; [skip] characters are still covered by the last match. *)
Lemma finditer_from_select (s : string) :
  forall pos skip,
    finditer_from K s pos skip
    = select (pos + skip) (occurrences_from K s pos).
Proof.
  induction s as [|c s IH]; intros pos skip.
  - rewrite occurrences_from_empty. destruct skip; simpl; [|reflexivity].
    pose proof (match_here_first K "" pos) as F.
    pose proof (occurrences_from_empty pos) as E.
    destruct (match_here K "" false) as [m|]; [|reflexivity].
    destruct F as (rest & F). simpl in E. rewrite app_nil_r, F in E.
    discriminate.
  - destruct skip as [|skip]; cbn [finditer_from occurrences_from].
    + pose proof (match_here_first K (String c s) pos) as F.
      rewrite Nat.add_0_r.
      destruct (match_here K (String c s) false) as [m|] eqn:M.
      * rewrite (match_here_nonempty _ _ M).
        destruct F as (rest & F). rewrite F.
        assert (1 <= String.length m) as Lm.
        { apply (occurrences_here_nonempty (String c s) pos (pos, m)).
          rewrite F. now left. }
        cbn [app select fst snd]. rewrite Nat.leb_refl. f_equal.
        rewrite select_drop.
        -- rewrite IH. f_equal. lia.
        -- intros o I.
           assert (fst o = pos) as ->; [|lia].
           apply (occurrences_here_pos K (String c s)). rewrite F. now right.
      * rewrite F. cbn [app]. rewrite IH, Nat.add_0_r.
        apply select_start. intros o I.
        apply occurrences_from_pos in I. lia.
    + rewrite select_drop.
      * rewrite IH. f_equal. lia.
      * intros o I. apply occurrences_here_pos in I. lia.
Qed.

Lemma finditer_select (s : string) :
  finditer K s = select 0 (occurrences K s).
Proof.
  unfold finditer. now rewrite finditer_from_select, occurrences_from_0.
Qed.

(** When no two occurrences overlap, all of them are kept. *)
Lemma select_no_overlap (l : list (nat * string)) :
  forall free,
    no_overlap l = true ->
    (forall o, In o l -> free <= fst o) ->
    select free l = l.
Proof.
  induction l as [|o l IH]; intros free NO B; simpl; [reflexivity|].
  simpl in NO. apply andb_prop in NO as [Fa NO].
  rewrite forallb_forall in Fa.
  assert (free <= fst o) as L by (apply B; now left).
  apply Nat.leb_le in L. rewrite L. f_equal. apply IH; [exact NO|].
  intros q I. apply Nat.leb_le. now apply Fa.
Qed.

Lemma finditer_exact (s : string) :
  no_overlap (occurrences K s) = true -> finditer K s = occurrences K s.
Proof.
  intros NO. rewrite finditer_select. apply select_no_overlap; [exact NO|].
  intros o _. lia.
Qed.

End Finditer.

(** ** [rfind] and [splitext] *)

Section Splitext.

Open Scope Z_scope.

Lemma has_chr_append (f : ascii -> bool) (a b : string) :
  has_chr f (a ++ b) = has_chr f a || has_chr f b.
Proof.
  induction a as [|x a IH]; simpl; [reflexivity|].
  now rewrite IH, orb_assoc.
Qed.

Lemma has_chr_or (f g : ascii -> bool) (s : string) :
  has_chr (fun x => f x || g x) s = has_chr f s || has_chr g s.
Proof.
  induction s as [|x s IH]; simpl; [reflexivity|]. rewrite IH.
  destruct (f x), (g x), (has_chr f s), (has_chr g s); reflexivity.
Qed.

Lemma rfind_from_range (c : ascii) (p : string) :
  forall i, rfind_from c p i = -1
            \/ i <= rfind_from c p i < i + Z.of_nat (String.length p).
Proof.
  induction p as [|a p IH]; intros i; simpl; [now left|].
  destruct (IH (i + 1)) as [E|R].
  - rewrite E. simpl. destruct (Ascii.eqb a c); [right; lia | now left].
  - destruct (0 <=? rfind_from c p (i + 1)) eqn:Z0; [right; lia|].
    destruct (Ascii.eqb a c); [right; lia | now left].
Qed.

Lemma rfind_from_absent (c : ascii) (p : string) :
  forall i, has_chr (is_chr c) p = false -> rfind_from c p i = -1.
Proof.
  induction p as [|a p IH]; intros i H; simpl in *; [reflexivity|].
  apply orb_false_elim in H as [Ha Hp]. unfold is_chr in Ha.
  now rewrite (IH _ Hp), Ha.
Qed.

Lemma rfind_from_last (c : ascii) (x y : string) :
  forall i, 0 <= i -> has_chr (is_chr c) y = false ->
            rfind_from c (x ++ String c y) i = i + Z.of_nat (String.length x).
Proof.
  induction x as [|a x IH]; intros i Hi Hy; simpl.
  - rewrite (rfind_from_absent _ _ _ Hy). simpl.
    rewrite Ascii.eqb_refl. lia.
  - rewrite IH by (assumption || lia).
    destruct (0 <=? i + 1 + Z.of_nat (String.length x)) eqn:E; [lia|].
    apply Z.leb_gt in E. lia.
Qed.

Lemma rfind_from_found (c : ascii) (p : string) :
  forall i, 0 <= i -> 0 <= rfind_from c p i ->
    exists x y, p = (x ++ String c y)%string
                /\ has_chr (is_chr c) y = false
                /\ rfind_from c p i = i + Z.of_nat (String.length x).
Proof.
  induction p as [|a p IH]; intros i Hi H; simpl in *; [lia|].
  destruct (0 <=? rfind_from c p (i + 1)) eqn:E.
  - apply Z.leb_le in E.
    destruct (IH (i + 1)) as (x & y & -> & Hy & R); [lia | assumption|].
    exists (String a x), y. simpl. repeat split; [assumption|]. lia.
  - apply Z.leb_gt in E. destruct (Ascii.eqb a c) eqn:A; [|lia].
    apply Ascii.eqb_eq in A. subst a. exists ""%string, p. simpl.
    repeat split; [|lia].
    destruct (has_chr (is_chr c) p) eqn:Hp; [|reflexivity]. exfalso.
    clear IH H. revert i Hi E. induction p as [|b p IHp]; intros i Hi E;
      simpl in *; [discriminate|].
    destruct (0 <=? rfind_from c p (i + 1 + 1)) eqn:E2; [lia|].
    unfold is_chr in Hp at 1. destruct (Ascii.eqb b c); [lia|].
    simpl in Hp. apply Z.leb_gt in E2. eapply (IHp Hp (i + 1)); lia.
Qed.

(** The last index of [c] lies before the end of [x] exactly when [c]
    does not occur after [x]. *)
Lemma rfind_from_before (c : ascii) (x y : string) :
  forall i, 0 <= i ->
    (rfind_from c (x ++ y) i < i + Z.of_nat (String.length x)
     <-> has_chr (is_chr c) y = false).
Proof.
  induction x as [|a x IH]; intros i Hi; simpl.
  - split.
    + intros H. destruct (has_chr (is_chr c) y) eqn:Hy; [|reflexivity].
      exfalso. destruct (rfind_from_range c y i) as [E|R]; [|lia].
      clear H. revert i Hi E. induction y as [|b y IHy]; intros i Hi E;
        simpl in *; [discriminate|].
      destruct (0 <=? rfind_from c y (i + 1)) eqn:E2; [apply Z.leb_le in E2; lia|].
      unfold is_chr in Hy at 1. destruct (Ascii.eqb b c); [lia|].
      simpl in Hy. destruct (rfind_from_range c y (i + 1)) as [E3|R].
      * eapply (IHy Hy (i + 1)); [lia | exact E3].
      * apply Z.leb_gt in E2. lia.
    + intros Hy. rewrite (rfind_from_absent _ _ _ Hy). lia.
  - specialize (IH (i + 1)). rewrite <- IH by lia.
    destruct (rfind_from_range c (x ++ y) (i + 1)) as [E|R].
    + rewrite E. simpl. destruct (Ascii.eqb a c); lia.
    + destruct (0 <=? rfind_from c (x ++ y) (i + 1)) eqn:E; [lia|].
      apply Z.leb_gt in E. lia.
Qed.

Lemma has_chr_ext (f g : ascii -> bool) (s : string) :
  (forall x, f x = g x) -> has_chr f s = has_chr g s.
Proof.
  intros E. induction s as [|x s IH]; simpl; [reflexivity|].
  now rewrite E, IH.
Qed.

Lemma slice_tail (x y : string) :
  slice (x ++ y) (Z.of_nat (String.length x))
        (Z.of_nat (String.length (x ++ y))) = y.
Proof.
  unfold slice. rewrite Nat2Z.id, length_append.
  replace (Z.to_nat _) with (String.length y) by lia.
  rewrite substring_append_skip. apply substring_whole.
Qed.

Lemma slice_one (a r : string) (c : ascii) :
  slice (a ++ String c r) (Z.of_nat (String.length a))
        (Z.of_nat (String.length a) + 1) = String c "".
Proof.
  unfold slice. rewrite Nat2Z.id.
  replace (Z.to_nat _) with 1%nat by lia.
  rewrite substring_append_skip. simpl. now rewrite substring_0_0.
Qed.

Lemma split_at (x : string) :
  forall j, (j < String.length x)%nat ->
    exists a c b, x = (a ++ String c b)%string /\ String.length a = j.
Proof.
  induction x as [|d x IH]; intros j H; simpl in H; [lia|].
  destruct j as [|j].
  - exists ""%string, d, x. now split.
  - destruct (IH j) as (a & c & b & -> & L); [lia|].
    exists (String d a), c, b. simpl. now rewrite L.
Qed.

Lemma nondot_before_intro (p : string) (j : Z) :
  slice p j (j + 1) <> String extsep "" ->
  forall n i, i <= j < i + Z.of_nat n -> nondot_before p i n = true.
Proof.
  intros N. induction n as [|n IH]; intros i R; [lia|]. simpl.
  destruct (String.eqb (slice p i (i + 1)) (String extsep "")) eqn:E;
    [|reflexivity]. simpl.
  apply String.eqb_eq in E.
  destruct (Z.eq_dec i j) as [->|D]; [contradiction|].
  apply IH. lia.
Qed.

Lemma nondot_before_elim (p : string) :
  forall n i, nondot_before p i n = true ->
    exists j, i <= j < i + Z.of_nat n
              /\ slice p j (j + 1) <> String extsep "".
Proof.
  induction n as [|n IH]; intros i H; simpl in H; [discriminate|].
  destruct (String.eqb (slice p i (i + 1)) (String extsep "")) eqn:E;
    simpl in H.
  - destruct (IH _ H) as (j & R & N). exists j. split; [lia | exact N].
  - apply String.eqb_neq in E. exists i. split; [lia | exact E].
Qed.

Lemma sep_index_range (fl : PathFlavour) (p : string) : -1 <= sep_index fl p.
Proof.
  unfold sep_index, rfind.
  destruct fl; simpl.
  - destruct (rfind_from_range "/" p 0); lia.
  - destruct (rfind_from_range "\" p 0), (rfind_from_range "/" p 0); lia.
Qed.

Lemma sep_index_before (fl : PathFlavour) (x y : string) :
  sep_index fl (x ++ y) < Z.of_nat (String.length x)
  <-> has_chr (is_sep fl) y = false.
Proof.
  unfold sep_index, rfind. destruct fl; simpl.
  - rewrite (rfind_from_before "/" x y 0) by lia.
    rewrite (has_chr_ext (is_sep posixpath) (is_chr "/")); [reflexivity|].
    intros c. unfold is_sep, is_chr. simpl. now rewrite orb_false_r.
  - rewrite Z.max_lub_lt_iff.
    rewrite (rfind_from_before "\" x y 0), (rfind_from_before "/" x y 0) by lia.
    rewrite (has_chr_ext (is_sep ntpath)
               (fun c => is_chr "\" c || is_chr "/" c)) by reflexivity.
    rewrite has_chr_or, orb_false_iff. reflexivity.
Qed.

Lemma splitext_unfold (fl : PathFlavour) (p : string) :
  splitext fl p
  = if (sep_index fl p <? rfind extsep p)
       && nondot_before p (sep_index fl p + 1)
            (Z.to_nat (rfind extsep p - (sep_index fl p + 1)))
    then (slice p 0 (rfind extsep p),
          slice p (rfind extsep p) (Z.of_nat (String.length p)))
    else (p, ""%string).
Proof. reflexivity. Qed.

(** A path with an extension in the sense of [has_extension] is split
    before the dot of that extension. *)
Lemma splitext_has_extension (fl : PathFlavour) (p e : string) :
  has_extension fl p e -> snd (splitext fl p) = String extsep e.
Proof.
  intros (a & c & b & -> & Hc & Hs & He).
  rewrite has_chr_or in He. apply orb_false_elim in He as [Hdot Hsep].
  rewrite <- append_assoc. set (x := (a ++ String c b)%string).
  assert (rfind extsep (x ++ String extsep e)
          = Z.of_nat (String.length x)) as D.
  { unfold rfind. rewrite rfind_from_last; [lia | lia | exact Hdot]. }
  assert (sep_index fl (x ++ String extsep e)
          < Z.of_nat (String.length a)) as Sx.
  { unfold x. rewrite append_assoc. apply sep_index_before.
    rewrite has_chr_append, Hs. simpl. rewrite Hsep, orb_false_r.
    destruct fl; reflexivity. }
  assert (Z.of_nat (String.length x)
          = Z.of_nat (String.length a) + 1 + Z.of_nat (String.length b)) as Lx.
  { unfold x. rewrite length_append. simpl. lia. }
  pose proof (sep_index_range fl (x ++ String extsep e)) as S0.
  rewrite splitext_unfold, D.
  replace (_ <? _) with true by (symmetry; apply Z.ltb_lt; lia).
  rewrite (nondot_before_intro _ (Z.of_nat (String.length a))).
  - cbn [andb snd]. apply slice_tail.
  - unfold x. rewrite append_assoc.
    change (String c b ++ String extsep e)%string
      with (String c (b ++ String extsep e)).
    rewrite slice_one. intros E. inversion E. contradiction.
  - lia.
Qed.

(** Conversely the extension returned is empty, or it is an extension
    in that sense. *)
Lemma splitext_ext_cases (fl : PathFlavour) (p : string) :
  snd (splitext fl p) = ""%string
  \/ exists e, snd (splitext fl p) = String extsep e /\ has_extension fl p e.
Proof.
  rewrite splitext_unfold.
  destruct (sep_index fl p <? rfind extsep p) eqn:L; [|now left].
  destruct (nondot_before _ _ _) eqn:N; [|now left].
  right. simpl. apply Z.ltb_lt in L.
  pose proof (sep_index_range fl p) as S0.
  destruct (rfind_from_found extsep p 0) as (x & y & -> & Hy & D);
    [lia | unfold rfind in L; lia |].
  fold (rfind extsep (x ++ String extsep y)) in D.
  rewrite D in *. simpl in D |- *.
  exists y. split.
  - replace (Z.of_nat (String.length (x ++ String extsep y)))
      with (Z.of_nat (String.length (x ++ String extsep y))) by reflexivity.
    apply slice_tail.
  - apply nondot_before_elim in N as (j & R & Nj).
    destruct (split_at x (Z.to_nat j)) as (a & c & b & -> & La); [lia|].
    exists a, c, b. rewrite append_assoc. simpl.
    assert (j = Z.of_nat (String.length a)) as -> by lia.
    rewrite append_assoc in Nj. simpl in Nj. rewrite slice_one in Nj.
    assert (has_chr (is_sep fl) (String c (b ++ String extsep y)) = false)
      as Hs.
    { apply (sep_index_before fl a). rewrite append_assoc in L, R.
      simpl in L, R. lia. }
    change (String c (b ++ String extsep y))
      with (String c b ++ String extsep y)%string in Hs.
    rewrite has_chr_append in Hs. apply orb_false_elim in Hs as [Hs1 Hs2].
    repeat split.
    + intros ->. now apply Nj.
    + exact Hs1.
    + rewrite has_chr_or. simpl in Hs2.
      apply orb_false_elim in Hs2 as [_ Hs2].
      unfold is_chr in Hy. rewrite Hs2, orb_false_r. exact Hy.
Qed.

End Splitext.

(** ** The text-file classifier *)

Section Classifier.

Lemma in_list_In (x : string) (xs : list string) :
  in_list x xs = true <-> In x xs.
Proof.
  unfold in_list. rewrite existsb_exists. split.
  - intros (y & I & E). apply String.eqb_eq in E. now subst.
  - intros I. exists x. split; [exact I | apply String.eqb_refl].
Qed.

Lemma is_text_file_ext (fl : PathFlavour) (p : string) :
  _is_text_file fl p = in_list (lower (snd (splitext fl p))) text_extensions.
Proof. unfold _is_text_file. now destruct (splitext fl p). Qed.

Lemma in_list_dotted (e : string) :
  in_list (lower (String extsep e)) text_extensions
  = in_list (lower e) scannable_extensions.
Proof. reflexivity. Qed.

Lemma is_text_file_iff (fl : PathFlavour) (p : string) :
  _is_text_file fl p = true
  <-> exists e, has_extension fl p e /\ In (lower e) scannable_extensions.
Proof.
  rewrite is_text_file_ext. split.
  - intros H. destruct (splitext_ext_cases fl p) as [E|(e & E & X)];
      rewrite E in H.
    + discriminate.
    + exists e. split; [exact X|]. apply in_list_In.
      now rewrite <- in_list_dotted.
  - intros (e & X & I). rewrite (splitext_has_extension fl p e X).
    rewrite in_list_dotted. now apply in_list_In.
Qed.

(** A path that ends in ".eml" is never a text file. *)
Lemma eml_not_text_file (fl : PathFlavour) (stem : string) :
  _is_text_file fl (stem ++ ".eml") = false.
Proof.
  rewrite is_text_file_ext, splitext_unfold.
  assert (rfind extsep (stem ++ ".eml") = Z.of_nat (String.length stem)) as D.
  { unfold rfind. rewrite rfind_from_last; [lia | lia | reflexivity]. }
  rewrite D. destruct (_ && _); [|reflexivity].
  cbn [snd]. now rewrite slice_tail.
Qed.

End Classifier.

(* ===================================================================== *)
(** * Running the monitor's methods                                       *)
(* ===================================================================== *)

Section Runs.

Lemma add_logs_nil (w : World) : add_logs [] w = w.
Proof. destruct w. unfold add_logs. simpl. now rewrite app_nil_r. Qed.

Lemma add_logs_add_logs (a b : list LogRecord) (w : World) :
  add_logs b (add_logs a w) = add_logs (a ++ b) w.
Proof. unfold add_logs. simpl. now rewrite app_assoc. Qed.


Lemma logger_info_run (msg : string) (w : World) :
  logger_info msg w
  = (Returns tt, add_logs [ {| levelname := INFO; message := msg |} ] w).
Proof. reflexivity. Qed.

Lemma logger_warning_run (msg : string) (w : World) :
  logger_warning msg w
  = (Returns tt, add_logs [ {| levelname := WARNING; message := msg |} ] w).
Proof. reflexivity. Qed.

Lemma logger_error_run (msg : string) (w : World) :
  logger_error msg w
  = (Returns tt, add_logs [ {| levelname := ERROR; message := msg |} ] w).
Proof. reflexivity. Qed.

Lemma log_alert_app (l : Logger) (level msg : string) :
  log_alert l level msg = (l ++ [alert_record level msg])%list.
Proof.
  unfold alert_record, log_alert.
  destruct (String.eqb (lower level) "low"); [reflexivity|].
  destruct (String.eqb (lower level) "medium"); [reflexivity|].
  destruct (String.eqb (lower level) "high"); reflexivity.
Qed.

Lemma log_alert_run (level msg : string) (w : World) :
  log_alert_ level msg w = (Returns tt, add_logs [alert_record level msg] w).
Proof.
  unfold log_alert_, with_logger, add_logs. now rewrite log_alert_app.
Qed.

Lemma log_activity_run (ty details : string) (w : World) :
  log_activity_ ty details w
  = (Returns tt, add_logs [activity_record ty details] w).
Proof. reflexivity. Qed.

Lemma for_each_keyword_warning (ms : list KeywordMatch) :
  forall w,
    for_each ms (fun mt =>
      logger_warning ("  Keyword: " ++ keyword mt ++ " at line "
                      ++ str_of_nat (line mt))) w
    = (Returns tt, add_logs (map keyword_warning ms) w).
Proof.
  induction ms as [|mt ms IH]; intros w; simpl.
  - unfold ret. now rewrite add_logs_nil.
  - unfold bind at 1. rewrite logger_warning_run, IH, add_logs_add_logs.
    reflexivity.
Qed.

Lemma check_file_run (file_path : string) (w : World) :
  check_file_for_sensitive_data file_path w
  = (Returns (check_result w file_path),
     add_logs (check_logs w file_path) w).
Proof.
  unfold check_file_for_sensitive_data, check_result, check_logs, scan.
  unfold bind at 1. unfold path_exists.
  destruct (fs w file_path) as [|why|text] eqn:F; cbn [negb].
  - unfold bind, ret. now rewrite logger_warning_run.
  - unfold bind at 1.
    destruct (_is_text_file (flavour w) file_path); cbn [negb].
    + unfold try_except, bind at 1, get_self. unfold bind at 1, read_lines.
      rewrite F. unfold bind, ret. now rewrite logger_error_run.
    + unfold ret. now rewrite add_logs_nil.
  - unfold bind at 1.
    destruct (_is_text_file (flavour w) file_path); cbn [negb].
    + unfold try_except, bind at 1, get_self. unfold bind at 1, read_lines.
      rewrite F.
      destruct (scan_lines (keywords_pattern (self w)) (readlines text))
        as [|mt ms] eqn:S.
      * unfold ret. now rewrite add_logs_nil.
      * unfold bind at 1. rewrite logger_warning_run.
        unfold bind at 1. rewrite for_each_keyword_warning.
        unfold ret, found_logs. now rewrite add_logs_add_logs.
    + unfold ret. now rewrite add_logs_nil.
Qed.

Lemma check_result_add_logs (l : list LogRecord) (w : World) (p : string) :
  check_result (add_logs l w) p = check_result w p.
Proof. reflexivity. Qed.

Lemma check_logs_add_logs (l : list LogRecord) (w : World) (p : string) :
  check_logs (add_logs l w) p = check_logs w p.
Proof. reflexivity. Qed.

(** Both sides log the same records, up to the grouping of [++]. *)
Ltac same_logs :=
  unfold ret; rewrite ?add_logs_add_logs; rewrite ?add_logs_nil;
  repeat f_equal; rewrite <- ?app_assoc; cbn [app];
  rewrite ?app_nil_r; reflexivity.

Lemma exfiltration_check_run (p a : string) (w : World) :
  exfiltration_check p a w
  = (Returns (if created_or_modified a && fst (check_result w p)
                 && usb_detected (self w)
              then Some block_exfiltration else None),
     add_logs (exfiltration_logs w p a) w).
Proof.
  unfold exfiltration_check, exfiltration_logs, created_or_modified.
  destruct (in_list a ["created"; "modified"]); cbn [andb].
  - unfold bind at 1. rewrite check_file_run.
    destruct (fst (check_result w p)); cbn [andb].
    + unfold bind at 1, get_self at 1. unfold bind at 1.
      rewrite log_alert_run. unfold bind at 1, get_self.
      cbn [self add_logs].
      destruct (usb_detected (self w)).
      * unfold bind. rewrite logger_error_run. same_logs.
      * same_logs.
    + same_logs.
  - same_logs.
Qed.

(** [handle_file_access] returns [decision_of] and logs [logs_of]: it
    never raises, and touches nothing but the logger. *)
Lemma handle_file_access_run (p a : string) (w : World) :
  handle_file_access p a w
  = (Returns (decision_of w p a), add_logs (logs_of w p a) w).
Proof.
  unfold handle_file_access, decision_of, logs_of, email_logs.
  fold (email_name p).
  unfold bind at 1. rewrite logger_info_run.
  unfold bind at 1. rewrite log_activity_run.
  unfold bind at 1. rewrite exfiltration_check_run.
  rewrite !add_logs_add_logs.
  change (check_result (add_logs _ w) p) with (check_result w p).
  change (self (add_logs _ w)) with (self w).
  change (exfiltration_logs (add_logs _ w) p a)
    with (exfiltration_logs w p a).
  destruct (created_or_modified a && fst (check_result w p)
            && usb_detected (self w)).
  - same_logs.
  - destruct (email_name p); cbn [andb].
    + unfold bind at 1. rewrite check_file_run.
      change (check_result (add_logs _ w) p) with (check_result w p).
      change (check_logs (add_logs _ w) p) with (check_logs w p).
      destruct (fst (check_result w p)).
      * unfold bind at 1. rewrite log_alert_run.
        unfold bind. rewrite logger_error_run. same_logs.
      * same_logs.
    + same_logs.
Qed.

End Runs.

(* ===================================================================== *)
(** * The keyword scan of a file's content                                *)
(* ===================================================================== *)

Section Scan.

Variable K : list string.

Lemma enumerate_In {A} (xs : list A) :
  forall start n x,
    In (n, x) (enumerate xs start) ->
    start <= n /\ nth_error xs (n - start) = Some x.
Proof.
  induction xs as [|y xs IH]; intros start n x H; simpl in H; [contradiction|].
  destruct H as [E|H].
  - inversion E; subst. rewrite Nat.sub_diag. split; [lia | reflexivity].
  - apply IH in H as [L N]. split; [lia|].
    replace (n - start) with (S (n - S start)) by lia. exact N.
Qed.

Lemma occurrences_In (s : string) (p : nat) (m : string) :
  In (p, m) (occurrences K s) ->
  exists k, In k K /\ occurs_at k s p = true
            /\ m = String.substring p (String.length k) s.
Proof.
  unfold occurrences. rewrite in_flat_map. intros (q & _ & H).
  rewrite in_flat_map in H. destruct H as (k & Hk & H).
  destruct (occurs_at k s q) eqn:O; simpl in H; [|contradiction].
  destruct H as [E|[]]. inversion E; subst. now exists k.
Qed.

Lemma finditer_In (s : string) (o : nat * string) :
  In o (finditer K s) -> In o (occurrences K s).
Proof.
  intros H. rewrite <- occurrences_from_0.
  now apply finditer_from_sound with (skip := 0).
Qed.

Lemma scan_In (content : string) (mt : KeywordMatch) :
  In mt (scan K content) ->
  exists l p k,
    1 <= line mt
    /\ nth_error (readlines content) (line mt - 1) = Some l
    /\ context mt = strip l
    /\ In k K
    /\ occurs_at k l p = true
    /\ keyword mt = String.substring p (String.length k) l.
Proof.
  unfold scan, scan_lines. rewrite in_flat_map.
  intros ([n l] & E & H). apply enumerate_In in E as [L N].
  unfold line_matches in H. rewrite in_map_iff in H.
  destruct H as ([p m] & <- & H). apply finditer_In in H.
  apply occurrences_In in H as (k & Hk & O & ->).
  exists l, p, k. simpl. repeat split; assumption.
Qed.

Lemma flat_map_nil {A B} (f : A -> list B) (xs : list A) :
  flat_map f xs = [] <-> forall x, In x xs -> f x = [].
Proof.
  induction xs as [|x xs IH]; simpl.
  - split; [intros _ ? [] | reflexivity].
  - split.
    + intros H. apply app_eq_nil in H as [H1 H2].
      intros y [<-|I]; [exact H1 | now apply IH].
    + intros H. rewrite (H x (or_introl eq_refl)). simpl.
      apply IH. intros y I. apply H. now right.
Qed.

Lemma enumerate_snd {A} (xs : list A) :
  forall start, map snd (enumerate xs start) = xs.
Proof.
  induction xs as [|x xs IH]; intros start; simpl;
    [reflexivity | now rewrite IH].
Qed.

Lemma scan_nil_iff_lines (content : string) :
  scan K content = []
  <-> forall l, In l (readlines content) -> occurrences K l = [].
Proof.
  unfold scan, scan_lines. rewrite flat_map_nil. split.
  - intros H l I. rewrite <- (enumerate_snd (readlines content) 1) in I.
    apply in_map_iff in I as ([n l'] & <- & I). specialize (H _ I).
    simpl in *. apply finditer_nil_iff.
    destruct (finditer K l'); [reflexivity | discriminate].
  - intros H [n l] I. simpl.
    assert (In l (readlines content)) as I'.
    { rewrite <- (enumerate_snd (readlines content) 1).
      apply in_map_iff. now exists (n, l). }
    apply H, finditer_nil_iff in I'. now rewrite I'.
Qed.

Lemma one_match_nil_iff_lines (content : string) :
  one_match_per_occurrence K content = []
  <-> forall l, In l (readlines content) -> occurrences K l = [].
Proof.
  unfold one_match_per_occurrence. rewrite flat_map_nil. split.
  - intros H l I. rewrite <- (enumerate_snd (readlines content) 1) in I.
    apply in_map_iff in I as ([n l'] & <- & I). specialize (H _ I).
    simpl in *. destruct (occurrences K l'); [reflexivity | discriminate].
  - intros H [n l] I. simpl.
    assert (In l (readlines content)) as I'.
    { rewrite <- (enumerate_snd (readlines content) 1).
      apply in_map_iff. now exists (n, l). }
    now rewrite (H _ I').
Qed.

Lemma scan_nil_iff_keyword (content : string) :
  scan K content = [] <-> content_has_keyword K content = false.
Proof.
  rewrite scan_nil_iff_lines. unfold content_has_keyword. split.
  - intros H. destruct (existsb _ _) eqn:E; [|reflexivity].
    apply existsb_exists in E as (l & I & N). now rewrite (H l I) in N.
  - intros H l I.
    destruct (occurrences K l) as [|o os] eqn:O; [reflexivity|].
    assert (existsb
              (fun l => negb (List.length (occurrences K l) =? 0)%nat)
              (readlines content) = true) as E.
    { apply existsb_exists. exists l. split; [exact I|]. now rewrite O. }
    rewrite E in H. discriminate.
Qed.

Lemma scan_select (content : string) :
  forallb (fun k => negb (is_empty k)) K = true ->
  scan K content = one_match_per_kept_occurrence K content.
Proof.
  intros NE. unfold scan, scan_lines, one_match_per_kept_occurrence.
  apply flat_map_ext. intros [n l]. unfold line_matches. simpl.
  now rewrite (finditer_select K NE l).
Qed.

Lemma scan_exact (content : string) :
  forallb (fun k => negb (is_empty k)) K = true ->
  forallb (fun l => no_overlap (occurrences K l)) (readlines content) = true ->
  scan K content = one_match_per_occurrence K content.
Proof.
  intros NE NO. unfold scan, scan_lines, one_match_per_occurrence.
  generalize 1 as start. revert NO.
  induction (readlines content) as [|l ls IH]; intros NO start; simpl;
    [reflexivity|].
  simpl in NO. apply andb_prop in NO as [N1 N2].
  rewrite (IH N2). f_equal.
  now rewrite (finditer_exact K NE l N1).
Qed.

End Scan.

(* ===================================================================== *)
(** * A keyword in the content is a keyword on a line                     *)
(* ===================================================================== *)

Section Lines.

Lemma substring_split (s : string) :
  forall p n, p + n <= String.length s ->
    exists pre post,
      s = (pre ++ String.substring p n s ++ post)%string
      /\ String.length pre = p
      /\ String.length (String.substring p n s) = n.
Proof.
  induction s as [|c s IH]; intros p n L; simpl in L.
  - assert (p = 0) as -> by lia. assert (n = 0) as -> by lia.
    exists ""%string, ""%string. now repeat split.
  - destruct p as [|p].
    + destruct n as [|n].
      * exists ""%string, (String c s). now repeat split.
      * destruct (IH 0 n) as (pre & post & E & Lp & Ln); [lia|].
        destruct pre; [|discriminate]. simpl in E.
        exists ""%string, post. simpl. rewrite Ln.
        repeat split. now rewrite <- E.
    + destruct (IH p n) as (pre & post & E & Lp & Ln); [lia|].
      exists (String c pre), post. simpl. rewrite Lp, Ln.
      repeat split. now rewrite <- E.
Qed.

Lemma is_linebreak_lower (c : ascii) :
  is_linebreak (chr_lower c) = is_linebreak c.
Proof.
  destruct c as [[] [] [] [] [] [] [] []]; vm_compute; reflexivity.
Qed.

Lemma has_linebreak_lower (s : string) :
  has_chr is_linebreak (lower s) = has_chr is_linebreak s.
Proof.
  induction s as [|c s IH]; simpl; [reflexivity|].
  now rewrite is_linebreak_lower, IH.
Qed.

(** Newline translation leaves a text without line breaks alone ... *)
Lemma universal_newlines_plain (m rest : string) :
  has_chr is_linebreak m = false ->
  universal_newlines (m ++ rest) = (m ++ universal_newlines rest)%string.
Proof.
  induction m as [|c m IH]; intros H; [reflexivity|].
  simpl in H. apply orb_false_elim in H as [Hc Hm].
  unfold is_linebreak in Hc. apply orb_false_elim in Hc as [Hcr _].
  change (String c m ++ rest)%string with (String c (m ++ rest)).
  cbn [universal_newlines]. rewrite Hcr. cbn [append]. now rewrite IH.
Qed.

(** ... and translates what stands before a text that does not begin
    with a line feed without looking at that text. *)
Lemma universal_newlines_before (c : ascii) (rest : string) :
  Ascii.eqb c LF = false ->
  forall pre,
    (exists pre', universal_newlines (pre ++ String c rest)
                  = (pre' ++ universal_newlines (String c rest))%string)
    /\ forall d,
        exists pre', universal_newlines (String d pre ++ String c rest)
                     = (pre' ++ universal_newlines (String c rest))%string.
Proof.
  intros Hc. induction pre as [|x pre [IH1 IH2]].
  - split; [now exists ""%string|]. intros d.
    change (String d "" ++ String c rest)%string
      with (String d (String c rest)).
    cbn [universal_newlines]. destruct (Ascii.eqb d CR).
    + rewrite Hc. now exists (String LF "").
    + now exists (String d "").
  - split; [apply IH2|]. intros d.
    change (String d (String x pre) ++ String c rest)%string
      with (String d (String x (pre ++ String c rest))).
    cbn [universal_newlines]. destruct (Ascii.eqb d CR).
    + destruct (Ascii.eqb x LF).
      * destruct IH1 as (pre' & ->). now exists (String LF pre').
      * destruct (IH2 x) as (pre' & E). cbn [append] in E.
        cbn [universal_newlines] in E. rewrite E.
        now exists (String LF pre').
    + destruct (IH2 x) as (pre' & E). cbn [append] in E.
      cbn [universal_newlines] in E. rewrite E.
      now exists (String d pre').
Qed.

(** A text free of line feeds begins a line with its first character
    and stays on that line. *)
Lemma split_lines_plain (m rest : string) :
  m <> ""%string ->
  has_chr is_linebreak m = false ->
  exists l2 ls, split_lines (m ++ rest) = (m ++ l2)%string :: ls.
Proof.
  induction m as [|c m IH]; intros N H; [contradiction|].
  simpl in H. apply orb_false_elim in H as [Hc Hm].
  unfold is_linebreak in Hc. apply orb_false_elim in Hc as [_ Hlf].
  change (String c m ++ rest)%string with (String c (m ++ rest)).
  cbn [split_lines]. rewrite Hlf.
  destruct m as [|d m].
  - simpl. destruct (split_lines rest) as [|l ls].
    + now exists ""%string, [].
    + now exists l, ls.
  - destruct IH as (l2 & ls & ->); [discriminate | exact Hm|].
    now exists l2, ls.
Qed.

Lemma split_lines_within (m rest : string) :
  m <> ""%string ->
  has_chr is_linebreak m = false ->
  forall pre,
    exists l1 l2, In (l1 ++ m ++ l2)%string (split_lines (pre ++ m ++ rest)).
Proof.
  intros N H. induction pre as [|x pre (l1 & l2 & IH)].
  - destruct (split_lines_plain m rest N H) as (l2 & ls & E).
    exists ""%string, l2. simpl. rewrite E. now left.
  - change (String x pre ++ m ++ rest)%string
      with (String x (pre ++ m ++ rest)).
    cbn [split_lines]. destruct (Ascii.eqb x LF).
    + exists l1, l2. now right.
    + destruct (split_lines (pre ++ m ++ rest)) as [|l ls];
        [contradiction|].
      destruct IH as [->|I].
      * exists (String x l1), l2. now left.
      * exists l1, l2. now right.
Qed.

Lemma occurs_at_within (k l1 m l2 : string) :
  String.length m = String.length k ->
  lower m = lower k ->
  occurs_at k (l1 ++ m ++ l2) (String.length l1) = true.
Proof.
  intros L E. unfold occurs_at. apply andb_true_intro. split.
  - apply Nat.leb_le. rewrite !length_append. lia.
  - rewrite substring_append_skip, <- L, substring_prefix.
    now apply String.eqb_eq.
Qed.

Lemma occurrences_present (K : list string) (k s : string) (p : nat) :
  In k K -> occurs_at k s p = true -> occurrences K s <> [].
Proof.
  intros Hk O.
  assert (In (p, String.substring p (String.length k) s) (occurrences K s))
    as I.
  { unfold occurrences. apply in_flat_map. exists p. split.
    - apply in_seq. unfold occurs_at in O. apply andb_prop in O as [O _].
      apply Nat.leb_le in O. lia.
    - apply in_flat_map. exists k. split; [exact Hk|].
      rewrite O. now left. }
  intros E. now rewrite E in I.
Qed.

(** A non-empty keyword without line breaks that occurs in the content
    occurs on one of its lines. *)
Lemma keyword_in_content_on_a_line (K : list string) (k content : string) :
  In k K ->
  k <> ""%string ->
  has_chr is_linebreak k = false ->
  occurs_in k content = true ->
  content_has_keyword K content = true.
Proof.
  intros Hk N H O. unfold occurs_in in O.
  apply existsb_exists in O as (p & _ & O).
  pose proof O as O'. unfold occurs_at in O'.
  apply andb_prop in O' as [L E]. apply Nat.leb_le in L.
  apply String.eqb_eq in E.
  destruct (substring_split content p (String.length k) L)
    as (pre & post & C & _ & Lm).
  set (m := String.substring p (String.length k) content) in *.
  assert (has_chr is_linebreak m = false) as Hm
    by now rewrite <- has_linebreak_lower, E, has_linebreak_lower.
  assert (m <> ""%string) as Nm.
  { intros Z. rewrite Z in Lm. destruct k; [contradiction | discriminate]. }
  assert (exists pre' post',
             universal_newlines content = (pre' ++ m ++ post')%string)
    as (pre' & post' & U).
  { rewrite C. destruct m as [|c m'] eqn:Em; [contradiction|].
    assert (Ascii.eqb c LF = false) as Hc.
    { simpl in Hm. apply orb_false_elim in Hm as [Hc _].
      unfold is_linebreak in Hc. now apply orb_false_elim in Hc as [_ Hc]. }
    destruct (universal_newlines_before c (m' ++ post) Hc pre)
      as [(pre' & U) _].
    exists pre', (universal_newlines post).
    change (String c m' ++ post)%string with (String c (m' ++ post)).
    rewrite U.
    change (String c (m' ++ post)) with (String c m' ++ post)%string.
    now rewrite universal_newlines_plain. }
  destruct (split_lines_within m post' Nm Hm pre') as (l1 & l2 & I).
  unfold content_has_keyword, readlines. rewrite U.
  apply existsb_exists. exists (l1 ++ m ++ l2)%string. split; [exact I|].
  pose proof (occurrences_present K k _ _ Hk
                (occurs_at_within k l1 m l2 Lm E)) as P.
  destruct (occurrences K (l1 ++ m ++ l2)); [contradiction | reflexivity].
Qed.

End Lines.

(* ===================================================================== *)
(** * What the log of a call holds                                        *)
(* ===================================================================== *)

Section Logs.

Lemma filter_alert_found_logs (p : string) (ms : list KeywordMatch) :
  filter is_alert (found_logs p ms) = [].
Proof.
  unfold found_logs. simpl. induction ms as [|mt ms IH]; simpl; auto.
Qed.

Lemma filter_activity_found_logs (p : string) (ms : list KeywordMatch) :
  filter is_activity (found_logs p ms) = [].
Proof.
  unfold found_logs. simpl. induction ms as [|mt ms IH]; simpl; auto.
Qed.

Lemma filter_alert_check_logs (w : World) (p : string) :
  filter is_alert (check_logs w p) = [].
Proof.
  unfold check_logs.
  destruct (fs w p); [reflexivity | |];
    destruct (_is_text_file (flavour w) p); try reflexivity.
  destruct (scan _ _) eqn:S; [reflexivity|]. apply filter_alert_found_logs.
Qed.

Lemma filter_activity_check_logs (w : World) (p : string) :
  filter is_activity (check_logs w p) = [].
Proof.
  unfold check_logs.
  destruct (fs w p); [reflexivity | |];
    destruct (_is_text_file (flavour w) p); try reflexivity.
  destruct (scan _ _) eqn:S; [reflexivity|]. apply filter_activity_found_logs.
Qed.

Lemma alert_record_not_activity (level msg : string) :
  is_activity (alert_record level msg) = false.
Proof.
  unfold alert_record, log_alert.
  destruct (String.eqb (lower level) "low"); [reflexivity|].
  destruct (String.eqb (lower level) "medium"); [reflexivity|].
  destruct (String.eqb (lower level) "high"); reflexivity.
Qed.

Lemma activity_record_is_activity (a p : string) :
  is_activity (activity_record a p) = true.
Proof.
  unfold is_activity, activity_record. simpl.
  match goal with |- String.prefix "" ?s = true => now destruct s end.
Qed.

(** A call of [handle_file_access] adds one activity entry, its own. *)
Lemma filter_activity_logs_of (w : World) (p a : string) :
  filter is_activity (logs_of w p a) = [activity_record a p].
Proof.
  unfold logs_of. cbn [filter]. 
  change (is_activity {| levelname := INFO;
                         message := "File " ++ a ++ ": " ++ p |}) with false.
  rewrite activity_record_is_activity. f_equal. rewrite filter_app.
  assert (filter is_activity (exfiltration_logs w p a) = []) as ->.
  { unfold exfiltration_logs. destruct (created_or_modified a); [|reflexivity].
    rewrite filter_app, filter_activity_check_logs.
    destruct (fst (check_result w p)); [|reflexivity].
    cbn [filter app]. rewrite alert_record_not_activity.
    destruct (usb_detected (self w)); reflexivity. }
  unfold email_logs.
  destruct (_ && _); [reflexivity|].
  destruct (email_name p); [|reflexivity].
  rewrite filter_app, filter_activity_check_logs.
  destruct (fst (check_result w p)); [|reflexivity].
  cbn [filter app]. now rewrite alert_record_not_activity.
Qed.

Lemma check_result_found (w : World) (p text : string) :
  _is_text_file (flavour w) p = true ->
  fs w p = Content text ->
  content_has_keyword (keywords_pattern (self w)) text = true ->
  check_result w p = (true, scan (keywords_pattern (self w)) text)
  /\ check_logs w p = found_logs p (scan (keywords_pattern (self w)) text).
Proof.
  intros T F C. unfold check_result, check_logs. rewrite F, T.
  destruct (scan _ text) eqn:S; [|now split].
  apply scan_nil_iff_keyword in S. rewrite S in C. discriminate.
Qed.

Lemma created_or_modified_iff (a : string) :
  created_or_modified a = true <-> a = "created" \/ a = "modified".
Proof.
  unfold created_or_modified. rewrite in_list_In. simpl.
  intuition congruence.
Qed.

End Logs.

(* ===================================================================== *)
(** * The decision engine                                                 *)
(* ===================================================================== *)

Section Decisions.

(** C1. A created or modified file with a scannable extension whose
    content holds a sensitive keyword, while the removable-media flag is
    set: [handle_file_access] emits the High alert and returns the
    decision block / "Potential data exfiltration detected" / high. The
    alerts it logs are that High alert and the exfiltration error line. *)
Theorem usb_sensitive_write_is_blocked (w : World) (p a text : string) :
  a = "created" \/ a = "modified" ->
  _is_text_file (flavour w) p = true ->
  fs w p = Content text ->
  content_has_keyword (keywords_pattern (self w)) text = true ->
  usb_detected (self w) = true ->
  exists new,
    handle_file_access p a w
    = (Returns {| action := "block";
                  reason := "Potential data exfiltration detected";
                  alert_level := "high" |},
       add_logs new w)
    /\ filter is_alert new
       = [ {| levelname := ERROR;
              message := "ALERT (HIGH): Sensitive data found in file: " ++ p |};
           {| levelname := ERROR; message := exfiltration_message |} ].
Proof.
  intros A T F C U. apply created_or_modified_iff in A.
  destruct (check_result_found w p text T F C) as [R L].
  exists (logs_of w p a). split.
  - rewrite handle_file_access_run. unfold decision_of.
    now rewrite A, R, U.
  - unfold logs_of, exfiltration_logs, email_logs.
    rewrite A, R, L, U. cbn [fst andb].
    cbn [filter]. 
    change (is_alert {| levelname := INFO;
                        message := "File " ++ a ++ ": " ++ p |}) with false.
    change (is_alert (activity_record a p)) with false.
    cbv iota. rewrite app_nil_r, filter_app, filter_alert_found_logs.
    reflexivity.
Qed.

Lemma usb_sensitive_write_is_blocked_witness :
  exists new,
    handle_file_access "notes.txt" "created" (Examples.world true)
    = (Returns {| action := "block";
                  reason := "Potential data exfiltration detected";
                  alert_level := "high" |},
       add_logs new (Examples.world true))
    /\ filter is_alert new
       = [ {| levelname := ERROR;
              message := "ALERT (HIGH): Sensitive data found in file: "
                         ++ "notes.txt" |};
           {| levelname := ERROR; message := exfiltration_message |} ].
Proof.
  apply (usb_sensitive_write_is_blocked (Examples.world true) "notes.txt"
           "created" "this is confidential").
  - left; reflexivity.
  - reflexivity.
  - reflexivity.
  - reflexivity.
  - reflexivity.
Defined.

(** C2. The same event while the removable-media flag is clear, on a
    path that does not pass the e-mail test: exactly one alert is
    logged, the Medium one, and the decision is allow / "No threat
    detected" / low. *)
Theorem sensitive_write_without_usb_is_allowed (w : World) (p a text : string) :
  a = "created" \/ a = "modified" ->
  _is_text_file (flavour w) p = true ->
  fs w p = Content text ->
  content_has_keyword (keywords_pattern (self w)) text = true ->
  usb_detected (self w) = false ->
  email_name p = false ->
  exists new,
    handle_file_access p a w
    = (Returns {| action := "allow"; reason := "No threat detected";
                  alert_level := "low" |},
       add_logs new w)
    /\ filter is_alert new
       = [ {| levelname := WARNING;
              message := "ALERT (MEDIUM): Sensitive data found in file: "
                         ++ p |} ].
Proof.
  intros A T F C U E. apply created_or_modified_iff in A.
  destruct (check_result_found w p text T F C) as [R L].
  exists (logs_of w p a). split.
  - rewrite handle_file_access_run. unfold decision_of.
    now rewrite A, R, U, E.
  - unfold logs_of, exfiltration_logs, email_logs.
    rewrite A, R, L, U, E. cbn [fst andb].
    cbn [filter].
    change (is_alert {| levelname := INFO;
                        message := "File " ++ a ++ ": " ++ p |}) with false.
    change (is_alert (activity_record a p)) with false.
    cbv iota. rewrite app_nil_r, filter_app, filter_alert_found_logs.
    reflexivity.
Qed.

Lemma sensitive_write_without_usb_is_allowed_witness :
  exists new,
    handle_file_access "notes.txt" "created" (Examples.world false)
    = (Returns {| action := "allow"; reason := "No threat detected";
                  alert_level := "low" |},
       add_logs new (Examples.world false))
    /\ filter is_alert new
       = [ {| levelname := WARNING;
              message := "ALERT (MEDIUM): Sensitive data found in file: "
                         ++ "notes.txt" |} ].
Proof.
  apply (sensitive_write_without_usb_is_allowed (Examples.world false)
           "notes.txt" "created" "this is confidential").
  - left; reflexivity.
  - reflexivity.
  - reflexivity.
  - reflexivity.
  - reflexivity.
  - reflexivity.
Defined.

(** C3. The code at the failing input. The path "leak.eml" passes the
    e-mail test, the file exists, its content "my password" holds the
    keyword "password", and the removable-media flag is clear, so the
    first branch has not returned its block. The claim asks for a High
    alert and the e-mail block; [handle_file_access] returns allow and
    logs no alert, because [check_file_for_sensitive_data] answers
    (False, []) without reading the file: ".eml", which the e-mail test
    looks for, is not one of the text extensions. A path that passes the
    e-mail test with a text extension, "email_draft.txt", is blocked as
    the claim says. *)
Theorem eml_leak_is_allowed :
  let w := Examples.world false in
  email_name "leak.eml" = true
  /\ fs w "leak.eml" = Content "my password"
  /\ map keyword (scan (keywords_pattern (self w)) "my password")
     = [ "password" ]
  /\ usb_detected (self w) = false
  /\ _is_text_file (flavour w) "leak.eml" = false
  /\ check_file_for_sensitive_data "leak.eml" w = (Returns (false, []), w)
  /\ handle_file_access "leak.eml" "created" w
     = (Returns {| action := "allow"; reason := "No threat detected";
                   alert_level := "low" |},
        add_logs
          [ {| levelname := INFO; message := "File created: leak.eml" |};
            {| levelname := INFO;
               message := "ACTIVITY: created - leak.eml" |} ]
          w)
  /\ fst (handle_file_access "email_draft.txt" "created" w)
     = Returns {| action := "block";
                  reason := "Potential email data leak detected";
                  alert_level := "high" |}.
Proof.
  cbv zeta. repeat split; vm_compute; reflexivity.
Qed.


(** C10. On a path whose extension is not in the allow-list,
    [check_file_for_sensitive_data] returns [(False, [])] whatever the
    file holds, and [handle_file_access] returns allow / "No threat
    detected" / low for every event, whatever the removable-media flag;
    the e-mail block is returned only for a path that passes the e-mail
    test and has a scannable extension; a path that ends in ".eml" has
    none. *)
Theorem unscannable_path_is_always_allowed (w : World) (p : string) :
  (_is_text_file (flavour w) p = false ->
   fst (check_file_for_sensitive_data p w) = Returns (false, [])
   /\ forall a,
        fst (handle_file_access p a w)
        = Returns {| action := "allow"; reason := "No threat detected";
                     alert_level := "low" |})
  /\ (forall a,
        fst (handle_file_access p a w)
        = Returns {| action := "block";
                     reason := "Potential email data leak detected";
                     alert_level := "high" |} ->
        email_name p = true /\ _is_text_file (flavour w) p = true)
  /\ (forall stem, _is_text_file (flavour w) (stem ++ ".eml") = false).
Proof.
  split; [|split].
  - intros T.
    assert (check_result w p = (false, [])) as R.
    { unfold check_result. rewrite T. now destruct (fs w p). }
    split.
    + now rewrite check_file_run, <- R.
    + intros a. rewrite handle_file_access_run. unfold decision_of.
      rewrite R. cbn [fst]. now rewrite !andb_false_r.
  - intros a. rewrite handle_file_access_run. unfold decision_of. cbn [fst].
    destruct (created_or_modified a && fst (check_result w p)
              && usb_detected (self w)); [discriminate|].
    destruct (email_name p); [|discriminate]. cbn [andb].
    destruct (fst (check_result w p)) eqn:R; [|discriminate].
    intros _. split; [reflexivity|].
    unfold check_result in R.
    destruct (_is_text_file (flavour w) p); [reflexivity|].
    now destruct (fs w p).
  - intros stem. apply eml_not_text_file.
Qed.

Lemma unscannable_path_is_always_allowed_witness :
  fst (check_file_for_sensitive_data "leak.eml" (Examples.world true))
  = Returns (false, [])
  /\ forall a,
       fst (handle_file_access "leak.eml" a (Examples.world true))
       = Returns {| action := "allow"; reason := "No threat detected";
                    alert_level := "low" |}.
Proof.
  apply (unscannable_path_is_always_allowed (Examples.world true) "leak.eml").
  reflexivity.
Defined.

(** C6. When the file is missing, or opening or reading it fails,
    [check_file_for_sensitive_data] returns [(False, [])]; and
    [handle_file_access] returns a decision, it never raises, whatever
    is at the path. *)
Theorem missing_or_unreadable_file_is_negative (w : World) (p : string) :
  fs w p = Missing \/ (exists why, fs w p = Unreadable why) ->
  fst (check_file_for_sensitive_data p w) = Returns (false, [])
  /\ forall a, exists d, fst (handle_file_access p a w) = Returns d.
Proof.
  intros H. split.
  - rewrite check_file_run. cbn [fst]. unfold check_result.
    destruct H as [-> | (why & ->)]; reflexivity.
  - intros a. exists (decision_of w p a). now rewrite handle_file_access_run.
Qed.

Lemma missing_or_unreadable_file_is_negative_witness :
  fst (check_file_for_sensitive_data "locked.txt" (Examples.world true))
  = Returns (false, [])
  /\ forall a, exists d,
       fst (handle_file_access "locked.txt" a (Examples.world true))
       = Returns d.
Proof.
  apply (missing_or_unreadable_file_is_negative (Examples.world true)
           "locked.txt").
  right. eexists. reflexivity.
Defined.

(** C8. A move of a file makes the handler process two events, the
    "moved from" event of the source path first and the "moved to"
    event of the destination path after it has returned; the activity
    entries logged are MovedFrom(source) then MovedTo(destination). *)
Theorem move_logs_source_then_destination (w : World) (event : FileSystemEvent) :
  is_directory event = false ->
  exists d1 w1 d2 w2 new,
    handle_file_access (src_path event) "moved from" w = (Returns d1, w1)
    /\ handle_file_access (dest_path event) "moved to" w1 = (Returns d2, w2)
    /\ on_moved event w = (Returns tt, w2)
    /\ logger w2 = (logger w ++ new)%list
    /\ filter is_activity new
       = [ {| levelname := INFO;
              message := "ACTIVITY: moved from - " ++ src_path event |};
           {| levelname := INFO;
              message := "ACTIVITY: moved to - " ++ dest_path event |} ].
Proof.
  intros D.
  exists (decision_of w (src_path event) "moved from"),
         (add_logs (logs_of w (src_path event) "moved from") w),
         (decision_of w (dest_path event) "moved to"),
         (add_logs (logs_of w (src_path event) "moved from"
                    ++ logs_of w (dest_path event) "moved to") w),
         (logs_of w (src_path event) "moved from"
          ++ logs_of w (dest_path event) "moved to")%list.
  repeat split.
  - apply handle_file_access_run.
  - rewrite handle_file_access_run, add_logs_add_logs. reflexivity.
  - unfold on_moved. rewrite D. cbn [negb].
    unfold bind at 1. rewrite handle_file_access_run.
    unfold bind at 1. rewrite handle_file_access_run, add_logs_add_logs.
    reflexivity.
  - rewrite filter_app, !filter_activity_logs_of. reflexivity.
Qed.

Lemma move_logs_source_then_destination_witness :
  exists d1 w1 d2 w2 new,
    handle_file_access "a.txt" "moved from" (Examples.world false)
    = (Returns d1, w1)
    /\ handle_file_access "b.txt" "moved to" w1 = (Returns d2, w2)
    /\ on_moved {| is_directory := false; src_path := "a.txt";
                   dest_path := "b.txt" |} (Examples.world false)
       = (Returns tt, w2)
    /\ logger w2 = (logger (Examples.world false) ++ new)%list
    /\ filter is_activity new
       = [ {| levelname := INFO;
              message := "ACTIVITY: moved from - " ++ "a.txt" |};
           {| levelname := INFO;
              message := "ACTIVITY: moved to - " ++ "b.txt" |} ].
Proof.
  apply (move_logs_source_then_destination (Examples.world false)
           {| is_directory := false; src_path := "a.txt";
              dest_path := "b.txt" |}).
  reflexivity.
Defined.

(** C9. [start_monitoring] on a running monitor and [stop_monitoring] on
    one that is not running return without raising; each logs one
    warning and leaves the monitor ([is_running], the observer, the
    removable-media flag and the rest of [self]) as it was. *)
Theorem lifecycle_misuse_is_noop (w : World) :
  (is_running (self w) = true ->
   exists w',
     start_monitoring w = (Returns tt, w')
     /\ self w' = self w
     /\ logger w'
        = (logger w ++ [ {| levelname := WARNING;
                            message := "File monitoring already running" |} ])%list)
  /\ (is_running (self w) = false ->
      exists w',
        stop_monitoring w = (Returns tt, w')
        /\ self w' = self w
        /\ logger w'
           = (logger w ++ [ {| levelname := WARNING;
                               message := "File monitoring not running" |} ])%list).
Proof.
  split; intros R.
  - exists (add_logs [ {| levelname := WARNING;
                          message := "File monitoring already running" |} ] w).
    repeat split. unfold start_monitoring, start_monitoring_when, usb_thread_start, bind at 1, get_self. now rewrite R.
  - exists (add_logs [ {| levelname := WARNING;
                          message := "File monitoring not running" |} ] w).
    repeat split. unfold stop_monitoring, bind at 1, get_self. now rewrite R.
Qed.

Lemma lifecycle_misuse_is_noop_witness :
  (exists w',
     start_monitoring (Examples.world false) = (Returns tt, w')
     /\ self w' = self (Examples.world false)
     /\ logger w'
        = (logger (Examples.world false)
           ++ [ {| levelname := WARNING;
                   message := "File monitoring already running" |} ])%list)
  /\ (exists w',
        stop_monitoring Examples.idle_world = (Returns tt, w')
        /\ self w' = self Examples.idle_world
        /\ logger w'
           = (logger Examples.idle_world
              ++ [ {| levelname := WARNING;
                      message := "File monitoring not running" |} ])%list).
Proof.
  split.
  - apply (lifecycle_misuse_is_noop (Examples.world false)). reflexivity.
  - apply (lifecycle_misuse_is_noop Examples.idle_world). reflexivity.
Defined.

End Decisions.

(* ===================================================================== *)
(** * The keyword matcher and the text-file classifier                    *)
(* ===================================================================== *)

Section Matcher.

(** C4, as stated, fails: with the keywords "bank" and "bank account",
    the line "bank account" holds one occurrence of each, and the scan
    returns one match only, for "bank". *)
Lemma overlapping_keywords_one_match :
  scan ["bank"; "bank account"] "bank account"
  = [ {| keyword := "bank"; line := 1; context := "bank account" |} ]
  /\ one_match_per_occurrence ["bank"; "bank account"] "bank account"
     = [ {| keyword := "bank"; line := 1; context := "bank account" |};
         {| keyword := "bank account"; line := 1;
            context := "bank account" |} ]
  /\ scan ["bank"; "bank account"] "bank account"
     <> one_match_per_occurrence ["bank"; "bank account"] "bank account".
Proof.
  split; [reflexivity|]. split; [reflexivity|]. vm_compute. discriminate.
Qed.

(** C4, amended. For every keyword list and content, every match
    returned is a case-insensitive occurrence of a keyword on a line,
    with the 1-based number of that line, the text found there in the
    casing of the file, and the trimmed line as context; nothing is
    returned exactly when no keyword occurs on any line (so for the
    empty content); when the keywords are non-empty there is exactly
    one match per occurrence that starts at or after the end of the
    match kept before it on its line (occurrences taken left to right,
    keywords in their configured order), hence one match per occurrence
    when no two occurrences on a line overlap. On a readable text file
    this scan is what [check_file_for_sensitive_data] returns, without
    raising. *)
Theorem keyword_scan_matches (K : list string) (content : string) :
  (forall mt, In mt (scan K content) ->
     exists l p k,
       1 <= line mt
       /\ nth_error (readlines content) (line mt - 1) = Some l
       /\ context mt = strip l
       /\ In k K
       /\ occurs_at k l p = true
       /\ keyword mt = String.substring p (String.length k) l)
  /\ (scan K content = [] <-> one_match_per_occurrence K content = [])
  /\ scan K "" = []
  /\ (forallb (fun k => negb (is_empty k)) K = true ->
      scan K content = one_match_per_kept_occurrence K content)
  /\ (forallb (fun k => negb (is_empty k)) K = true ->
      forallb (fun l => no_overlap (occurrences K l)) (readlines content)
      = true ->
      scan K content = one_match_per_occurrence K content)
  /\ (forall w p,
        keywords_pattern (self w) = K ->
        fs w p = Content content ->
        _is_text_file (flavour w) p = true ->
        fst (check_file_for_sensitive_data p w)
        = Returns (match scan K content with
                   | [] => (false, [])
                   | matches => (true, matches)
                   end)).
Proof.
  split; [|split; [|split; [|split; [|split]]]].
  - apply scan_In.
  - now rewrite scan_nil_iff_lines, one_match_nil_iff_lines.
  - reflexivity.
  - apply scan_select.
  - apply scan_exact.
  - intros w p <- F T. rewrite check_file_run. cbn [fst].
    unfold check_result. now rewrite F, T.
Qed.

Lemma keyword_scan_matches_witness :
  scan default_keywords
       ("My Password is 123456" ++ String LF "Bank account: 1234567890")
  = one_match_per_occurrence default_keywords
       ("My Password is 123456" ++ String LF "Bank account: 1234567890").
Proof.
  apply (proj2 (proj2 (proj2 (proj2
           (keyword_scan_matches default_keywords
              ("My Password is 123456"
               ++ String LF "Bank account: 1234567890")))))).
  - reflexivity.
  - reflexivity.
Defined.

(** C5. [_is_text_file] holds exactly of the paths whose extension,
    lower-cased, is one of txt, py, js, html, csv, json, xml, md, log,
    ini, cfg, conf; it depends on the path through its extension only,
    and a path without extension is not a text file. *)
Theorem is_text_file_iff_extension (fl : PathFlavour) (p : string) :
  (_is_text_file fl p = true
   <-> exists e, has_extension fl p e /\ In (lower e) scannable_extensions)
  /\ (forall q, snd (splitext fl q) = snd (splitext fl p) ->
                _is_text_file fl q = _is_text_file fl p)
  /\ ((forall e, ~ has_extension fl p e) -> _is_text_file fl p = false).
Proof.
  split; [apply is_text_file_iff|]. split.
  - intros q E. now rewrite !is_text_file_ext, E.
  - intros N. destruct (_is_text_file fl p) eqn:T; [|reflexivity].
    apply is_text_file_iff in T as (e & X & _). now apply N in X.
Qed.

Lemma is_text_file_iff_extension_witness :
  _is_text_file posixpath "reports/Q3.summary.TXT" = true.
Proof.
  apply (proj1 (is_text_file_iff_extension posixpath
                  "reports/Q3.summary.TXT")).
  exists "TXT". split.
  - exists "reports/", "Q"%char, "3.summary".
    repeat split; try reflexivity. discriminate.
  - simpl. now left.
Defined.

End Matcher.

(* ===================================================================== *)
(** * The bounded logs of the dashboard                                   *)
(* ===================================================================== *)

Section BoundedLogs.

Import Dashboard Queue.

Lemma append_bounded_length (xs : list Log) (x : Log) :
  List.length xs <= 100 -> List.length (append_bounded xs x) <= 100.
Proof.
  intros L. unfold append_bounded.
  destruct (Nat.ltb_spec 100 (List.length (xs ++ [x]))) as [H|H].
  - rewrite length_app in H. simpl in H.
    destruct xs as [|y xs]; simpl in *; [lia|].
    rewrite length_app. simpl. lia.
  - exact H.
Qed.

Lemma append_bounded_full (xs : list Log) (x : Log) :
  List.length xs = 100 -> append_bounded xs x = (tl xs ++ [x])%list.
Proof.
  intros L. unfold append_bounded.
  destruct (Nat.ltb_spec 100 (List.length (xs ++ [x]))) as [H|H].
  - destruct xs; [discriminate L | reflexivity].
  - rewrite length_app in H. simpl in H. lia.
Qed.

Lemma append_bounded_room (xs : list Log) (x : Log) :
  List.length xs < 100 -> append_bounded xs x = (xs ++ [x])%list.
Proof.
  intros L. unfold append_bounded.
  destruct (Nat.ltb_spec 100 (List.length (xs ++ [x]))) as [H|H].
  - rewrite length_app in H. simpl in H. lia.
  - reflexivity.
Qed.

Lemma process_queue_loop_bounded (queue : list Log) :
  forall fl al lg,
    List.length fl <= 100 -> List.length al <= 100 ->
    List.length (file_logs (process_queue_loop queue fl al lg)) <= 100
    /\ List.length (alerts (process_queue_loop queue fl al lg)) <= 100.
Proof.
  induction queue as [|log queue IH]; intros fl al lg Lf La; simpl.
  - now split.
  - destruct (dict_get log "type") as [ty|]; [|now split].
    destruct (String.eqb ty "file_access").
    + apply IH; [now apply append_bounded_length | assumption].
    + destruct (String.eqb ty "alert").
      * apply IH; [assumption | now apply append_bounded_length].
      * now apply IH.
Qed.

Lemma lastn_all {A} (n : nat) (l : list A) :
  List.length l <= n -> lastn n l = l.
Proof.
  intros L. unfold lastn. now replace (List.length l - n) with 0 by lia.
Qed.

Lemma lastn_length {A} (n : nat) (l : list A) :
  List.length (lastn n l) <= n.
Proof. unfold lastn. rewrite length_skipn. lia. Qed.

Lemma lastn_lastn_app {A} (n : nat) (a b : list A) :
  lastn n (lastn n a ++ b) = lastn n (a ++ b).
Proof.
  destruct (Nat.le_gt_cases (List.length a) n) as [L|L].
  - now rewrite (lastn_all n a L).
  - unfold lastn. rewrite !length_app, length_skipn.
    replace (List.length a - (List.length a - n) + List.length b - n)
      with (List.length b) by lia.
    replace (List.length a + List.length b - n)
      with (List.length b + (List.length a - n)) by lia.
    rewrite <- skipn_skipn. f_equal.
    rewrite skipn_app.
    replace (List.length a - n - List.length a) with 0 by lia.
    reflexivity.
Qed.

Lemma append_bounded_lastn (xs : list Log) (x : Log) :
  List.length xs <= 100 -> append_bounded xs x = lastn 100 (xs ++ [x]).
Proof.
  intros L. destruct (Nat.eq_dec (List.length xs) 100) as [E|N].
  - rewrite (append_bounded_full xs x E). unfold lastn.
    rewrite length_app, E. simpl List.length.
    replace (100 + 1 - 100) with 1 by lia.
    destruct xs; [discriminate E | reflexivity].
  - rewrite append_bounded_room by lia.
    symmetry. apply lastn_all. rewrite length_app. simpl. lia.
Qed.

Lemma process_queue_loop_typed (queue : list Log) :
  forall fl al lg,
    forallb typed queue = true ->
    List.length fl <= 100 -> List.length al <= 100 ->
    process_queue_loop queue fl al lg
    = {| log_queue := [];
         file_logs := lastn 100 (fl ++ filter (has_type "file_access") queue);
         alerts := lastn 100 (al ++ filter (has_type "alert") queue);
         logger := lg |}.
Proof.
  induction queue as [|log queue IH]; intros fl al lg T Lf La.
  - simpl. now rewrite !app_nil_r, !lastn_all.
  - cbn [forallb] in T. apply andb_prop in T as [Tl Tq].
    cbn [process_queue_loop filter]. unfold typed in Tl. unfold has_type.
    destruct (dict_get log "type") as [ty|]; [|discriminate].
    destruct (String.eqb_spec ty "file_access") as [E|N].
    + subst ty. cbn [String.eqb Ascii.eqb Bool.eqb andb].
      rewrite IH; [|assumption| |assumption].
      * rewrite (append_bounded_lastn fl log Lf), lastn_lastn_app.
        now rewrite <- app_assoc.
      * now apply append_bounded_length.
    + destruct (String.eqb_spec ty "alert") as [E|N'].
      * rewrite IH; [|assumption|assumption|].
        -- rewrite (append_bounded_lastn al log La), lastn_lastn_app.
           now rewrite <- app_assoc.
        -- now apply append_bounded_length.
      * now apply IH.
Qed.

(** What one call of [process_queue] takes from the queue, whatever is
    queued: the logs up to the first one without a type, that one
    included; each sequence is the last 100 of what it held followed by
    the logs of its type taken. *)
Lemma process_queue_loop_fifo (queue : list Log) :
  forall fl al lg,
    List.length fl <= 100 -> List.length al <= 100 ->
    exists taken,
      queue = (taken ++ log_queue (process_queue_loop queue fl al lg))%list
      /\ file_logs (process_queue_loop queue fl al lg)
         = lastn 100 (fl ++ filter (has_type "file_access") taken)
      /\ alerts (process_queue_loop queue fl al lg)
         = lastn 100 (al ++ filter (has_type "alert") taken).
Proof.
  induction queue as [|log queue IH]; intros fl al lg Lf La.
  - exists []. cbn [process_queue_loop log_queue file_logs alerts filter app].
    now rewrite !app_nil_r, !lastn_all.
  - cbn [process_queue_loop].
    destruct (dict_get log "type") as [ty|] eqn:T.
    + assert (Hf : has_type "file_access" log = String.eqb ty "file_access")
        by (unfold has_type; now rewrite T).
      assert (Ha : has_type "alert" log = String.eqb ty "alert")
        by (unfold has_type; now rewrite T).
      destruct (String.eqb_spec ty "file_access") as [E|N].
      * destruct (IH (append_bounded fl log) al lg
                    (append_bounded_length fl log Lf) La)
          as (taken & Q & F & A).
        exists (log :: taken). cbn [app filter]. rewrite Hf, Ha.
        subst ty. cbn [String.eqb Ascii.eqb Bool.eqb andb].
        split; [now rewrite <- Q|]. split; [|exact A].
        rewrite F, (append_bounded_lastn fl log Lf), lastn_lastn_app.
        now rewrite <- app_assoc.
      * destruct (String.eqb_spec ty "alert") as [E|N'].
        -- destruct (IH fl (append_bounded al log) lg Lf
                       (append_bounded_length al log La))
             as (taken & Q & F & A).
           exists (log :: taken). cbn [app filter]. rewrite Hf, Ha.
           split; [now rewrite <- Q|]. split; [exact F|].
           rewrite A, (append_bounded_lastn al log La), lastn_lastn_app.
           now rewrite <- app_assoc.
        -- destruct (IH fl al lg Lf La) as (taken & Q & F & A).
           exists (log :: taken). cbn [app filter]. rewrite Hf, Ha.
           split; [now rewrite <- Q|]. now split.
    + exists [log]. cbn [log_queue file_logs alerts app filter].
      unfold has_type. rewrite T.
      now rewrite !app_nil_r, !lastn_all.
Qed.

Lemma run_step (history : list Action) (a : Action) :
  run (history ++ [a]) = act (run history) a.
Proof. unfold run. now rewrite fold_left_app. Qed.

Lemma queued_step (history : list Action) (a : Action) :
  queued (history ++ [a])
  = (queued history ++ match a with Put log => [log] | Rerun => [] end)%list.
Proof. unfold queued. rewrite flat_map_app. cbn. now rewrite app_nil_r. Qed.

(** At any time each sequence is the last 100 of the logs of its type
    taken from the queue so far. *)
Lemma run_fifo (history : list Action) :
  exists taken,
    queued history = (taken ++ log_queue (run history))%list
    /\ file_logs (run history)
       = lastn 100 (filter (has_type "file_access") taken)
    /\ alerts (run history) = lastn 100 (filter (has_type "alert") taken).
Proof.
  induction history as [|a history (taken & Q & F & A)] using rev_ind.
  - exists []. now repeat split.
  - rewrite run_step, queued_step. destruct a as [log|]; cbn [act].
    + exists taken. cbn [put log_queue file_logs alerts].
      rewrite Q, <- app_assoc. now repeat split.
    + unfold process_queue.
      destruct (process_queue_loop_fifo (log_queue (run history))
                  (file_logs (run history)) (alerts (run history))
                  (logger (run history)))
        as (more & Q' & F' & A').
      { rewrite F. apply lastn_length. }
      { rewrite A. apply lastn_length. }
      exists (taken ++ more)%list. rewrite app_nil_r.
      split; [rewrite Q at 1; rewrite Q' at 1; now rewrite app_assoc|].
      rewrite F', A', F, A, !lastn_lastn_app, !filter_app. now split.
Qed.

Lemma reachable_run (st : SessionState) :
  Reachable st <-> exists history, st = run history.
Proof.
  split.
  - induction 1 as [|log st R (history & ->)|st R (history & ->)].
    + now exists [].
    + exists (history ++ [Put log])%list. now rewrite run_step.
    + exists (history ++ [Rerun])%list. now rewrite run_step.
  - intros (history & ->).
    induction history as [|a history IH] using rev_ind.
    + apply reach_initial.
    + rewrite run_step. destruct a as [log|]; cbn [act].
      * now apply reach_put.
      * now apply reach_process_queue.
Qed.

(** C7. The activity sequence and the alert sequence are bounded
    first-in first-out sequences of capacity 100. In every state the
    dashboard reaches, each holds at most 100 entries. Processing one
    queued entry puts it last in its sequence and leaves the other
    sequence alone: while the sequence holds fewer than 100 entries
    nothing is dropped, and when it holds 100, the 101st entry drops
    exactly the first one and keeps the others in order. Over a whole
    history of queued logs and reruns, from start-up, each sequence is
    at any time the last 100 (all, when there are fewer) of the logs of
    its type taken from the queue so far, in the order they were
    queued; and when every log queued carries a type, a rerun takes
    them all. *)
Theorem logs_stay_bounded :
  (forall st, Reachable st ->
     List.length (file_logs st) <= 100 /\ List.length (alerts st) <= 100)
  /\ (forall st log,
        log_queue st = [log] ->
        dict_get log "type" = Some "alert" ->
        List.length (alerts st) = 100 ->
        alerts (process_queue st) = (tl (alerts st) ++ [log])%list
        /\ file_logs (process_queue st) = file_logs st)
  /\ (forall st log,
        log_queue st = [log] ->
        dict_get log "type" = Some "file_access" ->
        List.length (file_logs st) = 100 ->
        file_logs (process_queue st) = (tl (file_logs st) ++ [log])%list
        /\ alerts (process_queue st) = alerts st)
  /\ (forall st log,
        log_queue st = [log] ->
        dict_get log "type" = Some "alert" ->
        List.length (alerts st) < 100 ->
        alerts (process_queue st) = (alerts st ++ [log])%list
        /\ file_logs (process_queue st) = file_logs st)
  /\ (forall st log,
        log_queue st = [log] ->
        dict_get log "type" = Some "file_access" ->
        List.length (file_logs st) < 100 ->
        file_logs (process_queue st) = (file_logs st ++ [log])%list
        /\ alerts (process_queue st) = alerts st)
  /\ (forall st, Reachable st <-> exists history, st = run history)
  /\ (forall history,
        exists taken,
          queued history = (taken ++ log_queue (run history))%list
          /\ file_logs (run history)
             = lastn 100 (filter (has_type "file_access") taken)
          /\ alerts (run history)
             = lastn 100 (filter (has_type "alert") taken))
  /\ (forall history,
        forallb typed (queued history) = true ->
        log_queue (run (history ++ [Rerun])) = []
        /\ file_logs (run (history ++ [Rerun]))
           = lastn 100 (filter (has_type "file_access") (queued history))
        /\ alerts (run (history ++ [Rerun]))
           = lastn 100 (filter (has_type "alert") (queued history))).
Proof.
  split; [|split; [|split; [|split; [|split; [|split; [|split]]]]]].
  - induction 1 as [|log st R IH|st R IH].
    + simpl. lia.
    + exact IH.
    + destruct IH. now apply process_queue_loop_bounded.
  - intros st log Q T L. unfold process_queue. rewrite Q. simpl. rewrite T.
    simpl. now rewrite append_bounded_full.
  - intros st log Q T L. unfold process_queue. rewrite Q. simpl. rewrite T.
    simpl. now rewrite append_bounded_full.
  - intros st log Q T L. unfold process_queue. rewrite Q. simpl. rewrite T.
    simpl. now rewrite append_bounded_room.
  - intros st log Q T L. unfold process_queue. rewrite Q. simpl. rewrite T.
    simpl. now rewrite append_bounded_room.
  - exact reachable_run.
  - exact run_fifo.
  - intros history T. rewrite run_step. cbn [act].
    destruct (run_fifo history) as (taken & Q & F & A).
    rewrite Q in T. rewrite forallb_app in T. apply andb_prop in T as [_ T].
    unfold process_queue. rewrite process_queue_loop_typed.
    + cbn [log_queue file_logs alerts]. split; [reflexivity|].
      rewrite F, A, !lastn_lastn_app, <- !filter_app, <- Q. now split.
    + exact T.
    + rewrite F. apply lastn_length.
    + rewrite A. apply lastn_length.
Qed.

Lemma logs_stay_bounded_witness :
  (alerts (process_queue Examples.full_session)
   = (tl (alerts Examples.full_session) ++ [Examples.sample_alert 100])%list
   /\ file_logs (process_queue Examples.full_session)
      = file_logs Examples.full_session)
  /\ (let history := map Put (map Examples.sample_alert (seq 0 101)) in
      log_queue (run (history ++ [Rerun])) = []
      /\ file_logs (run (history ++ [Rerun]))
         = lastn 100 (filter (has_type "file_access") (queued history))
      /\ alerts (run (history ++ [Rerun]))
         = lastn 100 (filter (has_type "alert") (queued history))).
Proof.
  split.
  - apply (proj1 (proj2 logs_stay_bounded) Examples.full_session
             (Examples.sample_alert 100)).
    + reflexivity.
    + reflexivity.
    + reflexivity.
  - apply (proj2 (proj2 (proj2 (proj2 (proj2 (proj2 (proj2
             logs_stay_bounded))))))
             (map Put (map Examples.sample_alert (seq 0 101)))).
    reflexivity.
Defined.

End BoundedLogs.

(* ===================================================================== *)
(** * Further properties: starting and stopping                           *)
(* ===================================================================== *)

Section LifecycleProperties.

Import Lifecycle.

Lemma world_eq (w : World) :
  {| flavour := flavour w; fs := fs w; watch_error := watch_error w;
     logger := logger w; self := self w |} = w.
Proof. now destruct w. Qed.

Lemma monitor_eq (m : FileMonitor) :
  {| paths_to_monitor := paths_to_monitor m;
     sensitive_keywords := sensitive_keywords m;
     keywords_pattern := keywords_pattern m;
     observer := observer m;
     is_running := is_running m;
     usb_thread := usb_thread m;
     usb_detected := usb_detected m |} = m.
Proof. now destruct m. Qed.

Lemma after_schedule_nil (w : World) : after_schedule w [] = w.
Proof.
  unfold after_schedule, set_observer. simpl. rewrite !app_nil_r.
  destruct w as [fl f we lg m]. simpl. f_equal.
  destruct m as [a b c o d e g]. simpl. now destruct o.
Qed.

Lemma after_schedule_cons (w : World) (path : string) (paths : list string) :
  after_schedule (after_schedule w [path]) paths
  = after_schedule w (path :: paths).
Proof.
  unfold after_schedule, set_observer, schedule_log, exists_in. simpl.
  rewrite <- !app_assoc. f_equal. f_equal. f_equal.
  now destruct (fs w path).
Qed.

Lemma schedule_loop_run (paths : list string) :
  forall w,
    for_each paths (fun path =>
      e <- path_exists path ;;
      if e then
        observer_schedule path ;;
        logger_info ("Monitoring path: " ++ path)
      else
        logger_warning ("Path does not exist: " ++ path)) w
    = (Returns tt, after_schedule w paths).
Proof.
  induction paths as [|path paths IH]; intros w.
  - simpl. unfold ret. now rewrite after_schedule_nil.
  - cbn [for_each]. unfold bind at 1.
    assert ((e <- path_exists path ;;
             if e then
               observer_schedule path ;;
               logger_info ("Monitoring path: " ++ path)
             else
               logger_warning ("Path does not exist: " ++ path)) w
            = (Returns tt, after_schedule w [path])) as ->.
    { unfold bind at 1, path_exists, after_schedule, schedule_log, exists_in.
      cbn [map filter].
      destruct (fs w path); cbn [app].
      - unfold logger_warning, with_logger, warning. cbn [fst snd].
        rewrite app_nil_r. do 3 f_equal.
        unfold set_observer. destruct (self w) as [a b c o d e g]. simpl.
        now destruct o.
      - reflexivity.
      - reflexivity. }
    rewrite IH. now rewrite after_schedule_cons.
Qed.

(** What [start_monitoring] does on a monitor that is not running,
    whether or not the simulation thread can be started. *)
Lemma start_monitoring_when_run (thread_error : option string) (w : World) :
  is_running (self w) = false ->
  let w1 :=
    after_schedule
      (add_logs [ {| levelname := INFO;
                     message := "Starting file monitoring" |} ] w)
      (paths_to_monitor (self w)) in
  let w2 :=
    with_self
      (set_is_running true
         (set_observer
            {| watches := watches (observer (self w1));
               started := true;
               stopped := stopped (observer (self w1)) |}
            (self w1)))
      w1 in
  start_monitoring_when thread_error w
  = if started (observer (self w)) then
      (Raises (RuntimeError "threads can only be started once"),
       add_logs [ {| levelname := ERROR;
                     message := "Error starting file monitoring: threads can only be started once" |} ] w1)
    else
      match watch_error w with
      | Some why =>
          (Raises (OSError why),
           add_logs [ {| levelname := ERROR;
                         message := "Error starting file monitoring: " ++ why |} ] w1)
      | None =>
          match thread_error with
          | Some why =>
              (Raises (RuntimeError why),
               add_logs [ {| levelname := ERROR;
                             message := "Error starting file monitoring: "
                                        ++ why |} ] w2)
          | None =>
              (Returns tt,
               add_logs [ {| levelname := INFO;
                             message := "File monitoring started successfully" |} ]
                 (with_self (set_usb_thread true (self w2)) w2))
          end
      end.
Proof.
  intros R w1 w2. unfold start_monitoring_when, bind at 1, get_self.
  rewrite R.
  unfold bind at 1. rewrite logger_info_run.
  unfold try_except, bind at 1. rewrite schedule_loop_run. fold w1.
  unfold bind at 1, observer_start.
  change (started (observer (self w1))) with (started (observer (self w))).
  change (watch_error w1) with (watch_error w).
  destruct (started (observer (self w))).
  - unfold bind, raise. now rewrite logger_error_run.
  - destruct (watch_error w) as [why|].
    + unfold bind, raise. now rewrite logger_error_run.
    + destruct thread_error as [why|].
      * unfold usb_thread_start, bind, raise, set_self.
        now rewrite logger_error_run.
      * reflexivity.
Qed.

Lemma start_monitoring_when_running (thread_error : option string)
  (w : World) :
  is_running (self w) = true ->
  start_monitoring_when thread_error w
  = (Returns tt,
     add_logs [ {| levelname := WARNING;
                   message := "File monitoring already running" |} ] w).
Proof.
  intros R. unfold start_monitoring_when, bind at 1, get_self. now rewrite R.
Qed.

(** What [start_monitoring] does on a monitor that is not running. *)
Lemma start_monitoring_run (w : World) :
  is_running (self w) = false ->
  let w1 :=
    after_schedule
      (add_logs [ {| levelname := INFO;
                     message := "Starting file monitoring" |} ] w)
      (paths_to_monitor (self w)) in
  start_monitoring w
  = if started (observer (self w)) then
      (Raises (RuntimeError "threads can only be started once"),
       add_logs [ {| levelname := ERROR;
                     message := "Error starting file monitoring: threads can only be started once" |} ] w1)
    else
      match watch_error w with
      | Some why =>
          (Raises (OSError why),
           add_logs [ {| levelname := ERROR;
                         message := "Error starting file monitoring: " ++ why |} ] w1)
      | None =>
          (Returns tt,
           add_logs [ {| levelname := INFO;
                         message := "File monitoring started successfully" |} ]
             (with_self
                (set_usb_thread true
                   (set_is_running true
                      (set_observer
                         {| watches := watches (observer (self w1));
                            started := true;
                            stopped := stopped (observer (self w1)) |}
                         (self w1))))
                w1))
      end.
Proof.
  intros R w1. unfold start_monitoring, start_monitoring_when, usb_thread_start, bind at 1, get_self. rewrite R.
  unfold bind at 1. rewrite logger_info_run.
  unfold try_except, bind at 1. rewrite schedule_loop_run. fold w1.
  unfold bind at 1, observer_start.
  change (started (observer (self w1))) with (started (observer (self w))).
  change (watch_error w1) with (watch_error w).
  destruct (started (observer (self w))).
  - unfold bind, raise. now rewrite logger_error_run.
  - destruct (watch_error w) as [why|].
    + unfold bind, raise. now rewrite logger_error_run.
    + reflexivity.
Qed.



(** X2. A start that fails. Whenever [start_monitoring] raises, no
    simulation thread was started by that call and the last record
    logged is the error that carries the text of the exception. The
    monitor is left not running when the observer could not be started
    (it was started before, or the watch subsystem fails). But when the
    observer started and the simulation thread could not be started,
    [is_running] has already been set: the monitor is left running, its
    observer started, without a simulation thread, and the next
    [start_monitoring] only warns that monitoring is already running. *)
Theorem failed_start_and_the_running_flag
  (thread_error : option string) (w w' : World) (e : Exception) :
  start_monitoring_when thread_error w = (Raises e, w') ->
  usb_thread (self w') = usb_thread (self w)
  /\ (exists before,
        logger w'
        = (logger w ++ before
           ++ [ {| levelname := ERROR;
                   message := "Error starting file monitoring: "
                              ++ str_of_exception e |} ])%list)
  /\ (is_running (self w') = true
      <-> started (observer (self w)) = false /\ watch_error w = None)
  /\ (is_running (self w') = true ->
      thread_error = Some (str_of_exception e)
      /\ e = RuntimeError (str_of_exception e)
      /\ started (observer (self w')) = true
      /\ forall next_error,
           start_monitoring_when next_error w'
           = (Returns tt,
              add_logs [ {| levelname := WARNING;
                            message := "File monitoring already running" |} ]
                       w')).
Proof.
  intros H. destruct (is_running (self w)) eqn:R.
  - rewrite (start_monitoring_when_running thread_error w R) in H.
    discriminate.
  - rewrite (start_monitoring_when_run thread_error w R) in H.
    assert (Before :
      forall (a b : list LogRecord) (last last' : LogRecord),
        last = last' ->
        exists before,
          (((logger w ++ a) ++ b) ++ [last]
           = logger w ++ before ++ [last'])%list).
    { intros a b last last' <-. exists (a ++ b)%list.
      now rewrite <- !app_assoc. }
    destruct (started (observer (self w))) eqn:S.
    + inversion H; subst. cbn [self add_logs after_schedule logger].
      split; [reflexivity|]. split.
      { apply Before. reflexivity. }
      cbn [set_observer is_running]. rewrite R.
      split; [split; [discriminate|intros [D _]; discriminate D]|].
      discriminate.
    + destruct (watch_error w) as [why|] eqn:W.
      * inversion H; subst. cbn [self add_logs after_schedule logger].
        split; [reflexivity|]. split.
        { apply Before. reflexivity. }
        cbn [set_observer is_running]. rewrite R.
        split; [split; [discriminate|intros [_ D]; discriminate D]|].
        discriminate.
      * destruct thread_error as [why|]; [|discriminate].
        inversion H; subst.
        cbn [self add_logs after_schedule logger with_self set_is_running
             set_observer is_running usb_thread observer started].
        split; [reflexivity|]. split.
        { apply Before. reflexivity. }
        split; [split; [now intros _|reflexivity]|].
        intros _. split; [reflexivity|]. split; [reflexivity|].
        split; [reflexivity|].
        intros next_error.
        now apply start_monitoring_when_running.
Qed.

Lemma failed_start_and_the_running_flag_witness :
  let w := Examples.idle_world in
  let w' := snd (start_monitoring_when (Some "can't start new thread") w) in
  let e := RuntimeError "can't start new thread" in
  usb_thread (self w') = usb_thread (self w)
  /\ (exists before,
        logger w'
        = (logger w ++ before
           ++ [ {| levelname := ERROR;
                   message := "Error starting file monitoring: "
                              ++ str_of_exception e |} ])%list)
  /\ (is_running (self w') = true
      <-> started (observer (self w)) = false /\ watch_error w = None)
  /\ (is_running (self w') = true ->
      Some "can't start new thread" = Some (str_of_exception e)
      /\ e = RuntimeError (str_of_exception e)
      /\ started (observer (self w')) = true
      /\ forall next_error,
           start_monitoring_when next_error w'
           = (Returns tt,
              add_logs [ {| levelname := WARNING;
                            message := "File monitoring already running" |} ]
                       w')).
Proof.
  intros w w' e.
  apply (failed_start_and_the_running_flag
           (Some "can't start new thread") w w' e).
  reflexivity.
Defined.

Lemma start_monitoring_running (w : World) :
  is_running (self w) = true ->
  start_monitoring w
  = (Returns tt,
     add_logs [ {| levelname := WARNING;
                   message := "File monitoring already running" |} ] w).
Proof.
  intros R. unfold start_monitoring, start_monitoring_when, usb_thread_start, bind at 1, get_self. now rewrite R.
Qed.

Lemma stop_monitoring_not_running (w : World) :
  is_running (self w) = false ->
  stop_monitoring w
  = (Returns tt,
     add_logs [ {| levelname := WARNING;
                   message := "File monitoring not running" |} ] w).
Proof.
  intros R. unfold stop_monitoring, bind at 1, get_self. now rewrite R.
Qed.

(** What [stop_monitoring] does on a running monitor. *)
Lemma stop_monitoring_run (w : World) :
  is_running (self w) = true ->
  let stopped_observer :=
    {| watches := watches (observer (self w));
       started := started (observer (self w));
       stopped := true |} in
  stop_monitoring w
  = if started (observer (self w)) then
      (Returns tt,
       add_logs [ {| levelname := INFO;
                     message := "Stopping file monitoring" |};
                  {| levelname := INFO;
                     message := "File monitoring stopped successfully" |} ]
         (with_self (set_is_running false
                       (set_observer stopped_observer (self w))) w))
    else
      (Raises (RuntimeError "cannot join thread before it is started"),
       add_logs [ {| levelname := INFO;
                     message := "Stopping file monitoring" |};
                  {| levelname := ERROR;
                     message := "Error stopping file monitoring: cannot join thread before it is started" |} ]
         (with_self (set_observer stopped_observer (self w)) w)).
Proof.
  intros R so. unfold stop_monitoring, bind at 1, get_self. rewrite R.
  cbn [negb]. unfold bind at 1. rewrite logger_info_run.
  unfold try_except, bind at 1, observer_stop, set_self.
  unfold bind at 1, observer_join.
  cbn [self add_logs set_observer observer started].
  destruct (started (observer (self w))).
  - unfold bind at 1, set_self. rewrite logger_info_run. subst so.
    f_equal. unfold add_logs, with_self. cbn [flavour fs watch_error logger self].
    now rewrite <- app_assoc.
  - unfold bind, raise. rewrite logger_error_run. subst so.
    f_equal. unfold add_logs, with_self. cbn [flavour fs watch_error logger self].
    now rewrite <- app_assoc.
Qed.

(** The invariant of the monitor's life: a running monitor has a started
    observer. *)
Lemma running_has_started_observer (w : World) :
  Reachable w ->
  is_running (self w) = true -> started (observer (self w)) = true.
Proof.
  induction 1 as [w cwd paths kws E | te w R IH | w R IH | w p a R IH
                 | w b R IH | w files err R IH].
  - rewrite E. discriminate.
  - destruct (is_running (self w)) eqn:Run.
    + rewrite (start_monitoring_when_running te w Run). intros _.
      now apply IH.
    + rewrite (start_monitoring_when_run te w Run).
      destruct (started (observer (self w)));
        [|destruct (watch_error w); [|destruct te]];
        cbn [snd self add_logs after_schedule with_self set_observer
             set_is_running set_usb_thread is_running observer started];
        rewrite ?Run; (discriminate || reflexivity).
  - destruct (is_running (self w)) eqn:Run.
    + rewrite (stop_monitoring_run w Run), (IH eq_refl).
      cbn [snd self add_logs with_self set_is_running is_running].
      discriminate.
    + rewrite (stop_monitoring_not_running w Run). cbn [snd self add_logs].
      rewrite Run. discriminate.
  - rewrite handle_file_access_run. exact IH.
  - exact IH.
  - exact IH.
Qed.

(** X3. In every world a monitor lives through, [stop_monitoring]
    returns, it never raises, and leaves the monitor not running; the
    removable-media flag is left as it was. *)
Theorem stop_monitoring_always_stops (w : World) :
  Reachable w ->
  exists w',
    stop_monitoring w = (Returns tt, w')
    /\ is_running (self w') = false
    /\ usb_detected (self w') = usb_detected (self w).
Proof.
  intros R. destruct (is_running (self w)) eqn:Run.
  - rewrite (stop_monitoring_run w Run),
      (running_has_started_observer w R Run).
    eexists. split; [reflexivity|]. now split.
  - rewrite (stop_monitoring_not_running w Run).
    eexists. split; [reflexivity|]. now split.
Qed.

Lemma stop_monitoring_always_stops_witness :
  exists w',
    stop_monitoring (snd (start_monitoring Examples.idle_world))
    = (Returns tt, w')
    /\ is_running (self w') = false
    /\ usb_detected (self w')
       = usb_detected (self (snd (start_monitoring Examples.idle_world))).
Proof.
  apply (stop_monitoring_always_stops
           (snd (start_monitoring Examples.idle_world))).
  apply (reach_start None).
  apply (reach_init Examples.idle_world "/home/user" None None).
  reflexivity.
Defined.

(** X4. A monitor is started once: after a start and a stop that both
    returned, the next [start_monitoring] raises [RuntimeError] (the
    observer thread cannot be started again) and the monitor stays not
    running. *)
Theorem stopped_monitor_cannot_restart (w : World) :
  is_running (self w) = false ->
  started (observer (self w)) = false ->
  watch_error w = None ->
  exists w1 w2 w3,
    start_monitoring w = (Returns tt, w1)
    /\ stop_monitoring w1 = (Returns tt, w2)
    /\ is_running (self w2) = false
    /\ start_monitoring w2
       = (Raises (RuntimeError "threads can only be started once"), w3)
    /\ is_running (self w3) = false.
Proof.
  intros R S E. rewrite (start_monitoring_run w R), S, E.
  eexists. eexists. eexists. split; [reflexivity|].
  rewrite stop_monitoring_run by reflexivity.
  cbn [self add_logs set_observer observer started with_self set_usb_thread
       set_is_running].
  split; [reflexivity|]. split; [reflexivity|].
  rewrite start_monitoring_run by reflexivity.
  cbn [self add_logs set_observer observer started with_self set_usb_thread
       set_is_running].
  split; reflexivity.
Qed.

Lemma stopped_monitor_cannot_restart_witness :
  exists w1 w2 w3,
    start_monitoring Examples.idle_world = (Returns tt, w1)
    /\ stop_monitoring w1 = (Returns tt, w2)
    /\ is_running (self w2) = false
    /\ start_monitoring w2
       = (Raises (RuntimeError "threads can only be started once"), w3)
    /\ is_running (self w3) = false.
Proof.
  apply (stopped_monitor_cannot_restart Examples.idle_world); reflexivity.
Defined.

End LifecycleProperties.

(* ===================================================================== *)
(** * Further properties: decisions and events                            *)
(* ===================================================================== *)

Section DecisionProperties.

Import Lifecycle.

Lemma check_result_sensitive (w : World) (p : string) :
  fst (check_result w p) = sensitive w p.
Proof.
  unfold check_result, sensitive.
  destruct (fs w p) as [|why|text]; try reflexivity.
  destruct (_is_text_file (flavour w) p); [|reflexivity]. cbn [andb].
  destruct (scan (keywords_pattern (self w)) text) eqn:S.
  - apply scan_nil_iff_keyword in S. now rewrite S.
  - destruct (content_has_keyword (keywords_pattern (self w)) text) eqn:C;
      [reflexivity|].
    apply scan_nil_iff_keyword in C. rewrite C in S. discriminate.
Qed.

(** X5. The decision table of [handle_file_access], for a path other
    than the monitor's own log file: it blocks for exfiltration exactly
    on a creation or modification of a sensitive file while the
    removable-media flag is set; otherwise it blocks for an e-mail leak
    exactly on a sensitive file whose path passes the e-mail test;
    otherwise it allows. It never raises and leaves the monitor as it
    was. (The log file is left out: the call appends its records to it
    before it scans.) *)
Theorem decision_table (w : World) (p a : string) :
  names_log_file p = false ->
  exists w',
    handle_file_access p a w
    = (Returns
         (if created_or_modified a && sensitive w p && usb_detected (self w)
          then {| action := "block";
                  reason := "Potential data exfiltration detected";
                  alert_level := "high" |}
          else if email_name p && sensitive w p
          then {| action := "block";
                  reason := "Potential email data leak detected";
                  alert_level := "high" |}
          else {| action := "allow"; reason := "No threat detected";
                  alert_level := "low" |}),
       w')
    /\ self w' = self w.
Proof.
  intros _.
  exists (add_logs (logs_of w p a) w). rewrite handle_file_access_run.
  unfold decision_of. rewrite check_result_sensitive. now split.
Qed.

Lemma decision_table_witness :
  exists w',
    handle_file_access "email_draft.txt" "created" (Examples.world true)
    = (Returns
         (if created_or_modified "created"
             && sensitive (Examples.world true) "email_draft.txt"
             && usb_detected (self (Examples.world true))
          then {| action := "block";
                  reason := "Potential data exfiltration detected";
                  alert_level := "high" |}
          else if email_name "email_draft.txt"
                  && sensitive (Examples.world true) "email_draft.txt"
          then {| action := "block";
                  reason := "Potential email data leak detected";
                  alert_level := "high" |}
          else {| action := "allow"; reason := "No threat detected";
                  alert_level := "low" |}),
       w')
    /\ self w' = self (Examples.world true).
Proof.
  apply (decision_table (Examples.world true) "email_draft.txt" "created").
  reflexivity.
Defined.



(** X7. The handlers of creation, modification and deletion events: an
    event on a directory leaves the world untouched, nothing is logged;
    an event on a file returns after adding exactly one activity
    record, of the handler's kind, on the source path. *)
Theorem event_handlers_log_one_activity (w : World) (event : FileSystemEvent)
  (handler : FileSystemEvent -> Method unit) (kind : string) :
  In (handler, kind)
     [ (on_created, "created"); (on_modified, "modified");
       (on_deleted, "deleted") ] ->
  if is_directory event then
    handler event w = (Returns tt, w)
    /\ on_moved event w = (Returns tt, w)
  else
    exists new,
      handler event w = (Returns tt, add_logs new w)
      /\ filter is_activity new
         = [ {| levelname := INFO;
                message := "ACTIVITY: " ++ kind ++ " - " ++ src_path event |} ].
Proof.
  intros H.
  assert (handler event
          = if negb (is_directory event)
            then (handle_file_access (src_path event) kind ;; ret tt)
            else ret tt) as E.
  { destruct H as [H|[H|[H|[]]]]; inversion H; subst; reflexivity. }
  rewrite E. unfold on_moved. destruct (is_directory event); cbn [negb].
  - now split.
  - exists (logs_of w (src_path event) kind). split.
    + unfold bind at 1. now rewrite handle_file_access_run.
    + apply filter_activity_logs_of.
Qed.

Lemma event_handlers_log_one_activity_witness :
  exists new,
    on_deleted {| is_directory := false; src_path := "notes.txt";
                  dest_path := "" |} (Examples.world false)
    = (Returns tt, add_logs new (Examples.world false))
    /\ filter is_activity new
       = [ {| levelname := INFO;
              message := "ACTIVITY: " ++ "deleted" ++ " - " ++ "notes.txt" |} ].
Proof.
  apply (event_handlers_log_one_activity (Examples.world false)
           {| is_directory := false; src_path := "notes.txt";
              dest_path := "" |} on_deleted "deleted").
  right. right. left. reflexivity.
Defined.

End DecisionProperties.

(* ===================================================================== *)
(** * Further properties: the matches returned                            *)
(* ===================================================================== *)

Section MatchProperties.

Lemma scan_lines_sorted (K : list string) (lines : list string) :
  forall start,
    StronglySorted le
      (map line (flat_map (line_matches K) (enumerate lines start)))
    /\ Forall (le start)
         (map line (flat_map (line_matches K) (enumerate lines start))).
Proof.
  induction lines as [|l ls IH]; intros start; simpl.
  - split; constructor.
  - destruct (IH (S start)) as [S1 F1].
    rewrite !map_app, !map_map. cbn [line].
    clear IH. induction (finditer K l) as [|o os IHo]; cbn [map app].
    + split; [exact S1|]. eapply Forall_impl; [|exact F1]. intros; lia.
    + destruct IHo as [S2 F2]. split.
      * constructor; [exact S2|]. exact F2.
      * constructor; [lia | exact F2].
Qed.

(** X8. Whatever is at the path, [check_file_for_sensitive_data]
    returns a consistent pair: the flag is true exactly when the list of
    matches is not empty; the matches come in the order of the file,
    with line numbers from 1 that never decrease; and when there are
    matches it logs one warning for the file and one per match. *)
Theorem check_file_result_is_consistent (w : World) (p : string) :
  exists found matches new,
    check_file_for_sensitive_data p w
    = (Returns (found, matches), add_logs new w)
    /\ (found = true <-> matches <> [])
    /\ StronglySorted le (map line matches)
    /\ Forall (le 1) (map line matches)
    /\ (matches <> [] ->
        new = {| levelname := WARNING;
                 message := "Sensitive data found in file: " ++ p |}
              :: map keyword_warning matches).
Proof.
  exists (fst (check_result w p)), (snd (check_result w p)), (check_logs w p).
  rewrite check_file_run, <- surjective_pairing.
  split; [reflexivity|].
  assert (forall new : list LogRecord,
             (false = true <-> @nil KeywordMatch <> [])
             /\ StronglySorted le (map line [])
             /\ Forall (le 1) (map line [])
             /\ (@nil KeywordMatch <> [] ->
                 new = {| levelname := WARNING;
                          message := "Sensitive data found in file: " ++ p |}
                       :: map keyword_warning [])) as Empty.
  { intros new. repeat split; try constructor; try discriminate.
    - intros N. now contradiction N.
    - intros N. now contradiction N. }
  unfold check_result, check_logs.
  destruct (fs w p) as [|why|text]; [apply Empty | |].
  - destruct (_is_text_file (flavour w) p); apply Empty.
  - destruct (_is_text_file (flavour w) p); [|apply Empty].
    destruct (scan (keywords_pattern (self w)) text) as [|mt ms] eqn:S;
      [apply Empty|].
    cbn [fst snd]. rewrite <- S.
    destruct (scan_lines_sorted (keywords_pattern (self w))
                (readlines text) 1) as [S1 F1].
    repeat split; try assumption.
    intros _. rewrite S. discriminate.
Qed.

Lemma select_lower_bound (l : list (nat * string)) :
  forall free o, In o (select free l) -> free <= fst o.
Proof.
  induction l as [|q l IH]; intros free o H; simpl in H; [contradiction|].
  destruct (Nat.leb_spec free (fst q)) as [L|L].
  - destruct H as [<-|H]; [exact L|]. apply IH in H. lia.
  - now apply IH.
Qed.

Lemma select_no_overlapping (l : list (nat * string)) :
  forall free, no_overlap (select free l) = true.
Proof.
  induction l as [|q l IH]; intros free; simpl; [reflexivity|].
  destruct (free <=? fst q)%nat; [|apply IH].
  simpl. rewrite IH, andb_true_r. apply forallb_forall. intros o I.
  apply Nat.leb_le. now apply select_lower_bound in I.
Qed.

Lemma finditer_from_length (K : list string) :
  forallb (fun k => negb (is_empty k)) K = true ->
  forall s pos skip,
    List.length (finditer_from K s pos skip) <= String.length s - skip.
Proof.
  intros NE. induction s as [|c s IH]; intros pos skip.
  - destruct skip; simpl; [|lia].
    pose proof (match_here_first K "" pos) as F.
    pose proof (occurrences_from_empty K NE pos) as E.
    destruct (match_here K "" false) as [m|]; [|simpl; lia].
    destruct F as (rest & F). simpl in E. rewrite app_nil_r, F in E.
    discriminate.
  - destruct skip as [|skip]; cbn [finditer_from String.length].
    + destruct (match_here K (String c s) false) as [m|] eqn:M.
      * rewrite (match_here_nonempty K NE _ _ M).
        assert (1 <= String.length m) as Lm.
        { apply (occurrences_here_nonempty K NE (String c s) pos (pos, m)).
          now apply match_here_in with (adv := false). }
        cbn [List.length]. specialize (IH (S pos) (String.length m - 1)). lia.
      * specialize (IH (S pos) 0). lia.
    + specialize (IH (S pos) skip). lia.
Qed.

Lemma universal_newlines_two (c d : ascii) (s : string) :
  universal_newlines (String c (String d s))
  = if Ascii.eqb c CR then
      if Ascii.eqb d LF then String LF (universal_newlines s)
      else String LF (universal_newlines (String d s))
    else String c (universal_newlines (String d s)).
Proof. reflexivity. Qed.

Lemma universal_newlines_length (s : string) :
  String.length (universal_newlines s) <= String.length s
  /\ forall c, String.length (universal_newlines (String c s))
               <= S (String.length s).
Proof.
  induction s as [|d s [IH1 IH2]].
  - split; [simpl; lia|]. intros c. simpl.
    destruct (Ascii.eqb c CR); simpl; lia.
  - split; [apply IH2|]. intros c.
    rewrite universal_newlines_two. specialize (IH2 d).
    destruct (Ascii.eqb c CR); [destruct (Ascii.eqb d LF)|];
      cbn [String.length]; lia.
Qed.

Lemma split_lines_total_length (s : string) :
  list_sum (map String.length (split_lines s)) = String.length s.
Proof.
  induction s as [|c s IH]; [reflexivity|].
  cbn [split_lines]. destruct (Ascii.eqb c LF).
  - simpl. now rewrite IH.
  - destruct (split_lines s) as [|l ls]; simpl in *; lia.
Qed.

(** X9. With non-empty keywords, the matches found on a line never
    overlap, each lies within the line and is a keyword in the casing
    of the line, and a file yields at most one match per character of
    its content. *)
Theorem matches_do_not_overlap (K : list string) :
  forallb (fun k => negb (is_empty k)) K = true ->
  (forall s,
     no_overlap (finditer K s) = true
     /\ forall p m, In (p, m) (finditer K s) ->
          m <> ""%string
          /\ p + String.length m <= String.length s
          /\ m = String.substring p (String.length m) s
          /\ exists k, In k K /\ lower m = lower k)
  /\ forall content,
       List.length (scan K content) <= String.length content.
Proof.
  intros NE. split.
  - intros s. split.
    + rewrite (finditer_select K NE). apply select_no_overlapping.
    + intros p m I. apply finditer_In in I.
      apply occurrences_In in I as (k & Hk & O & E).
      unfold occurs_at in O. apply andb_prop in O as [L Lw].
      apply Nat.leb_le in L. apply String.eqb_eq in Lw.
      assert (String.length m = String.length k) as Lm.
      { rewrite <- (lower_length m), E, Lw. apply lower_length. }
      rewrite forallb_forall in NE. specialize (NE k Hk).
      repeat split.
      * intros Z. subst m. rewrite Z in Lm. destruct k; discriminate.
      * lia.
      * now rewrite Lm.
      * exists k. split; [exact Hk|]. now rewrite E.
  - intros content. unfold scan, scan_lines, readlines.
    pose proof (proj1 (universal_newlines_length content)) as U.
    rewrite <- split_lines_total_length in U.
    eapply Nat.le_trans; [|exact U]. clear U.
    generalize 1 as start.
    induction (split_lines (universal_newlines content)) as [|l ls IH];
      intros start; cbn [enumerate flat_map map list_sum]; [simpl; lia|].
    rewrite length_app.
    assert (List.length (line_matches K (start, l))
            = List.length (finditer K l)) as ->
      by (unfold line_matches; apply length_map).
    pose proof (finditer_from_length K NE l 0 0) as B.
    unfold finditer. specialize (IH (S start)).
    change (list_sum (String.length l :: map String.length ls))
      with (String.length l + list_sum (map String.length ls)).
    lia.
Qed.

Lemma matches_do_not_overlap_witness :
  List.length (scan default_keywords "my password and my bank account")
  <= String.length "my password and my bank account".
Proof.
  apply (matches_do_not_overlap default_keywords); reflexivity.
Defined.

(** X10. [log_alert] adds exactly one record, looks at the level
    without regard to case, logs at ERROR exactly for the level "high",
    and for a level other than low, medium and high still logs, as a
    plain warning "ALERT: <message>". *)
Theorem log_alert_levels (l : Logger) (level msg : string) :
  exists r,
    log_alert l level msg = (l ++ [r])%list
    /\ log_alert l (lower level) msg = log_alert l level msg
    /\ (levelname r = ERROR <-> lower level = "high")
    /\ (lower level <> "low" -> lower level <> "medium" ->
        lower level <> "high" ->
        r = {| levelname := WARNING; message := "ALERT: " ++ msg |}).
Proof.
  exists (alert_record level msg). split; [apply log_alert_app|].
  split; [unfold log_alert; now rewrite lower_idem|].
  unfold alert_record, log_alert.
  destruct (String.eqb_spec (lower level) "low") as [E1|N1].
  - split; [|intros N; now contradiction N]. cbn [levelname].
    split; [discriminate|]. intros H. rewrite H in E1. discriminate.
  - destruct (String.eqb_spec (lower level) "medium") as [E2|N2].
    + split; [|intros _ N; now contradiction N]. cbn [levelname].
      split; [discriminate|]. intros H. rewrite H in E2. discriminate.
    + destruct (String.eqb_spec (lower level) "high") as [E3|N3].
      * split; [|intros _ _ N; now contradiction N]. cbn [levelname].
        now split.
      * split; [|reflexivity]. cbn [levelname].
        split; [discriminate|]. intros H. now contradiction N3.
Qed.

Lemma log_alert_levels_witness :
  exists r,
    log_alert [] "HIGH" "x" = ([] ++ [r])%list
    /\ log_alert [] (lower "HIGH") "x" = log_alert [] "HIGH" "x"
    /\ (levelname r = ERROR <-> lower "HIGH" = "high")
    /\ (lower "HIGH" <> "low" -> lower "HIGH" <> "medium" ->
        lower "HIGH" <> "high" ->
        r = {| levelname := WARNING; message := "ALERT: " ++ "x" |}).
Proof.
  apply (log_alert_levels [] "HIGH" "x").
Defined.

End MatchProperties.

(* ===================================================================== *)
(** * Further properties: the queue of the dashboard                      *)
(* ===================================================================== *)

Section QueueProperties.

Import Dashboard Queue.

(** X11. When every queued log carries a type and both sequences hold
    at most 100 entries, [process_queue] empties the queue and leaves in
    each sequence the last 100 of its entries followed by the queued
    logs of its type, in order; logs of another type are dropped; no
    error is logged. So no entry is lost other than the oldest ones
    beyond 100. *)
Theorem process_queue_keeps_the_last_100 (st : SessionState) :
  forallb typed (log_queue st) = true ->
  List.length (file_logs st) <= 100 ->
  List.length (alerts st) <= 100 ->
  process_queue st
  = {| log_queue := [];
       file_logs :=
         lastn 100 (file_logs st
                    ++ filter (has_type "file_access") (log_queue st));
       alerts :=
         lastn 100 (alerts st ++ filter (has_type "alert") (log_queue st));
       logger := logger st |}.
Proof.
  intros T Lf La. unfold process_queue. now apply process_queue_loop_typed.
Qed.

Lemma process_queue_keeps_the_last_100_witness :
  process_queue Examples.full_session
  = {| log_queue := [];
       file_logs :=
         lastn 100 (file_logs Examples.full_session
                    ++ filter (has_type "file_access")
                         (log_queue Examples.full_session));
       alerts :=
         lastn 100 (alerts Examples.full_session
                    ++ filter (has_type "alert")
                         (log_queue Examples.full_session));
       logger := logger Examples.full_session |}.
Proof.
  apply (process_queue_keeps_the_last_100 Examples.full_session).
  - reflexivity.
  - vm_compute. repeat constructor.
  - vm_compute. repeat constructor.
Defined.

Lemma process_queue_loop_app (good : list Log) :
  forall rest fl al lg,
    forallb typed good = true ->
    process_queue_loop (good ++ rest) fl al lg
    = let st := process_queue_loop good fl al lg in
      process_queue_loop rest (file_logs st) (alerts st) (logger st).
Proof.
  induction good as [|log good IH]; intros rest fl al lg T; [reflexivity|].
  cbn [forallb] in T. apply andb_prop in T as [Tl Tq].
  cbn [app process_queue_loop]. unfold typed in Tl.
  destruct (dict_get log "type") as [ty|]; [|discriminate].
  destruct (String.eqb ty "file_access"); [now apply IH|].
  destruct (String.eqb ty "alert"); now apply IH.
Qed.

(** X12. A queued log without the key ['type'] stops [process_queue]:
    the logs queued before it are processed as usual, the log itself is
    taken from the queue and lost, one error is logged, and the logs
    queued after it stay in the queue for the next call. *)
Theorem log_without_type_stops_the_queue
  (st : SessionState) (good : list Log) (bad : Log) (rest : list Log) :
  log_queue st = (good ++ bad :: rest)%list ->
  forallb typed good = true ->
  dict_get bad "type" = None ->
  List.length (file_logs st) <= 100 ->
  List.length (alerts st) <= 100 ->
  process_queue st
  = {| log_queue := rest;
       file_logs :=
         lastn 100 (file_logs st ++ filter (has_type "file_access") good);
       alerts := lastn 100 (alerts st ++ filter (has_type "alert") good);
       logger :=
         (logger st
          ++ [ {| Utils.levelname := Utils.ERROR;
                  Utils.message := "Error processing log queue: 'type'" |} ])%list |}.
Proof.
  intros Q T B Lf La. unfold process_queue. rewrite Q.
  rewrite (process_queue_loop_app good _ _ _ _ T).
  rewrite (process_queue_loop_typed good _ _ _ T Lf La).
  cbn [file_logs alerts logger process_queue_loop]. now rewrite B.
Qed.

Lemma log_without_type_stops_the_queue_witness :
  let st :=
    {| log_queue := [ Examples.sample_alert 1; [("level", "high")];
                      Examples.sample_access 2 ];
       file_logs := []; alerts := []; logger := [] |} in
  process_queue st
  = {| log_queue := [Examples.sample_access 2];
       file_logs :=
         lastn 100 (file_logs st
                    ++ filter (has_type "file_access")
                         [Examples.sample_alert 1]);
       alerts :=
         lastn 100 (alerts st
                    ++ filter (has_type "alert") [Examples.sample_alert 1]);
       logger :=
         (logger st
          ++ [ {| Utils.levelname := Utils.ERROR;
                  Utils.message := "Error processing log queue: 'type'" |} ])%list |}.
Proof.
  intros st.
  apply (log_without_type_stops_the_queue st [Examples.sample_alert 1]
           [("level", "high")] [Examples.sample_access 2]).
  - reflexivity.
  - reflexivity.
  - reflexivity.
  - simpl. lia.
  - simpl. lia.
Defined.

End QueueProperties.

(* ===================================================================== *)
(** * Further properties: timestamps                                      *)
(* ===================================================================== *)

Section ClockProperties.

Import Clock.

Lemma below_100 (P : nat -> bool) :
  forallb P (seq 0 100) = true -> forall n, n < 100 -> P n = true.
Proof.
  intros H n L. rewrite forallb_forall in H. apply H. apply in_seq. lia.
Qed.

Lemma pad2_chars (n : nat) :
  n < 100 -> pad2 n = String (tens_chr n) (String (units_chr n) "").
Proof.
  intros L.
  apply (below_100
           (fun n => String.eqb (pad2 n)
                       (String (tens_chr n) (String (units_chr n) "")))) in L;
    [now apply String.eqb_eq in L|].
  vm_compute. reflexivity.
Qed.

Lemma chars_compare (n m : nat) :
  n < 100 -> m < 100 ->
  match Ascii.compare (tens_chr n) (tens_chr m) with
  | Eq => Ascii.compare (units_chr n) (units_chr m)
  | c => c
  end = Nat.compare n m.
Proof.
  intros Ln Lm.
  pose proof (below_100
    (fun n => forallb
       (fun m => comparison_eqb
          (match Ascii.compare (tens_chr n) (tens_chr m) with
           | Eq => Ascii.compare (units_chr n) (units_chr m)
           | c => c
           end) (Nat.compare n m)) (seq 0 100))) as H.
  assert (forallb
            (fun m => comparison_eqb
               (match Ascii.compare (tens_chr n) (tens_chr m) with
                | Eq => Ascii.compare (units_chr n) (units_chr m)
                | c => c
                end) (Nat.compare n m)) (seq 0 100) = true) as Hn.
  { apply H; [vm_compute; reflexivity | exact Ln]. }
  rewrite forallb_forall in Hn. specialize (Hn m).
  assert (In m (seq 0 100)) as I by (apply in_seq; lia).
  specialize (Hn I).
  destruct (match Ascii.compare (tens_chr n) (tens_chr m) with
            | Eq => Ascii.compare (units_chr n) (units_chr m)
            | c => c
            end), (Nat.compare n m); (reflexivity || discriminate).
Qed.

Lemma pad2_compare (n m : nat) (s t : string) :
  n < 100 -> m < 100 ->
  String.compare (pad2 n ++ s) (pad2 m ++ t)
  = match Nat.compare n m with
    | Eq => String.compare s t
    | c => c
    end.
Proof.
  intros Ln Lm. rewrite (pad2_chars n Ln), (pad2_chars m Lm).
  rewrite <- (chars_compare n m Ln Lm). cbn [append String.compare].
  destruct (Ascii.compare (tens_chr n) (tens_chr m)); try reflexivity.
Qed.

Lemma year_chars (y : nat) :
  1000 <= y < 100 * 100 ->
  str_of_nat y = pad2 (y / 100) ++ pad2 (y mod 100).
Proof.
  intros L.
  assert (forallb (fun y => String.eqb (str_of_nat y)
                              (pad2 (y / 100) ++ pad2 (y mod 100)))
                  (seq 1000 (9 * 1000)) = true) as H
    by (vm_compute; reflexivity).
  rewrite forallb_forall in H. apply String.eqb_eq, H, in_seq. lia.
Qed.

Lemma year_compare (y z : nat) (s t : string) :
  1000 <= y < 100 * 100 -> 1000 <= z < 100 * 100 ->
  String.compare (str_of_nat y ++ s) (str_of_nat z ++ t)
  = match Nat.compare y z with
    | Eq => String.compare s t
    | c => c
    end.
Proof.
  intros Ly Lz. rewrite (year_chars y Ly), (year_chars z Lz).
  rewrite !append_assoc.
  assert (y / 100 < 100) by (apply Nat.Div0.div_lt_upper_bound; lia).
  assert (z / 100 < 100) by (apply Nat.Div0.div_lt_upper_bound; lia).
  assert (y mod 100 < 100) by (apply Nat.mod_upper_bound; lia).
  assert (z mod 100 < 100) by (apply Nat.mod_upper_bound; lia).
  rewrite pad2_compare by assumption.
  rewrite pad2_compare by assumption.
  pose proof (Nat.div_mod_eq y 100). pose proof (Nat.div_mod_eq z 100).
  destruct (Nat.compare_spec (y / 100) (z / 100)) as [E|E|E].
  - destruct (Nat.compare_spec (y mod 100) (z mod 100)) as [E'|E'|E'];
      destruct (Nat.compare_spec y z); try reflexivity; lia.
  - destruct (Nat.compare_spec y z); try reflexivity; lia.
  - destruct (Nat.compare_spec y z); try reflexivity; lia.
Qed.

Lemma str_of_nat_length_4 (y : nat) :
  1000 <= y < 100 * 100 -> String.length (str_of_nat y) = 4.
Proof.
  intros L. rewrite (year_chars y L), !pad2_chars; [reflexivity| |].
  - apply Nat.mod_upper_bound; lia.
  - apply Nat.Div0.div_lt_upper_bound; lia.
Qed.

(** X13. From the year 1000 on, [timestamp] returns 19 characters, and
    the order of two timestamps as strings is the order of their dates:
    sorting logs by their timestamp sorts them by time. *)
Theorem timestamps_sort_by_time (a b : DateTime) :
  valid a -> valid b -> 1000 <= year a -> 1000 <= year b ->
  String.length (timestamp a) = 19
  /\ String.compare (timestamp a) (timestamp b) = chronological a b.
Proof.
  intros (Ya & Ma & Da & Ha & Mia & Sa) (Yb & Mb & Db & Hb & Mib & Sb) La Lb.
  unfold timestamp, strftime. split.
  - rewrite !length_append, str_of_nat_length_4 by lia.
    rewrite !pad2_chars by lia. reflexivity.
  - unfold chronological. cbn [compare_fields].
    rewrite year_compare by lia.
    destruct (Nat.compare (year a) (year b)); try reflexivity.
    cbn [append String.compare Ascii.compare]. 
    change (Ascii.compare "-" "-") with Eq. cbv iota.
    rewrite pad2_compare by lia.
    destruct (Nat.compare (month a) (month b)); try reflexivity.
    cbn [append String.compare].
    change (Ascii.compare "-" "-") with Eq. cbv iota.
    rewrite pad2_compare by lia.
    destruct (Nat.compare (day a) (day b)); try reflexivity.
    cbn [append String.compare].
    change (Ascii.compare " " " ") with Eq. cbv iota.
    rewrite pad2_compare by lia.
    destruct (Nat.compare (hour a) (hour b)); try reflexivity.
    cbn [append String.compare].
    change (Ascii.compare ":" ":") with Eq. cbv iota.
    rewrite pad2_compare by lia.
    destruct (Nat.compare (minute a) (minute b)); try reflexivity.
    cbn [append String.compare].
    change (Ascii.compare ":" ":") with Eq. cbv iota.
    rewrite <- (append_empty_r (pad2 (second a))).
    rewrite <- (append_empty_r (pad2 (second b))).
    rewrite pad2_compare by lia.
    destruct (Nat.compare (second a) (second b)); reflexivity.
Qed.

Lemma timestamps_sort_by_time_witness :
  let a := {| year := 2024; month := 9; day := 30;
              hour := 23; minute := 59; second := 59 |} in
  let b := {| year := 2024; month := 10; day := 1;
              hour := 0; minute := 0; second := 0 |} in
  String.length (timestamp a) = 19
  /\ String.compare (timestamp a) (timestamp b) = chronological a b.
Proof.
  intros a b. apply (timestamps_sort_by_time a b); unfold valid; simpl; lia.
Defined.

End ClockProperties.

(* ===================================================================== *)
(** * Further properties: the dashboard fed by its worker                 *)
(* ===================================================================== *)

Section WorkerProperties.

Import Dashboard Queue Clock Worker.

Lemma choice_in (seq : list string) (draw : nat) :
  seq <> [] -> in_list (choice seq draw) seq = true.
Proof.
  intros N. apply in_list_In. unfold choice. apply nth_In.
  apply Nat.mod_upper_bound. destruct seq; [contradiction | discriminate].
Qed.

Lemma file_log_made (ts a p : string) :
  in_list a action_types = true ->
  is_file_log [ ("timestamp", ts); ("type", "file_access");
                ("action", a); ("path", p) ] = true.
Proof. intros H. unfold is_file_log, has_type. simpl. exact H. Qed.

Lemma alert_log_made (ts l m : string) :
  in_list l alert_levels = true ->
  is_alert_log [ ("timestamp", ts); ("type", "alert");
                 ("level", l); ("message", m) ] = true.
Proof. intros H. unfold is_alert_log, has_type. simpl. exact H. Qed.

Lemma well_formed_typed (log : Log) : well_formed log = true -> typed log = true.
Proof.
  unfold well_formed, is_file_log, is_alert_log, has_type, typed.
  destruct (dict_get log "type"); [reflexivity|]. simpl. discriminate.
Qed.

Lemma well_formed_file (log : Log) :
  well_formed log = true -> has_type "file_access" log = true ->
  is_file_log log = true.
Proof.
  unfold well_formed. intros W T. apply orb_prop in W as [W|W]; [exact W|].
  unfold is_alert_log in W. apply andb_prop in W as [W _].
  unfold has_type in *. destruct (dict_get log "type") as [t|]; [|discriminate].
  apply String.eqb_eq in W, T. subst t. discriminate.
Qed.

Lemma well_formed_alert (log : Log) :
  well_formed log = true -> has_type "alert" log = true ->
  is_alert_log log = true.
Proof.
  unfold well_formed. intros W T. apply orb_prop in W as [W|W]; [|exact W].
  unfold is_file_log in W. apply andb_prop in W as [W _].
  unfold has_type in *. destruct (dict_get log "type") as [t|]; [|discriminate].
  apply String.eqb_eq in W, T. subst t. discriminate.
Qed.

Lemma forallb_lastn {A} (P : A -> bool) (n : nat) (l : list A) :
  forallb P l = true -> forallb P (lastn n l) = true.
Proof.
  intros H. rewrite forallb_forall in *. intros x I. apply H.
  unfold lastn in I. rewrite <- (firstn_skipn (List.length l - n) l).
  apply in_or_app. now right.
Qed.

Lemma forallb_filter_well_formed (P : Log -> bool) (ty : string)
  (queue : list Log) :
  (forall log, well_formed log = true -> has_type ty log = true ->
               P log = true) ->
  forallb well_formed queue = true ->
  forallb P (filter (has_type ty) queue) = true.
Proof.
  intros H W. rewrite forallb_forall in *. intros log I.
  apply filter_In in I as [I T]. apply H; [now apply W | exact T].
Qed.

(** The invariant of a dashboard fed by its worker. *)
Lemma fed_invariant (st : SessionState) :
  Fed st ->
  forallb well_formed (log_queue st) = true
  /\ forallb is_file_log (file_logs st) = true
  /\ forallb is_alert_log (alerts st) = true
  /\ List.length (file_logs st) <= 100
  /\ List.length (alerts st) <= 100
  /\ logger st = [].
Proof.
  induction 1 as [|d st F (Q & Fl & Al & Lf & La & Lg)
                  |st F (Q & Fl & Al & Lf & La & Lg)].
  - simpl. repeat split; lia.
  - unfold worker_turn.
    assert (forall st' log, forallb well_formed (log_queue st') = true ->
              well_formed log = true ->
              forallb well_formed (log_queue (put log st')) = true) as Put.
    { intros st' log H W. unfold put. cbn [log_queue].
      rewrite forallb_app, H. simpl. now rewrite W. }
    destruct (below_0_1 (file_draw d)), (below_0_05 (alert_draw d));
      cbn [put log_queue file_logs alerts logger]; repeat split;
      try assumption; rewrite ?forallb_app, ?Q; cbn [forallb andb];
      unfold well_formed;
      rewrite ?file_log_made, ?alert_log_made, ?orb_true_r;
      try reflexivity; now apply choice_in.
  - assert (forallb typed (log_queue st) = true) as T.
    { rewrite forallb_forall in *. intros log I.
      now apply well_formed_typed, Q. }
    rewrite (process_queue_keeps_the_last_100 st T Lf La).
    cbn [log_queue file_logs alerts logger]. repeat split.
    + apply forallb_lastn. rewrite forallb_app, Fl. cbn [andb].
      apply forallb_filter_well_formed; [apply well_formed_file | exact Q].
    + apply forallb_lastn. rewrite forallb_app, Al. cbn [andb].
      apply forallb_filter_well_formed; [apply well_formed_alert | exact Q].
    + apply lastn_length.
    + apply lastn_length.
    + exact Lg.
Qed.

(** X14. In every state of a dashboard fed by [log_capture_worker],
    each entry of the activity sequence has a timestamp, a path and one
    of the four actions, each entry of the alert sequence has a
    timestamp, a message and one of the levels low, medium, high (the
    keys and values the tables and the bar chart read); both sequences
    hold at most 100 entries; and [process_queue] empties the queue
    without ever logging an error. *)
Theorem fed_dashboard_is_well_formed (st : SessionState) :
  Fed st ->
  forallb is_file_log (file_logs st) = true
  /\ forallb is_alert_log (alerts st) = true
  /\ List.length (file_logs st) <= 100
  /\ List.length (alerts st) <= 100
  /\ log_queue (process_queue st) = []
  /\ logger (process_queue st) = [].
Proof.
  intros F.
  destruct (fed_invariant st F) as (Q & Fl & Al & Lf & La & Lg).
  destruct (fed_invariant _ (fed_process_queue st F))
    as (_ & _ & _ & _ & _ & Lg').
  repeat split; try assumption.
  assert (forallb typed (log_queue st) = true) as T.
  { rewrite forallb_forall in *. intros log I.
    now apply well_formed_typed, Q. }
  now rewrite (process_queue_keeps_the_last_100 st T Lf La).
Qed.

Lemma fed_dashboard_is_well_formed_witness :
  let d := {| file_draw := 0; path_draw := 7; type_draw := 3;
              action_draw := 2;
              file_clock := {| year := 2024; month := 5; day := 6;
                               hour := 7; minute := 8; second := 9 |};
              alert_draw := 0; level_draw := 5; message_draw := 4;
              alert_clock := {| year := 2024; month := 5; day := 6;
                                hour := 7; minute := 8; second := 9 |} |} in
  let st := process_queue (worker_turn d initial_state) in
  forallb is_file_log (file_logs st) = true
  /\ forallb is_alert_log (alerts st) = true
  /\ List.length (file_logs st) <= 100
  /\ List.length (alerts st) <= 100
  /\ log_queue (process_queue st) = []
  /\ logger (process_queue st) = [].
Proof.
  intros d st. apply (fed_dashboard_is_well_formed st).
  apply fed_process_queue, fed_worker_turn, fed_initial.
Defined.

End WorkerProperties.

(* ===================================================================== *)
(** * Further properties: setting up a logger                             *)
(* ===================================================================== *)

Section LoggingProperties.

Import Logging.

(** X15. A log file given without a directory part makes
    [setup_logger] raise: [os.makedirs] is called on the empty path.
    Nothing is changed, the logger is not configured. *)
Theorem setup_logger_needs_a_directory
  (env : Env) (name log_file : string) (lvl : nat) :
  has_chr (is_chr "/") log_file = false ->
  setup_logger name log_file lvl env
  = (Raises (OSError "[Errno 2] No such file or directory: ''"), env).
Proof.
  intros H. unfold setup_logger, dirname, rfind.
  rewrite (rfind_from_absent "/" log_file 0 H).
  change (slice log_file 0 (-1 + 1)) with (String.substring 0 0 log_file).
  rewrite substring_0_0. reflexivity.
Qed.

Lemma setup_logger_needs_a_directory_witness :
  let env :=
    {| loggers := fun _ => {| level := 0; handlers := [] |};
       made_dirs := []; makedirs_error := fun _ => None;
       open_error := fun _ => None |} in
  setup_logger "main" "main.log" INFO_level env
  = (Raises (OSError "[Errno 2] No such file or directory: ''"), env).
Proof.
  intros env.
  apply (setup_logger_needs_a_directory env "main" "main.log" INFO_level).
  reflexivity.
Defined.

Lemma setup_logger_returns (env env' : Env) (name log_file r : string)
  (lvl : nat) :
  setup_logger name log_file lvl env = (Returns r, env') ->
  level (loggers env' name) = lvl
  /\ handlers (loggers env' name)
     = match handlers (loggers env name) with
       | [] => [ FileHandler log_file lvl format; StreamHandler lvl format ]
       | hs => hs
       end
  /\ forall other, other <> name -> loggers env' other = loggers env other.
Proof.
  unfold setup_logger, makedirs.
  destruct (if is_empty (dirname log_file) then _ else _); [discriminate|].
  cbn [loggers set_logger].
  destruct (handlers (loggers env name)) as [|h hs] eqn:Hs.
  - destruct (open_error _ log_file); [discriminate|].
    intros E. inversion E; subst. cbn [loggers set_logger].
    rewrite String.eqb_refl. cbn [level handlers]. repeat split.
    intros other N. apply String.eqb_neq in N. now rewrite N.
  - intros E. inversion E; subst. cbn [loggers set_logger].
    rewrite String.eqb_refl. cbn [level handlers]. repeat split.
    intros other N. apply String.eqb_neq in N. now rewrite N.
Qed.

(** X16. Handlers are attached once: after a first call of
    [setup_logger] that returned, a second call for the same name that
    returns, whatever its log file and level, leaves the logger with
    the two handlers of the first call, on the first file and at the
    first level; it only sets the level of the logger. The other
    loggers are not touched. *)
Theorem setup_logger_attaches_handlers_once
  (env env1 env2 : Env) (name file1 file2 r1 r2 : string) (lvl1 lvl2 : nat) :
  handlers (loggers env name) = [] ->
  setup_logger name file1 lvl1 env = (Returns r1, env1) ->
  setup_logger name file2 lvl2 env1 = (Returns r2, env2) ->
  handlers (loggers env2 name)
  = [ FileHandler file1 lvl1 format; StreamHandler lvl1 format ]
  /\ level (loggers env2 name) = lvl2
  /\ forall other, other <> name -> loggers env2 other = loggers env other.
Proof.
  intros H0 S1 S2.
  apply setup_logger_returns in S1 as (L1 & H1 & O1).
  apply setup_logger_returns in S2 as (L2 & H2 & O2).
  rewrite H0 in H1. rewrite H1 in H2. repeat split; try assumption.
  intros other N. now rewrite O2, O1.
Qed.

Lemma setup_logger_attaches_handlers_once_witness :
  let env := {| loggers := fun _ => {| level := 0; handlers := [] |};
                made_dirs := [];
                makedirs_error := fun _ => None;
                open_error := fun _ => None |} in
  let env1 := snd (setup_logger "main" "logs/main.log" 20 env) in
  let env2 := snd (setup_logger "main" "other/debug.log" 10 env1) in
  handlers (loggers env2 "main")
  = [ FileHandler "logs/main.log" 20 format; StreamHandler 20 format ]
  /\ level (loggers env2 "main") = 10
  /\ forall other, other <> "main" -> loggers env2 other = loggers env other.
Proof.
  intros env env1 env2.
  apply (setup_logger_attaches_handlers_once env env1 env2 "main"
           "logs/main.log" "other/debug.log" "main" "main" 20 10);
    reflexivity.
Defined.

End LoggingProperties.

(* ===================================================================== *)
(** * Further properties: the simulation thread                           *)
(* ===================================================================== *)

Section SimulationProperties.

Import Lifecycle Worker Simulation.

Lemma thread_step_keeps (d : Draw) (place : Place) (w : World) :
  is_running (self (snd (thread_step d place w))) = is_running (self w)
  /\ started (observer (self (snd (thread_step d place w))))
     = started (observer (self w))
  /\ (usb_detected (self w) = is_connected place ->
      usb_detected (self (snd (thread_step d place w)))
      = is_connected (fst (thread_step d place w))).
Proof.
  destruct place as [| |name|]; cbn [thread_step is_connected].
  - destruct (is_running (self w)) eqn:R; cbn [fst snd is_connected];
      repeat split; auto.
  - destruct (below_0_05 (detection_draw d)).
    + unfold bind. rewrite logger_warning_run, log_alert_run.
      now repeat split.
    + cbn [fst snd is_connected]. repeat split; auto.
  - rewrite logger_info_run. now repeat split.
  - cbn [fst snd is_connected]. repeat split; auto.
Qed.

(** The invariant of the monitor with its thread. *)
Lemma runs_invariant (place : Place) (w : World) :
  Runs place w ->
  usb_detected (self w) = is_connected place
  /\ started (observer (self w)) = true.
Proof.
  induction 1 as [w cwd paths kws E We | d place w R [IHu IHs]
                 | te place w R [IHu IHs] | place w R [IHu IHs]
                 | place w p a R [IHu IHs] | place w files err R [IHu IHs]].
  - rewrite start_monitoring_run by (rewrite E; reflexivity).
    assert (started (observer (self w)) = false) as S
      by (rewrite E; reflexivity).
    assert (usb_detected (self w) = false) as U
      by (rewrite E; reflexivity).
    rewrite S, We. now split.
  - destruct (thread_step_keeps d place w) as (_ & S & U).
    rewrite S. split; [now apply U | exact IHs].
  - destruct (is_running (self w)) eqn:Run.
    + rewrite (start_monitoring_when_running te w Run). now split.
    + rewrite (start_monitoring_when_run te w Run), IHs. now split.
  - destruct (is_running (self w)) eqn:Run.
    + rewrite (stop_monitoring_run w Run), IHs. now split.
    + rewrite (stop_monitoring_not_running w Run). now split.
  - rewrite handle_file_access_run. now split.
  - now split.
Qed.

(** X17. However the monitor and its thread run, the removable-media
    flag is set exactly while the thread sits in its ten seconds of
    "device connected"; once the thread has ended the flag is clear. *)
Theorem usb_flag_follows_the_thread (place : Place) (w : World) :
  Runs place w ->
  (usb_detected (self w) = true <-> exists usb_name, place = Connected usb_name)
  /\ (place = Exited -> usb_detected (self w) = false).
Proof.
  intros R. destruct (runs_invariant place w R) as [U _]. rewrite U.
  split; [split|].
  - destruct place; try discriminate. intros _. now eexists.
  - intros (name & ->). reflexivity.
  - intros ->. reflexivity.
Qed.

Lemma usb_flag_follows_the_thread_witness :
  let d := {| detection_draw := 0; name_draw := 6 |} in
  let w0 := snd (start_monitoring Examples.idle_world) in
  let c1 := thread_step d LoopTest w0 in
  let c2 := thread_step d (fst c1) (snd c1) in
  (usb_detected (self (snd c2)) = true
   <-> exists usb_name, fst c2 = Connected usb_name)
  /\ (fst c2 = Exited -> usb_detected (self (snd c2)) = false).
Proof.
  intros d w0 c1 c2.
  apply (usb_flag_follows_the_thread (fst c2) (snd c2)).
  apply runs_thread, runs_thread.
  apply (runs_started Examples.idle_world "/home/user" None None);
    reflexivity.
Defined.

(** X18. A detection: when the draw is below 0.05 the thread sets the
    flag, names the device USB1 to USB10, logs a warning and one Medium
    alert, and on its next step logs the removal at INFO, without an
    alert, and clears the flag. *)
Theorem detection_cycle (d d' : Draw) (w : World) :
  below_0_05 (detection_draw d) = true ->
  exists n,
    1 <= n <= 10
    /\ let usb_name := "USB" ++ str_of_nat n in
       let c1 := thread_step d Waiting w in
       let c2 := thread_step d' (fst c1) (snd c1) in
       fst c1 = Connected usb_name
       /\ usb_detected (self (snd c1)) = true
       /\ fst c2 = LoopTest
       /\ usb_detected (self (snd c2)) = false
       /\ logger (snd c2)
          = (logger w
             ++ [ {| levelname := WARNING;
                     message := "USB device detected: " ++ usb_name |};
                  {| levelname := WARNING;
                     message := "ALERT (MEDIUM): USB device detected: "
                                ++ usb_name |};
                  {| levelname := INFO;
                     message := "USB device removed: " ++ usb_name |} ])%list.
Proof.
  intros B. exists (randint 1 10 (name_draw d)). split.
  - unfold randint. pose proof (Nat.mod_upper_bound (name_draw d) (10 - 1 + 1)).
    simpl in *. lia.
  - cbn [thread_step]. rewrite B. unfold bind.
    rewrite logger_warning_run, log_alert_run. cbn [fst snd thread_step].
    rewrite logger_info_run. repeat split.
    cbn [logger add_logs with_self snd]. now rewrite <- !app_assoc.
Qed.

Lemma detection_cycle_witness :
  exists n,
    1 <= n <= 10
    /\ let usb_name := "USB" ++ str_of_nat n in
       let c1 := thread_step {| detection_draw := 0; name_draw := 6 |}
                   Waiting (Examples.world false) in
       let c2 := thread_step {| detection_draw := 5; name_draw := 0 |}
                   (fst c1) (snd c1) in
       fst c1 = Connected usb_name
       /\ usb_detected (self (snd c1)) = true
       /\ fst c2 = LoopTest
       /\ usb_detected (self (snd c2)) = false
       /\ logger (snd c2)
          = (logger (Examples.world false)
             ++ [ {| levelname := WARNING;
                     message := "USB device detected: " ++ usb_name |};
                  {| levelname := WARNING;
                     message := "ALERT (MEDIUM): USB device detected: "
                                ++ usb_name |};
                  {| levelname := INFO;
                     message := "USB device removed: " ++ usb_name |} ])%list.
Proof.
  apply (detection_cycle {| detection_draw := 0; name_draw := 6 |}
           {| detection_draw := 5; name_draw := 0 |} (Examples.world false)).
  reflexivity.
Defined.

(** X19. Stopping does not cut the thread short: it looks at
    [is_running] only at the top of its loop. A thread asleep when the
    monitor is stopped still draws once, and may report a device and
    set the flag although the monitor is no longer running; but within
    three steps the thread has ended, with the flag clear. *)
Theorem thread_ends_after_stop (place : Place) (w : World) (d1 d2 d3 : Draw) :
  Runs place w ->
  is_running (self w) = false ->
  let c1 := thread_step d1 place w in
  let c2 := thread_step d2 (fst c1) (snd c1) in
  let c3 := thread_step d3 (fst c2) (snd c2) in
  fst c3 = Exited
  /\ usb_detected (self (snd c3)) = false
  /\ (place = Waiting -> below_0_05 (detection_draw d1) = true ->
      usb_detected (self (snd c1)) = true
      /\ is_running (self (snd c1)) = false).
Proof.
  intros R Run c1 c2 c3.
  destruct (runs_invariant place w R) as [U _].
  assert (forall d (w' : World),
             is_running (self w') = false ->
             thread_step d LoopTest w' = (Exited, w')) as Test.
  { intros d w' H. cbn [thread_step]. now rewrite H. }
  assert (forall d name (w' : World),
             is_running (self w') = false ->
             exists w'',
               thread_step d (Connected name) w' = (LoopTest, w'')
               /\ is_running (self w'') = false
               /\ usb_detected (self w'') = false) as Removal.
  { intros d name w' H. cbn [thread_step]. rewrite logger_info_run.
    eexists. split; [reflexivity|]. now split. }
  subst c1 c2 c3.
  destruct place as [| |name|]; cbn [is_connected] in U.
  - rewrite (Test d1 w Run). cbn [fst snd thread_step].
    repeat split; try assumption. discriminate.
  - destruct (below_0_05 (detection_draw d1)) eqn:B.
    + assert (exists name w',
                 thread_step d1 Waiting w = (Connected name, w')
                 /\ is_running (self w') = false
                 /\ usb_detected (self w') = true) as (name & w' & -> & R' & U').
      { cbn [thread_step]. rewrite B. unfold bind.
        rewrite logger_warning_run, log_alert_run.
        eexists. eexists. split; [reflexivity|]. now split. }
      cbn [fst snd].
      destruct (Removal d2 name w' R') as (w'' & -> & R'' & U'').
      cbn [fst snd]. rewrite (Test d3 w'' R''). cbn [fst snd].
      now repeat split.
    + assert (thread_step d1 Waiting w = (LoopTest, w)) as ->
        by (cbn [thread_step]; now rewrite B).
      cbn [fst snd]. rewrite (Test d2 w Run). cbn [fst snd thread_step].
      repeat split; try assumption; discriminate.
  - destruct (Removal d1 name w Run) as (w'' & -> & R'' & U'').
    cbn [fst snd]. rewrite (Test d2 w'' R''). cbn [fst snd thread_step].
    repeat split; try assumption; discriminate.
  - cbn [fst snd thread_step]. repeat split; try assumption. discriminate.
Qed.

Lemma thread_ends_after_stop_witness :
  let d := {| detection_draw := 0; name_draw := 6 |} in
  let w0 := snd (start_monitoring Examples.idle_world) in
  let asleep := thread_step d LoopTest w0 in
  let w := snd (stop_monitoring (snd asleep)) in
  let c1 := thread_step d (fst asleep) w in
  let c2 := thread_step d (fst c1) (snd c1) in
  let c3 := thread_step d (fst c2) (snd c2) in
  fst c3 = Exited
  /\ usb_detected (self (snd c3)) = false
  /\ (fst asleep = Waiting -> below_0_05 (detection_draw d) = true ->
      usb_detected (self (snd c1)) = true
      /\ is_running (self (snd c1)) = false).
Proof.
  intros d w0 asleep w.
  apply (thread_ends_after_stop (fst asleep) w d d d).
  - apply runs_stop, runs_thread.
    apply (runs_started Examples.idle_world "/home/user" None None);
      reflexivity.
  - reflexivity.
Defined.

End SimulationProperties.

(* ===================================================================== *)
(** * Further properties: the application                                 *)
(* ===================================================================== *)

Section MainProperties.

Import Lifecycle Main.



(** X21. In every world a monitor lives through, [handle_shutdown]
    returns without logging an error: a monitor that is passed and
    running is stopped, a dashboard process that was launched is
    terminated and waited for, and the last record of the "main" logger
    is "Application shutdown complete". *)
Theorem handle_shutdown_stops_everything (monitor : bool) (app : App) :
  Reachable (world app) ->
  exists app',
    handle_shutdown monitor app = (Returns tt, app')
    /\ (monitor = true -> is_running (self (world app')) = false)
    /\ dashboard_process app'
       = match dashboard_process app with
         | Some _ => Some {| terminated := true; waited := true |}
         | None => None
         end
    /\ main_logger app'
       = (main_logger app
          ++ {| levelname := INFO; message := "Shutting down application..." |}
          :: (if monitor && is_running (self (world app))
              then [ {| levelname := INFO;
                        message := "File monitoring stopped" |} ]
              else [])
          ++ (match dashboard_process app with
              | Some _ => [ {| levelname := INFO;
                               message := "Dashboard stopped" |} ]
              | None => []
              end)
          ++ [ {| levelname := INFO;
                  message := "Application shutdown complete" |} ])%list.
Proof.
  intros R. unfold handle_shutdown.
  destruct (stop_monitoring_always_stops (world app) R) as (w' & S & Run & _).
  unfold main_info, main_error, main_log, with_world, terminate_and_wait.
  cbn [world main_logger dashboard_process cwd].
  destruct monitor; cbn [andb].
  - destruct (is_running (self (world app))) eqn:Was.
    + rewrite S. cbn [world main_logger dashboard_process cwd].
      destruct (dashboard_process app) as [proc|];
        cbn [world main_logger dashboard_process cwd];
        (eexists; split; [reflexivity|]; split; [intros _; exact Run|];
         split; [reflexivity|]);
        cbn [world main_logger dashboard_process cwd];
        now rewrite <- ?app_assoc.
    + destruct (dashboard_process app) as [proc|];
        cbn [world main_logger dashboard_process cwd];
        (eexists; split; [reflexivity|]; split; [intros _; exact Was|];
         split; [reflexivity|]);
        cbn [world main_logger dashboard_process cwd];
        now rewrite <- ?app_assoc.
  - destruct (dashboard_process app) as [proc|];
      cbn [world main_logger dashboard_process cwd];
      (eexists; split; [reflexivity|]; split; [discriminate|];
       split; [reflexivity|]);
      cbn [world main_logger dashboard_process cwd];
      now rewrite <- ?app_assoc.
Qed.

Lemma handle_shutdown_stops_everything_witness :
  let app :=
    {| world := snd (start_monitoring Examples.idle_world);
       main_logger := [];
       dashboard_process := Some {| terminated := false; waited := false |};
       cwd := "/home/user" |} in
  exists app',
    handle_shutdown true app = (Returns tt, app')
    /\ (true = true -> is_running (self (world app')) = false)
    /\ dashboard_process app'
       = match dashboard_process app with
         | Some _ => Some {| terminated := true; waited := true |}
         | None => None
         end
    /\ main_logger app'
       = (main_logger app
          ++ {| levelname := INFO; message := "Shutting down application..." |}
          :: (if true && is_running (self (world app))
              then [ {| levelname := INFO;
                        message := "File monitoring stopped" |} ]
              else [])
          ++ (match dashboard_process app with
              | Some _ => [ {| levelname := INFO;
                               message := "Dashboard stopped" |} ]
              | None => []
              end)
          ++ [ {| levelname := INFO;
                  message := "Application shutdown complete" |} ])%list.
Proof.
  intros app. apply (handle_shutdown_stops_everything true app).
  apply (reach_start None).
  apply (reach_init Examples.idle_world "/home/user" None None).
  reflexivity.
Defined.

End MainProperties.

(* ===================================================================== *)
(** * Further properties: the persona model                               *)
(* ===================================================================== *)

Section PersonaProperties.

Import Persona.

Lemma has_column_column (b : Behavior) (key : string) :
  has_column b key
  = match column b key with Some _ => true | None => false end.
Proof.
  unfold has_column. induction b as [|[k v] b IH]; [reflexivity|].
  cbn [map fst existsb column]. rewrite (String.eqb_sym key k).
  destruct (String.eqb k key); [reflexivity|exact IH].
Qed.

Lemma find_ext_in {A : Type} (p q : A -> bool) (l : list A) :
  (forall x, In x l -> p x = q x) -> find p l = find q l.
Proof.
  induction l as [|a l IH]; intros H; [reflexivity|].
  cbn [find]. rewrite <- (H a (or_introl eq_refl)).
  destruct (p a); [reflexivity|].
  apply IH. intros x I. apply H. now right.
Qed.

Lemma find_split {A : Type} (p : A -> bool) (l : list A) (x : A) :
  find p l = Some x ->
  exists before after,
    l = (before ++ x :: after)%list
    /\ (forall y, In y before -> p y = false)
    /\ p x = true.
Proof.
  induction l as [|a l IH]; [discriminate|].
  cbn [find]. destruct (p a) eqn:P.
  - intros E. inversion E; subst. exists [], l. repeat split; [|exact P].
    intros y [].
  - intros F. destruct (IH F) as (before & after & -> & B & X).
    exists (a :: before), after. repeat split; [|exact X].
    intros y [<-|I]; [exact P|now apply B].
Qed.

(** X22. [predict] reads the nine features and nothing else: two
    behaviours that agree on them, whatever the order of their keys and
    whatever other keys they have, get the same answer and leave the
    same log. *)
Theorem predict_reads_only_the_features {Scaled : Type}
  (b1 b2 : Behavior) (s : State Scaled) :
  (forall feature,
     In feature features -> column b1 feature = column b2 feature) ->
  predict b1 s = predict b2 s.
Proof.
  intros H. unfold predict.
  assert (M : missing_feature b1 = missing_feature b2).
  { unfold missing_feature. apply find_ext_in. intros f I.
    now rewrite !has_column_column, (H f I). }
  assert (R : feature_row b1 = feature_row b2).
  { unfold feature_row. apply map_ext_in. intros f I. now rewrite (H f I). }
  now rewrite M, R.
Qed.

Lemma predict_reads_only_the_features_witness :
  predict PersonaExamples.sample PersonaExamples.trained
  = predict (("user", 7%Z) :: rev PersonaExamples.sample)
            PersonaExamples.trained.
Proof.
  apply (predict_reads_only_the_features
           PersonaExamples.sample
           (("user", 7%Z) :: rev PersonaExamples.sample)
           PersonaExamples.trained).
  intros feature I. simpl in I.
  repeat (destruct I as [<-|I]; [reflexivity|]). destruct I.
Defined.

(** X23. With a trained model, a behaviour that lacks a feature makes
    [predict] raise [ValueError] for the first feature it lacks, in the
    order of the features, and log it; neither the scaler nor the
    estimator is asked. *)
Theorem predict_names_the_first_missing_feature {Scaled : Type}
  (b : Behavior) (s : State Scaled) (estimator : Object Scaled)
  (feature : string) :
  model (this s) = Some estimator ->
  In feature features ->
  has_column b feature = false ->
  exists before missing after,
    features = (before ++ missing :: after)%list
    /\ forallb (has_column b) before = true
    /\ has_column b missing = false
    /\ predict b s
       = (Err (ValueError ("Missing feature: " ++ missing)),
          {| this := this s;
             model_logger :=
               error (model_logger s) ("Missing feature: " ++ missing);
             disk := disk s |}).
Proof.
  intros M I H. unfold predict. rewrite M.
  destruct (missing_feature b) as [g|] eqn:F.
  - destruct (find_split _ _ _ F) as (before & after & E & B & G).
    exists before, g, after. split; [exact E|]. split.
    + apply forallb_forall. intros y Y. specialize (B y Y).
      now destruct (has_column b y).
    + split; [now destruct (has_column b g)|reflexivity].
  - pose proof (find_none _ _ F feature I) as N. cbv beta in N.
    rewrite H in N. discriminate.
Qed.

Lemma predict_names_the_first_missing_feature_witness :
  exists before missing after,
    features = (before ++ missing :: after)%list
    /\ forallb (has_column (firstn 2 PersonaExamples.sample)) before = true
    /\ has_column (firstn 2 PersonaExamples.sample) missing = false
    /\ predict (firstn 2 PersonaExamples.sample) PersonaExamples.trained
       = (Err (ValueError ("Missing feature: " ++ missing)),
          {| this := this PersonaExamples.trained;
             model_logger :=
               error (model_logger PersonaExamples.trained)
                     ("Missing feature: " ++ missing);
             disk := disk PersonaExamples.trained |}).
Proof.
  apply (predict_names_the_first_missing_feature
           (firstn 2 PersonaExamples.sample) PersonaExamples.trained
           PersonaExamples.usb_rule "after_hours").
  - reflexivity.
  - simpl. tauto.
  - reflexivity.
Defined.

(** X24. [load_model] never raises and leaves the disk as it was. It
    returns [False] when a load fails: the scaler is then the one the
    object had, and so is the model when the model's file could not be
    loaded; but when only the scaler's file could not be loaded, the
    model has already been replaced by the one loaded. *)
Theorem load_model_can_fail_half_way {Scaled : Type}
  (model_path : string) (scaler_path : option string) (s : State Scaled) :
  let (ok, s') := load_model model_path scaler_path s in
  disk s' = disk s
  /\ match files (disk s) model_path with
     | Holds loaded =>
         model (this s') = Some loaded
         /\ match given scaler_path with
            | Some path =>
                match files (disk s) path with
                | Holds loaded_scaler =>
                    ok = true /\ scaler (this s') = loaded_scaler
                | _ => ok = false /\ scaler (this s') = scaler (this s)
                end
            | None => ok = true /\ scaler (this s') = scaler (this s)
            end
     | _ => ok = false /\ this s' = this s
     end.
Proof.
  unfold load_model, bind at 1, joblib_load at 1.
  destruct (files (disk s) model_path) as [|loaded|why] eqn:Fm;
    [now repeat split| |now repeat split].
  unfold bind at 1, set_this at 1. unfold bind at 1, logger_info at 1.
  cbn [this model_logger disk].
  assert (Rest :
    forall s1 : State Scaled,
      disk s1 = disk s ->
      model (this s1) = Some loaded ->
      scaler (this s1) = scaler (this s) ->
      let (ok, s') :=
        match
          match given scaler_path with
          | Some path =>
              bind (joblib_load path)
                (fun loaded_scaler =>
                   bind (set_this (set_scaler loaded_scaler))
                     (fun _ => logger_info ("Scaler loaded from " ++ path)))
          | None => ret tt
          end s1
        with
        | (Ok _, s') => (true, s')
        | (Err e, s') =>
            (false,
             {| this := this s';
                model_logger :=
                  error (model_logger s')
                        ("Error loading model: " ++ str_of_error e);
                disk := disk s' |})
        end in
      disk s' = disk s
      /\ model (this s') = Some loaded
      /\ match given scaler_path with
         | Some path =>
             match files (disk s) path with
             | Holds loaded_scaler =>
                 ok = true /\ scaler (this s') = loaded_scaler
             | _ => ok = false /\ scaler (this s') = scaler (this s)
             end
         | None => ok = true /\ scaler (this s') = scaler (this s)
         end).
  { intros s1 D M S.
    destruct (given scaler_path) as [path|].
    - unfold bind at 1, joblib_load. rewrite D.
      destruct (files (disk s) path) as [|loaded_scaler|why];
        cbn [this model_logger disk]; now repeat split.
    - unfold ret. now repeat split. }
  destruct (class_of loaded);
    unfold bind at 1; unfold set_this at 1, ret at 1;
    cbn [this model_logger disk];
    match goal with
    | |- let (_, _) := match _ ?s1 with _ => _ end in _ =>
        specialize (Rest s1 eq_refl eq_refl eq_refl)
    end;
    exact Rest.
Qed.

Lemma predict_result {Scaled : Type} (b : Behavior) (s1 s2 : State Scaled) :
  model (this s1) = model (this s2) ->
  scaler (this s1) = scaler (this s2) ->
  fst (predict b s1) = fst (predict b s2).
Proof.
  intros M S. unfold predict. rewrite M, S.
  destruct (model (this s2)) as [estimator|]; [|reflexivity].
  destruct (missing_feature b); [reflexivity|].
  unfold bind, call, logger_info, ret.
  destruct (transform (scaler (this s2)) (feature_row b)) as [x|e];
    [|reflexivity].
  destruct (predict_first estimator x) as [p|e]; [|reflexivity].
  destruct (max_proba estimator x) as [q|e]; reflexivity.
Qed.

(** X25. Saving and loading again is a round trip: when the file system
    lets [save_model] write the model and the scaler to two different
    paths, it returns, and [load_model] on any other [PersonaModel]
    with the same paths then returns [True], leaves that object with
    the model and the scaler that were saved, and makes it predict as
    the saved one does. *)
Theorem save_then_load_restores_the_model {Scaled : Type}
  (model_path scaler_path : string) (s : State Scaled)
  (estimator : Object Scaled) :
  model (this s) = Some estimator ->
  is_empty (Logging.dirname model_path) = false ->
  makedirs_error (disk s) (Logging.dirname model_path) = None ->
  dump_error (disk s) model_path = None ->
  dump_error (disk s) scaler_path = None ->
  is_empty scaler_path = false ->
  scaler_path <> model_path ->
  exists s1,
    save_model model_path (Some scaler_path) s = (Ok tt, s1)
    /\ this s1 = this s
    /\ forall other : State Scaled,
         disk other = disk s1 ->
         exists s2,
           load_model model_path (Some scaler_path) other = (true, s2)
           /\ model (this s2) = Some estimator
           /\ scaler (this s2) = scaler (this s)
           /\ forall b, fst (predict b s2) = fst (predict b s).
Proof.
  intros M Dir Mk Dm Ds Ne Diff.
  unfold save_model. rewrite M.
  unfold bind at 1, makedirs at 1. rewrite Dir, Mk.
  unfold set_disk at 1.
  unfold bind at 1, joblib_dump at 1. cbn [disk dump_error]. rewrite Dm.
  unfold set_disk at 1.
  unfold bind at 1, logger_info at 1.
  cbn [given]. rewrite Ne.
  unfold bind at 1, joblib_dump at 1. cbn [disk dump_error this]. rewrite Ds.
  unfold set_disk, logger_info. cbn [disk this model_logger files].
  eexists. split; [reflexivity|]. split; [reflexivity|].
  intros other D.
  pose proof (load_model_can_fail_half_way model_path (Some scaler_path)
                other) as L.
  destruct (load_model model_path (Some scaler_path) other) as [ok s2].
  destruct L as (_ & L). rewrite D in L. cbn [disk files given] in L.
  assert (P : String.eqb model_path scaler_path = false).
  { apply String.eqb_neq. congruence. }
  rewrite Ne, P, !String.eqb_refl in L.
  destruct L as (Lm & -> & Lscaler).
  exists s2. split; [reflexivity|]. split; [exact Lm|].
  split; [exact Lscaler|].
  intros b. apply predict_result; congruence.
Qed.

Lemma save_then_load_restores_the_model_witness :
  exists s1,
    save_model "model/persona_model.joblib" (Some "model/scaler.joblib")
               PersonaExamples.trained
    = (Ok tt, s1)
    /\ this s1 = this PersonaExamples.trained
    /\ forall other : State (list Z),
         disk other = disk s1 ->
         exists s2,
           load_model "model/persona_model.joblib"
                      (Some "model/scaler.joblib") other
           = (true, s2)
           /\ model (this s2) = Some PersonaExamples.usb_rule
           /\ scaler (this s2) = scaler (this PersonaExamples.trained)
           /\ forall b,
                fst (predict b s2) = fst (predict b PersonaExamples.trained).
Proof.
  apply (save_then_load_restores_the_model
           "model/persona_model.joblib" "model/scaler.joblib"
           PersonaExamples.trained PersonaExamples.usb_rule);
    try reflexivity.
  discriminate.
Defined.

Lemma dirname_of_a_bare_name (p : string) :
  has_chr (is_chr "/") p = false -> Logging.dirname p = "".
Proof.
  intros H. unfold Logging.dirname, rfind.
  rewrite (rfind_from_absent "/" p 0 H).
  change (slice p 0 (-1 + 1)) with (String.substring 0 0 p).
  rewrite substring_0_0. reflexivity.
Qed.

(** X26. [save_model] with a model path that has no directory part
    always raises and writes nothing: an untrained model is refused
    first, and a trained one fails in [os.makedirs], called on the
    empty path, before anything is dumped. *)
Theorem save_model_needs_a_directory {Scaled : Type}
  (model_path : string) (scaler_path : option string) (s : State Scaled) :
  has_chr (is_chr "/") model_path = false ->
  save_model model_path scaler_path s
  = match model (this s) with
    | None =>
        (Err (RuntimeError "Model not trained. Call train() first."),
         {| this := this s;
            model_logger :=
              error (model_logger s) "Model not trained. Call train() first.";
            disk := disk s |})
    | Some _ =>
        (Err (OtherError "[Errno 2] No such file or directory: ''"), s)
    end.
Proof.
  intros H. unfold save_model.
  destruct (model (this s)) as [estimator|]; [|reflexivity].
  unfold bind at 1, makedirs at 1.
  now rewrite (dirname_of_a_bare_name model_path H).
Qed.

Lemma save_model_needs_a_directory_witness :
  save_model "persona_model.joblib" (Some "scaler.joblib")
             PersonaExamples.trained
  = (Err (OtherError "[Errno 2] No such file or directory: ''"),
     PersonaExamples.trained).
Proof.
  apply (save_model_needs_a_directory
           "persona_model.joblib" (Some "scaler.joblib")
           PersonaExamples.trained).
  reflexivity.
Defined.

Lemma randint_range (a b draw : nat) :
  a <= b -> a <= Worker.randint a b draw <= b.
Proof.
  intros H. unfold Worker.randint.
  pose proof (Nat.mod_upper_bound draw (b - a + 1)). lia.
Qed.

(** The shape of a simulated behaviour. *)
Lemma simulate_behavior_shape (hour : nat) (d : BehaviorDraws) :
  exists session files dirs usb websites emails keyboard : nat,
    simulate_behavior hour d
    = [ ("login_hour", Z.of_nat hour);
        ("session_duration_mins", Z.of_nat session);
        ("files_accessed", Z.of_nat files);
        ("unique_directories_accessed", Z.of_nat dirs);
        ("usb_connected", Z.of_nat usb);
        ("websites_visited", Z.of_nat websites);
        ("email_sent_count", Z.of_nat emails);
        ("after_hours",
         Z.of_nat (if ((9 <=? hour) && (hour <=? 17))%nat then 0 else 1));
        ("keyboard_intensity", Z.of_nat keyboard) ]
    /\ 5 <= session <= 480
    /\ 1 <= files <= 500
    /\ 1 <= dirs <= 100
    /\ usb <= 1
    /\ 1 <= websites <= 250
    /\ emails <= 100
    /\ 5 <= keyboard <= 200.
Proof.
  unfold simulate_behavior.
  do 7 eexists. split; [reflexivity|].
  pose proof (randint_range 2 5 (factor_draw d)) as F.
  pose proof (randint_range 30 480 (session_draw d)).
  pose proof (randint_range 5 120 (session_draw d)).
  pose proof (randint_range 5 50 (files_draw d)).
  pose proof (randint_range 1 100 (files_draw d)).
  pose proof (randint_range 1 10 (dirs_draw d)).
  pose proof (randint_range 1 20 (dirs_draw d)).
  pose proof (randint_range 5 50 (websites_draw d)).
  pose proof (randint_range 1 30 (websites_draw d)).
  pose proof (randint_range 0 20 (emails_draw d)).
  pose proof (randint_range 0 10 (emails_draw d)).
  pose proof (randint_range 30 100 (keyboard_draw d)).
  pose proof (randint_range 10 60 (keyboard_draw d)).
  pose proof (randint_range 5 200 (anomaly_keyboard_draw d)).
  destruct ((9 <=? hour) && (hour <=? 17))%nat;
    destruct (Worker.below_0_15 (anomaly_draw d));
    destruct (Worker.below_0_1 (usb_draw d));
    destruct (Worker.below_0_3 (usb_draw d));
    repeat split; nia.
Qed.

(** X27. Whatever the hour and the draws, the behaviour
    [predict_persona] makes up has exactly the nine features, in their
    order, so [predict] finds none missing and reads the values as they
    stand; the login hour is the current hour, [after_hours] is 0 from
    9 to 17 and 1 otherwise, and every count is within fixed bounds. *)
Theorem simulated_behavior_is_complete_and_bounded
  (hour : nat) (d : BehaviorDraws) :
  let b := simulate_behavior hour d in
  map fst b = features
  /\ missing_feature b = None
  /\ feature_row b = map snd b
  /\ column b "login_hour" = Some (Z.of_nat hour)
  /\ column b "after_hours"
     = Some (if ((9 <=? hour) && (hour <=? 17))%nat then 0 else 1)%Z
  /\ within b "session_duration_mins" 5 480 = true
  /\ within b "files_accessed" 1 500 = true
  /\ within b "unique_directories_accessed" 1 100 = true
  /\ within b "usb_connected" 0 1 = true
  /\ within b "websites_visited" 1 250 = true
  /\ within b "email_sent_count" 0 100 = true
  /\ within b "keyboard_intensity" 5 200 = true.
Proof.
  destruct (simulate_behavior_shape hour d)
    as (session & files & dirs & usb & websites & emails & keyboard
        & E & Bs & Bf & Bd & Bu & Bw & Be & Bk).
  cbv zeta. rewrite E. clear E.
  split; [reflexivity|]. split; [reflexivity|]. split; [reflexivity|].
  split; [reflexivity|].
  split; [now destruct ((9 <=? hour) && (hour <=? 17))%nat|].
  unfold within. cbn [column String.eqb Ascii.eqb Bool.eqb].
  repeat split; apply andb_true_intro; split; apply Z.leb_le; lia.
Qed.

(** X28. When the model was never trained or loaded, [predict_persona]
    returns "Unknown" and logs the error, stores the behaviour it made
    up, and leaves the persona of the session as it was: the dashboard
    then shows an old persona beside the new behaviour. *)
Theorem predict_persona_without_a_model_is_unknown {Scaled : Type}
  (hour : nat) (d : BehaviorDraws) (st : Session Scaled) :
  model (this (session_model st)) = None ->
  exists st',
    predict_persona hour d st = ("Unknown", st')
    /\ persona st' = persona st
    /\ user_behavior st' = Some (simulate_behavior hour d)
    /\ dashboard_logger st'
       = error (dashboard_logger st)
               "Error predicting persona: Model not trained. Call train() first."
    /\ model_logger (session_model st')
       = error (model_logger (session_model st))
               "Model not trained. Call train() first."
    /\ this (session_model st') = this (session_model st).
Proof.
  intros M. unfold predict_persona, predict. rewrite M.
  unfold bind, logger_error, raise.
  eexists. split; [reflexivity|]. now repeat split.
Qed.

Lemma predict_persona_without_a_model_is_unknown_witness :
  exists st',
    predict_persona 20 PersonaExamples.draws
      (PersonaExamples.session PersonaExamples.untrained)
    = ("Unknown", st')
    /\ persona st' = Some "Normal"
    /\ user_behavior st'
       = Some (simulate_behavior 20 PersonaExamples.draws)
    /\ dashboard_logger st'
       = error []
               "Error predicting persona: Model not trained. Call train() first."
    /\ model_logger (session_model st')
       = error [] "Model not trained. Call train() first."
    /\ this (session_model st') = this PersonaExamples.untrained.
Proof.
  apply (predict_persona_without_a_model_is_unknown
           20 PersonaExamples.draws
           (PersonaExamples.session PersonaExamples.untrained)).
  reflexivity.
Defined.

(** X29. With a model, [predict_persona] never fails on a missing
    feature: the scaler gets the nine values made up, in the order of
    the features, and when it and the estimator answer, the persona
    they give is returned, stored in the session and logged by both
    loggers. *)
Theorem predict_persona_asks_the_estimator {Scaled : Type}
  (hour : nat) (d : BehaviorDraws) (st : Session Scaled)
  (estimator : Object Scaled) (X_scaled : Scaled) (p q : string) :
  model (this (session_model st)) = Some estimator ->
  transform (scaler (this (session_model st)))
            (map snd (simulate_behavior hour d)) = Ok X_scaled ->
  predict_first estimator X_scaled = Ok p ->
  max_proba estimator X_scaled = Ok q ->
  exists st',
    predict_persona hour d st = (p, st')
    /\ persona st' = Some p
    /\ user_behavior st' = Some (simulate_behavior hour d)
    /\ dashboard_logger st'
       = info (dashboard_logger st) ("Predicted persona: " ++ p)
    /\ model_logger (session_model st')
       = info (model_logger (session_model st))
              ("Predicted persona: " ++ p ++ " with probability: " ++ q)
    /\ this (session_model st') = this (session_model st).
Proof.
  intros M T P Q.
  destruct (simulated_behavior_is_complete_and_bounded hour d)
    as (_ & Miss & Row & _).
  unfold predict_persona, predict. rewrite M, Miss, Row.
  unfold bind at 1, call at 1. rewrite T.
  unfold bind at 1, call at 1. rewrite P.
  unfold bind at 1, call at 1. rewrite Q.
  unfold bind, logger_info, ret.
  eexists. split; [reflexivity|]. now repeat split.
Qed.

Lemma predict_persona_asks_the_estimator_witness :
  exists st',
    predict_persona 20 PersonaExamples.draws
      (PersonaExamples.session PersonaExamples.trained)
    = ("Suspicious", st')
    /\ persona st' = Some "Suspicious"
    /\ user_behavior st'
       = Some (simulate_behavior 20 PersonaExamples.draws)
    /\ dashboard_logger st' = info [] "Predicted persona: Suspicious"
    /\ model_logger (session_model st')
       = info [] "Predicted persona: Suspicious with probability: 1.0000"
    /\ this (session_model st') = this PersonaExamples.trained.
Proof.
  apply (predict_persona_asks_the_estimator
           20 PersonaExamples.draws
           (PersonaExamples.session PersonaExamples.trained)
           PersonaExamples.usb_rule
           (map snd (simulate_behavior 20 PersonaExamples.draws))
           "Suspicious" "1.0000");
    reflexivity.
Defined.

End PersonaProperties.
